(** * Lint-suppression scanners: a shallow embedding and its properties

    The development follows [scan_eslint_ignore.py] (Dialect A, with the
    [.eslintignore] scanner) and [scan_pylint_ignore.py] (Dialect B).

    - [Py]      : the Python primitives the scripts rely on (strings, [strip],
                  list indexing with negative indices, [join], exceptions);
    - [Re]      : the fragment of [re] the compiled patterns use, as a
                  backtracking matcher with capture groups;
    - [Out]     : the observable effects of the scripts (logging, printing,
                  the CSV file, [sys.exit]);
    - [Eslint], [Pylint] : the two scripts, function by function;
    - [Inv]     : the vocabulary of the statements (spans, invariants).

    Python's [None] is [None]; a value that cannot be [None] in the source
    has no [option].  The truth value of [self.reason] and [self.rule] in
    [Ignore.values] (false for [None] and for the empty list or string) is
    written as a match. *)

From Stdlib Require Import Ascii String DecimalString.
From Stdlib Require Import List ZArith Lia Bool Arith.
Import ListNotations.

Local Open Scope Z_scope.

(* ================================================================== *)
(** ** Python primitives *)

Module Py.

(** A Python [str] is a sequence of code points; the model keeps the code
    points below 256. *)
Definition str := list ascii.

(** String literals of the source are written [L "..."]. *)
Definition L (s : string) : str := list_ascii_of_string s.

Definition nl : ascii := ascii_of_nat 10.

(** A line as [readlines] returns it: the text followed by a newline. *)
Definition line (s : string) : str := L s ++ [nl].

(** [str.isspace] on one code point (and the regex class [\s]). *)
Definition isspace (c : ascii) : bool :=
  let n := nat_of_ascii c in
  ((9 <=? n) && (n <=? 13))%nat
  || ((28 <=? n) && (n <=? 32))%nat
  || (n =? 133)%nat || (n =? 160)%nat.

Fixpoint lstrip (s : str) : str :=
  match s with
  | c :: s' => if isspace c then lstrip s' else s
  | [] => []
  end.

Definition rstrip (s : str) : str := rev (lstrip (rev s)).

(** [s.strip()] *)
Definition strip (s : str) : str := rstrip (lstrip s).

(** Exceptions the scripts can raise, and [sys.exit]. *)
Inductive exn : Type :=
| IndexError
| AttributeError
| OSError
| SystemExit (code : Z).

(** A computation that returns or raises. *)
Inductive res (A : Type) : Type :=
| Ok (a : A)
| Raise (e : exn).
Arguments Ok {A} a.
Arguments Raise {A} e.

Definition bind {A B : Type} (m : res A) (f : A -> res B) : res B :=
  match m with
  | Ok a => f a
  | Raise e => Raise e
  end.

(** [l[i]] with Python's negative indices. *)
Definition getitem {A : Type} (l : list A) (i : Z) : res A :=
  let n := Z.of_nat (length l) in
  let j := if i <? 0 then i + n else i in
  if (0 <=? j) && (j <? n)
  then match nth_error l (Z.to_nat j) with
       | Some a => Ok a
       | None => Raise IndexError
       end
  else Raise IndexError.

(** [sep.join(l)] *)
Fixpoint join (sep : str) (l : list str) : str :=
  match l with
  | [] => []
  | [a] => a
  | a :: l' => a ++ sep ++ join sep l'
  end.

Fixpoint prefix (p s : str) : bool :=
  match p, s with
  | [], _ => true
  | a :: p', b :: s' => Ascii.eqb a b && prefix p' s'
  | _ :: _, [] => false
  end.

(** [p in s] on strings. *)
Fixpoint contains (p s : str) : bool :=
  prefix p s ||
  match s with
  | [] => false
  | _ :: s' => contains p s'
  end.

Definition str_eqb (a b : str) : bool :=
  (length a =? length b)%nat && prefix a b.

(** [str(n)] for an integer. *)
Definition str_of_Z (z : Z) : str :=
  L (NilZero.string_of_int (Z.to_int z)).

(** [s.split(sep)] for a one-character separator. *)
Fixpoint split (sep : ascii) (s : str) : list str :=
  match s with
  | [] => [[]]
  | c :: s' =>
      if Ascii.eqb c sep then [] :: split sep s'
      else match split sep s' with
           | w :: ws => (c :: w) :: ws
           | [] => [[c]]
           end
  end.

(** [enumerate(l, start)] *)
Fixpoint enumerate {A : Type} (l : list A) (start : Z) : list (Z * A) :=
  match l with
  | [] => []
  | a :: l' => (start, a) :: enumerate l' (start + 1)
  end.

End Py.

Notation "x <- m ;; k" := (Py.bind m (fun x => k))
  (at level 61, m at next level, right associativity).

(* ================================================================== *)
(** ** The regular expressions of the scripts *)

Module Re.
Import Py.

(** The constructs that occur in the patterns of the two scripts.  Repetition is only
    ever applied to a single character class ([.*], [\s*], [[...]*],
    [.+], [[...]+]), and is greedy. *)
Inductive re : Type :=
| Eps
| Bol                          (* ^ *)
| Eol                          (* $ *)
| Cls (p : ascii -> bool)      (* one character of a class *)
| Star (p : ascii -> bool)     (* p*, greedy *)
| Seq (a b : re)
| Alt (a b : re)               (* a|b, a tried first *)
| Grp (i : nat) (a : re).      (* the i-th capturing group *)

Definition Chr (c : ascii) : re := Cls (Ascii.eqb c).
Definition Plus (p : ascii -> bool) : re := Seq (Cls p) (Star p).
(** [(?:a)?] *)
Definition Opt (a : re) : re := Alt a Eps.

(** A literal word. *)
Fixpoint Lit (w : str) : re :=
  match w with
  | [] => Eps
  | c :: w' => Seq (Chr c) (Lit w')
  end.

(** A sequence of pieces. *)
Fixpoint Cat (l : list re) : re :=
  match l with
  | [] => Eps
  | [a] => a
  | a :: l' => Seq a (Cat l')
  end.

(** Character classes. *)
Definition dot (c : ascii) : bool := negb (Ascii.eqb c nl).
Definition ws (c : ascii) : bool := isspace c.
Definition letter (c : ascii) : bool :=
  let n := nat_of_ascii c in
  (((65 <=? n) && (n <=? 90)) || ((97 <=? n) && (n <=? 122)))%nat.
Definition one_of (w : string) (c : ascii) : bool :=
  existsb (Ascii.eqb c) (L w).

(** Capture environment: the text of each group that took part. *)
Definition caps := nat -> option str.
Definition no_caps : caps := fun _ => None.
Definition set_cap (i : nat) (g : str) (c : caps) : caps :=
  fun j => if Nat.eqb j i then Some g else c j.

(** Greedy repetition of a class: the longest run first, then shorter. *)
Fixpoint star_k (p : ascii -> bool) (k : str -> option caps) (s : str)
  : option caps :=
  match s with
  | x :: s' =>
      if p x then
        match star_k p k s' with
        | Some r => Some r
        | None => k s
        end
      else k s
  | [] => k []
  end.

(** The backtracking matcher, in continuation-passing style: [s0] is the
    whole subject, [s] what is left of it, [c] the captures so far. *)
Fixpoint run (r : re) (s0 s : str) (c : caps)
  (k : str -> caps -> option caps) : option caps :=
  match r with
  | Eps => k s c
  | Bol => if (length s =? length s0)%nat then k s c else None
  | Eol =>
      match s with
      | [] => k s c
      | [x] => if Ascii.eqb x nl then k s c else None
      | _ => None
      end
  | Cls p =>
      match s with
      | x :: s' => if p x then k s' c else None
      | [] => None
      end
  | Star p => star_k p (fun s' => k s' c) s
  | Seq a b => run a s0 s c (fun s1 c1 => run b s0 s1 c1 k)
  | Alt a b =>
      match run a s0 s c k with
      | Some r => Some r
      | None => run b s0 s c k
      end
  | Grp i a =>
      run a s0 s c
        (fun s1 c1 => k s1 (set_cap i (firstn (length s - length s1) s) c1))
  end.

(** The number of groups of a pattern. *)
Fixpoint ngroups (r : re) : nat :=
  match r with
  | Seq a b | Alt a b => Nat.max (ngroups a) (ngroups b)
  | Grp i a => Nat.max i (ngroups a)
  | _ => 0%nat
  end.

(** A compiled pattern: its source text and its syntax tree. *)
Record pattern : Type := Pattern {
  source : str;
  tree : re
}.

(** A match object. *)
Record rmatch : Type := Match {
  m_re : pattern;
  m_caps : caps
}.

(** [pattern.match(s)] *)
Definition rematch (p : pattern) (s : str) : option rmatch :=
  match run (tree p) s s no_caps (fun _ c => Some c) with
  | Some c => Some (Match p c)
  | None => None
  end.

(** [m.group(i)]: [IndexError] when the pattern has no such group, [None]
    when the group did not take part in the match. *)
Definition group (m : rmatch) (i : nat) : res (option str) :=
  if (i <=? ngroups (tree (m_re m)))%nat then Ok (m_caps m i)
  else Raise IndexError.

(** [m.group(i).strip()] *)
Definition group_strip (m : rmatch) (i : nat) : res str :=
  g <- group m i ;;
  match g with
  | Some t => Ok (strip t)
  | None => Raise AttributeError
  end.

(** What a pattern can do, as a relation: from [s] with captures [c] it
    may leave [s1] with captures [c1]. *)
Fixpoint sem (r : re) (s0 s : str) (c : caps) (s1 : str) (c1 : caps) : Prop :=
  match r with
  | Eps => s1 = s /\ c1 = c
  | Bol => s1 = s /\ c1 = c /\ length s = length s0
  | Eol => s1 = s /\ c1 = c /\ (s = [] \/ s = [nl])
  | Cls p => exists x, s = x :: s1 /\ p x = true /\ c1 = c
  | Star p => exists w, s = w ++ s1 /\ forallb p w = true /\ c1 = c
  | Seq a b => exists s' c', sem a s0 s c s' c' /\ sem b s0 s' c' s1 c1
  | Alt a b => sem a s0 s c s1 c1 \/ sem b s0 s c s1 c1
  | Grp i a =>
      exists c', sem a s0 s c s1 c'
                 /\ c1 = set_cap i (firstn (length s - length s1) s) c'
  end.

(** A group that every successful match sets. *)
Fixpoint sets (i : nat) (r : re) : bool :=
  match r with
  | Seq a b => sets i a || sets i b
  | Alt a b => sets i a && sets i b
  | Grp j a => Nat.eqb i j || sets i a
  | _ => false
  end.

End Re.

(* ================================================================== *)
(** ** Observable effects *)

Module Out.
Import Py.

Inductive level : Type := DEBUG | INFO | WARNING | ERROR.

(** What a run does to the outside: calls on the module's logger, lines
    printed on the console, [mkdir] called on the export directory, the
    CSV file opened for writing and the rows written to it. *)
Inductive event : Type :=
| Log (lv : level) (fmt : str) (args : list str)
| Print (s : str)
| Mkdir (dir : str)
| OpenW (path : str)
| WriteRow (path : str) (row : list str).

(** An effectful computation: the events it emitted, and its result or
    the exception (or [sys.exit]) that ended it. *)
Definition io (A : Type) : Type := (list event * res A)%type.

Definition ret {A : Type} (a : A) : io A := ([], Ok a).
Definition emit (e : event) : io unit := ([e], Ok tt).
Definition raise {A : Type} (e : exn) : io A := ([], Raise e).
Definition lift {A : Type} (r : res A) : io A := ([], r).
(** [sys.exit(code)] *)
Definition exit {A : Type} (code : Z) : io A := raise (SystemExit code).

Definition iobind {A B : Type} (m : io A) (f : A -> io B) : io B :=
  match m with
  | (ev, Ok a) => let '(ev', r) := f a in (ev ++ ev', r)
  | (ev, Raise e) => (ev, Raise e)
  end.

(** [for x in l: body x] *)
Fixpoint for_each {A : Type} (l : list A) (body : A -> io unit) : io unit :=
  match l with
  | [] => ret tt
  | a :: l' => iobind (body a) (fun _ => for_each l' body)
  end.

(** [[body x for x in l if keep x]] where [keep] has effects. *)
Fixpoint filter_io {A : Type} (keep : A -> io bool) (l : list A)
  : io (list A) :=
  match l with
  | [] => ret []
  | a :: l' =>
      iobind (keep a) (fun b =>
      iobind (filter_io keep l') (fun r =>
      ret (if b then a :: r else r)))
  end.

(** The exit status of the process that ran [main]: the argument of
    [sys.exit], and 1 when an exception that is not caught ends the
    run. *)
Definition exit_code {A : Type} (m : io A) : option Z :=
  match snd m with
  | Ok _ => Some 0
  | Raise (SystemExit c) => Some c
  | Raise _ => Some 1
  end.

(** The part of a run that is the report: console lines and CSV output. *)
Definition is_report (e : event) : bool :=
  match e with
  | Print _ | OpenW _ | WriteRow _ _ => true
  | _ => false
  end.

(** The file-system and path operations [main] calls, taken as given.
    [mkdir d] is the call [d.mkdir(parents=True, exist_ok=True)]: [None]
    when it raises (an [OSError]: a file in the way, a parent that is
    not a directory, no permission), and otherwise the directories it
    makes, [d] and its missing parents. *)
Record FS : Type := {
  exists_ : str -> bool;
  is_file : str -> bool;
  readlines : str -> res (list str);
  glob : str -> string -> list str;
  suffix : str -> str;
  is_relative_to : str -> str -> bool;
  resolve : str -> str;
  joinpath : str -> str -> str;
  mkdir : str -> option (str -> bool)
}.

(** The file system once [mkdir] has made the directories [made]: those
    that were not there before exist, are not files and cannot be read
    as files; a traversal is asked for after that call only. *)
Definition with_dirs (fs : FS) (made : str -> bool) : FS :=
  let new := fun p => made p && negb (exists_ fs p) in
  {| exists_ := fun p => exists_ fs p || made p;
     is_file := fun p => negb (new p) && is_file fs p;
     readlines := fun p => if new p then Raise OSError else readlines fs p;
     glob := glob fs;
     suffix := suffix fs;
     is_relative_to := is_relative_to fs;
     resolve := resolve fs;
     joinpath := joinpath fs;
     mkdir := mkdir fs |}.

(** A file system with one file, [name], holding [content]; [mkdir]
    makes the directory it is called on. *)
Definition one_file (name : str) (content : list str) : FS :=
  {| exists_ := fun p => str_eqb p name;
     is_file := fun p => str_eqb p name;
     readlines := fun p => if str_eqb p name then Ok content
                           else Raise OSError;
     glob := fun _ _ => [];
     suffix := fun _ => [];
     is_relative_to := fun _ _ => false;
     resolve := fun p => p;
     joinpath := fun a b => a ++ L "/" ++ b;
     mkdir := fun d => Some (fun p => str_eqb p d) |}.

End Out.

Notation "x <~ m ;; k" := (Out.iobind m (fun x => k))
  (at level 61, m at next level, right associativity).
Notation "m ;;; k" := (Out.iobind m (fun _ => k))
  (at level 61, right associativity).

(* ================================================================== *)
(** ** Dialect A: [scan_eslint_ignore.py] *)

Module Eslint.
Import Py Re Out.

(** [[a-zA-Z@\-,\s\/]] *)
Definition rule_chars (c : ascii) : bool :=
  letter c || one_of "@-,/" c || ws c.

Definition TS_COMMENT_PATTERN : pattern :=
  Pattern (L ".*//\s*(.+)")
    (Cat [Star dot; Lit (L "//"); Star ws; Grp 1 (Plus dot)]).

Definition ESLINT_IGNORE_ENTIRE_FILE_PATTERN : pattern :=
  Pattern (L "^/\*\s*eslint-disable\s*([a-zA-Z@\-,\s\/]*)\s*\*/$")
    (Cat [Bol; Lit (L "/*"); Star ws; Lit (L "eslint-disable"); Star ws;
          Grp 1 (Star rule_chars); Star ws; Lit (L "*/"); Eol]).

Definition ESLINT_INLINE_IGNORE_PATTERN : pattern :=
  Pattern (L ".*//\s*eslint-disable(?:-next)?-line\s*([a-zA-Z@\-,\s\/]*)\s*$")
    (Cat [Star dot; Lit (L "//"); Star ws; Lit (L "eslint-disable");
          Opt (Lit (L "-next")); Lit (L "-line"); Star ws;
          Grp 1 (Star rule_chars); Star ws; Eol]).

Definition TS_INLINE_IGNORE : pattern :=
  Pattern (L "^//\s*\@ts-(?:ignore)?(?:expect-error)?")
    (Cat [Bol; Lit (L "//"); Star ws; Lit (L "@ts-");
          Opt (Lit (L "ignore")); Opt (Lit (L "expect-error"))]).

Inductive IgnoreType : Type :=
| ESLINT_IGNORE_ESLINTIGNORE
| ESLINT_IGNORE_ENTIRE_FILE
| ESLINT_IGNORE_SINGLE_LINE
| TSLINT_IGNORE_SINGLE_LINE.

(** [IgnoreType.value] *)
Definition value (t : IgnoreType) : str :=
  match t with
  | ESLINT_IGNORE_ESLINTIGNORE => L "ignore from .eslintignore"
  | ESLINT_IGNORE_ENTIRE_FILE => L "eslint-ignore (entire file)"
  | ESLINT_IGNORE_SINGLE_LINE => L "eslint-ignore (single line)"
  | TSLINT_IGNORE_SINGLE_LINE => L "ts-ignore (single line)"
  end.

Definition SEARCH_IGNORE_TYPE_TUPLES : list (str * IgnoreType) :=
  [ (L "/\*\s*eslint-disable", ESLINT_IGNORE_ENTIRE_FILE);
    (L ".*//\s*eslint-disable", ESLINT_IGNORE_SINGLE_LINE);
    (L "@ts-", TSLINT_IGNORE_SINGLE_LINE) ].

(** The dataclass.  [rule] and [type] are [Optional]; [reason] is declared
    [List[str]] but [scan_eslint_ignore_file] can store [None] in it, so
    the field is modelled with Python's [None] as [None]. *)
Record Ignore : Type := mkIgnore {
  filepath : str;
  start : Z;
  end_ : Z;
  rule : option str;
  reason : option (list str);
  type_ : option IgnoreType
}.

(** [Ignore.keys] *)
Definition keys : list str :=
  [L "File"; L "Line section"; L "Type"; L "Rule"; L "Reason"].

(** The dictionary [Ignore.values] builds. *)
Record Values : Type := mkValues {
  File : str;
  Line_section : str;
  Type_ : str;
  Rule : str;
  Reason : str
}.

Definition NO_REASON : str := L "(No reason provided)".

(** The [Reason] entry of [Ignore.values]. *)
Definition reason_text (r : option (list str)) : str :=
  match r with
  | Some (a :: l) => join (L " ") (a :: l)
  | _ => NO_REASON
  end.

(** The [Rule] entry of [Ignore.values]. *)
Definition rule_text (r : option str) : str :=
  match r with
  | Some (a :: l) => a :: l
  | _ => L "NA"
  end.

(** [Ignore.values] *)
Definition values (i : Ignore) : io Values :=
  match type_ i with
  | None =>
      emit (Log ERROR (L "Invalid Ignore.type") []) ;;; exit 1
  | Some t =>
      ret {| File := filepath i;
             Line_section := str_of_Z (start i) ++ L "-" ++ str_of_Z (end_ i);
             Type_ := value t;
             Rule := rule_text (rule i);
             Reason := reason_text (reason i) |}
  end.

Definition row (v : Values) : list str :=
  [File v; Line_section v; Type_ v; Rule v; Reason v].

(** [get_reason] *)
Definition get_reason (line_number : Z) (lines : list str) : res (list str) :=
  previous_line <- getitem lines (line_number - 2) ;;
  match rematch TS_COMMENT_PATTERN previous_line with
  | Some comment_match =>
      g <- group_strip comment_match 1 ;;
      Ok ([] ++ [g])
  | None => Ok []
  end.

(** [get_ignore_type]: the first tuple whose search string occurs in the
    source text of the pattern that matched; [None] when the loop ends. *)
Definition get_ignore_type (m : rmatch) : option IgnoreType :=
  match find (fun t => contains (fst t) (source (m_re m)))
             SEARCH_IGNORE_TYPE_TUPLES with
  | Some (_, result) => Some result
  | None => None
  end.

(** The three directive patterns, first match wins. *)
Definition directive (line : str) : option rmatch :=
  match rematch ESLINT_IGNORE_ENTIRE_FILE_PATTERN line with
  | Some m => Some m
  | None =>
      match rematch ESLINT_INLINE_IGNORE_PATTERN line with
      | Some m => Some m
      | None => rematch TS_INLINE_IGNORE line
      end
  end.

(** The [try: rule = rematch.group(1).strip() except IndexError] block. *)
Definition get_rule (m : rmatch) : io (option str) :=
  match group_strip m 1 with
  | Ok r => ret (Some r)
  | Raise IndexError =>
      emit (Log DEBUG (L "Unable to retrieve rule matching group: %s")
                [L "no such group"]) ;;;
      ret None
  | Raise e => raise e
  end.

(** The scanner's state: the buffered open record and the closed ones. *)
Definition state : Type := (option Ignore * list Ignore)%type.

(** [ignores.append(ignore)] guarded by [if ignore is not None]. *)
Definition flush (st : state) : list Ignore :=
  match fst st with
  | Some i => snd st ++ [i]
  | None => snd st
  end.

(** One iteration of the [while True] loop of [find_ignores]. *)
Definition step (fp : str) (lines : list str) (x : Z * str) (st : state)
  : io state :=
  let '(line_number, line) := x in
  let line := strip line in
  match directive line with
  | Some m =>
      let ignores := flush st in
      r <~ get_rule m ;;
      why <~ lift (get_reason line_number lines) ;;
      ret (Some (mkIgnore fp line_number line_number r (Some why)
                          (get_ignore_type m)),
           ignores)
  | None =>
      match fst st with
      | Some _ => ret (None, flush st)
      | None => ret st
      end
  end.

(** The loop, until [next(gen)] raises [StopIteration]. *)
Fixpoint scan (fp : str) (lines : list str) (gen : list (Z * str))
  (st : state) : io state :=
  match gen with
  | [] => ret st
  | x :: gen' => st' <~ step fp lines x st ;; scan fp lines gen' st'
  end.

(** [find_ignores] once the file has been read. *)
Definition find_ignores_in (fp : str) (lines : list str) : io (list Ignore) :=
  st <~ scan fp lines (enumerate lines 1) (None, []) ;;
  ret (flush st).

(** [find_ignores] *)
Definition find_ignores (fs : FS) (fp : str) : io (list Ignore) :=
  lines <~ lift (readlines fs fp) ;;
  find_ignores_in fp lines.

(** [catch_bad_ignores] *)
Definition catch_bad_ignores (ignores : list Ignore) : io unit :=
  bad_ignores <~ filter_io
    (fun i => v <~ values i ;; ret (str_eqb (Reason v) NO_REASON)) ignores ;;
  match bad_ignores with
  | [] => ret tt
  | _ =>
      emit (Log ERROR
        (L "ERROR: The following ignores were detected without any reasons for justification. Please ensure that a reason is given either in the same comment line, or in comments immediately below the original ignore.")
        []) ;;;
      for_each (enumerate bad_ignores 1)
        (fun x =>
           v1 <~ values (snd x) ;;
           v2 <~ values (snd x) ;;
           emit (Log ERROR (L "%d. %s, lines %s")
                   [str_of_Z (fst x); File v1; Line_section v2])) ;;;
      exit 1
  end.

(** [export] *)
Definition export (fs : FS) (export_dir : option str) (ignores : list Ignore)
  : io unit :=
  match export_dir with
  | None =>
      for_each ignores
        (fun i =>
           v <~ values i ;;
           emit (Print (L "File: " ++ File v)) ;;;
           emit (Print (L "Lines: " ++ Line_section v)) ;;;
           emit (Print (L "Type: " ++ Type_ v)) ;;;
           emit (Print (L "Rule: " ++ Rule v)) ;;;
           emit (Print (L "Reason: " ++ Reason v)) ;;;
           emit (Print []))
  | Some dir =>
      let export_path := joinpath fs dir (L "eslint-ignores.csv") in
      emit (OpenW export_path) ;;;
      _ <~ lift (getitem ignores 0) ;;
      emit (WriteRow export_path keys) ;;;
      for_each ignores
        (fun i => v <~ values i ;; emit (WriteRow export_path (row v)))
  end.

(** The [.eslintignore] comment pattern, local to
    [scan_eslint_ignore_file]. *)
Definition comment_pattern : pattern :=
  Pattern (L "#\s*(.+)$") (Cat [Chr "#"; Star ws; Grp 1 (Plus dot); Eol]).

(** [get_reason_for_ignore_file]: the result is [None] when the function
    falls off its end without a [return]. *)
Definition get_reason_for_ignore_file (line_number : Z) (lines : list str)
  : res (option (list str)) :=
  if line_number <? 1 then Ok (Some [])
  else
    previous_line <- getitem lines (line_number - 1) ;;
    match rematch comment_pattern previous_line with
    | Some result =>
        g <- group_strip result 1 ;;
        Ok (Some [g])
    | None => Ok None
    end.

(** The body of [scan_eslint_ignore_file] once the file has been read and
    each line stripped. *)
Fixpoint scan_ignore_lines (lines : list str) (gen : list (Z * str))
  : res (list Ignore) :=
  match gen with
  | [] => Ok []
  | (line_number, line) :: gen' =>
      match rematch comment_pattern line, line with
      | Some _, _ | _, [] => scan_ignore_lines lines gen'
      | None, _ :: _ =>
          why <- get_reason_for_ignore_file line_number lines ;;
          rest <- scan_ignore_lines lines gen' ;;
          Ok (mkIgnore line (line_number + 1) (line_number + 1) None why
                       (Some ESLINT_IGNORE_ESLINTIGNORE) :: rest)
      end
  end.

(** [scan_eslint_ignore_file] *)
Definition scan_eslint_ignore_file (fs : FS) (ignore_file_path : str)
  : io (list Ignore) :=
  if negb (exists_ fs ignore_file_path) then ret []
  else
    raw <~ lift (readlines fs ignore_file_path) ;;
    let lines := map strip raw in
    lift (scan_ignore_lines lines (enumerate lines 0)).

(** The parsed command line. *)
Record Args : Type := mkArgs {
  path : str;
  eslint_ignore_path : str;
  output_dir : option str;
  file_ext : str;
  ignore_dirs : option str;
  verify : bool
}.

Definition plural (n : Z) : str := if n =? 1 then [] else L "s".

(** The [for file in paths] loop of [main]: the records and the number of
    files scanned so far. *)
Fixpoint scan_paths (fs : FS) (dirs : list str) (paths : list str)
  (acc : list Ignore * Z) : io (list Ignore * Z) :=
  match paths with
  | [] => ret acc
  | file :: paths' =>
      if existsb (fun d => is_relative_to fs file d) dirs
      then scan_paths fs dirs paths' acc
      else
        found <~ find_ignores fs file ;;
        scan_paths fs dirs paths' (fst acc ++ found, snd acc + 1)
  end.

(** [main].  From the export directory step on, [fs] is the file system
    as that step leaves it. *)
Definition main (fs : FS) (args : Args) : io unit :=
  let extensions := map strip (split "," (file_ext args)) in
  let export_dir := output_dir args in
  let dirs :=
    match ignore_dirs args with
    | Some s => map strip (split "," s)
    | None => []
    end in
  match export_dir with
   | None =>
       emit (Log WARNING
         (L "WARNING: No output directory was specified, issues will be printed in the console.") [])
   | Some _ => ret tt
   end ;;;
  fs <~ match export_dir with
         | Some d =>
             if negb (exists_ fs d) then
               emit (Log INFO (L "Creating export directory: %s")
                       [resolve fs d]) ;;;
               emit (Mkdir d) ;;;
               match mkdir fs d with
               | Some made => ret (with_dirs fs made)
               | None => raise OSError
               end
             else ret fs
         | None => ret fs
         end ;;
  (if negb (exists_ fs (path args)) then
     emit (Log ERROR (L "ERROR: Specified path '%s' does not exist")
             [resolve fs (path args)]) ;;;
     exit 1
   else ret tt) ;;;
  ignores_in_file <~ scan_eslint_ignore_file fs (eslint_ignore_path args) ;;
  acc <~ (if is_file fs (path args) then
            found <~ find_ignores fs (path args) ;;
            ret (ignores_in_file ++ found, 1)
          else
            let paths :=
              filter (fun fp => existsb (str_eqb (suffix fs fp)) extensions)
                     (glob fs (path args) "**/*") in
            scan_paths fs dirs paths (ignores_in_file, 0)) ;;
  let ignores := fst acc in
  let file_count := snd acc in
  match ignores with
   | [] => emit (Log INFO (L "INFO: No ignores detected.") []) ;;; exit 0
   | _ => ret tt
   end ;;;
  emit (Log WARNING
    (L "WARNING: %d instance%s of ignores were detected across %d file%s, please assess if they are still relevant.")
    [str_of_Z (Z.of_nat (length ignores) - Z.of_nat (length ignores_in_file));
     plural (Z.of_nat (length ignores));
     str_of_Z file_count;
     plural file_count]) ;;;
  (if verify args then catch_bad_ignores ignores else ret tt) ;;;
  export fs export_dir ignores.

End Eslint.

(* ================================================================== *)
(** ** Dialect B: [scan_pylint_ignore.py] *)

Module Pylint.
Import Py Re Out.

(** [[a-zA-Z-]] *)
Definition issue_chars (c : ascii) : bool := letter c || Ascii.eqb c "-".

Definition PYLINT_IGNORE_PATTERN : pattern :=
  Pattern
    (L ".*#\s*pylint\s*:\s*disable(?:-next)?\s*=\s*([a-zA-Z-]+)(?: (.+))?$")
    (Cat [Star dot; Chr "#"; Star ws; Lit (L "pylint"); Star ws; Chr ":";
          Star ws; Lit (L "disable"); Opt (Lit (L "-next")); Star ws;
          Chr "="; Star ws; Grp 1 (Plus issue_chars);
          Opt (Seq (Chr " ") (Grp 2 (Plus dot))); Eol]).

Definition PYTHON_COMMENT_PATTERN : pattern :=
  Pattern (L "#\s*(.+)$") (Cat [Chr "#"; Star ws; Grp 1 (Plus dot); Eol]).

(** The dataclass; [issue] receives [rematch.group(1)] as it is, which for
    a group is a string or [None]. *)
Record Ignore : Type := mkIgnore {
  filepath : str;
  start : Z;
  end_ : Z;
  issue : option str;
  reason : list str
}.

(** [Ignore.keys] *)
Definition keys : list str :=
  [L "File"; L "Line section"; L "Pylint issue"; L "Reason"].

(** The dictionary [Ignore.values] builds. *)
Record Values : Type := mkValues {
  File : str;
  Line_section : str;
  Pylint_issue : option str;
  Reason : str
}.

Definition NO_REASON : str := L "(No reason provided)".

(** The [Reason] entry of [Ignore.values]. *)
Definition reason_text (r : list str) : str :=
  match r with
  | [] => NO_REASON
  | _ => join (L " ") r
  end.

(** [Ignore.values] *)
Definition values (i : Ignore) : Values :=
  {| File := filepath i;
     Line_section := str_of_Z (start i) ++ L "-" ++ str_of_Z (end_ i);
     Pylint_issue := issue i;
     Reason := reason_text (reason i) |}.

(** A cell as [csv] and the f-strings write it: [None] is the empty cell
    in a CSV row and the text [None] in an f-string. *)
Definition cell (o : option str) : str :=
  match o with Some s => s | None => [] end.
Definition fstr (o : option str) : str :=
  match o with Some s => s | None => L "None" end.

Definition row (v : Values) : list str :=
  [File v; Line_section v; cell (Pylint_issue v); Reason v].

(** [get_reason] *)
Definition get_reason (m : rmatch) (line_number : Z) (lines : list str)
  : res (list str) :=
  previous_line <- getitem lines (line_number - 2) ;;
  reasons <- match rematch PYTHON_COMMENT_PATTERN previous_line with
             | Some comment_match =>
                 g <- group_strip comment_match 1 ;;
                 Ok ([] ++ [g])
             | None => Ok []
             end ;;
  why <- group m 2 ;;
  match why with
  | Some (a :: w) => Ok (reasons ++ [strip (a :: w)])
  | _ => Ok reasons
  end.

(** The scanner's state: the buffered open record and the closed ones. *)
Definition state : Type := (option Ignore * list Ignore)%type.

(** [ignores.append(ignore)] guarded by [if ignore is not None]. *)
Definition flush (st : state) : list Ignore :=
  match fst st with
  | Some i => snd st ++ [i]
  | None => snd st
  end.

(** One iteration of the [while True] loop of [find_ignores]. *)
Definition step (fp : str) (lines : list str) (x : Z * str) (st : state)
  : res state :=
  let '(line_number, line) := x in
  let line := strip line in
  match rematch PYLINT_IGNORE_PATTERN line with
  | Some m =>
      let ignores := flush st in
      g <- group m 1 ;;
      why <- get_reason m line_number lines ;;
      Ok (Some (mkIgnore fp line_number line_number g why), ignores)
  | None =>
      match rematch PYTHON_COMMENT_PATTERN line, fst st with
      | Some m, Some i =>
          (* the justification continues below the directive *)
          g <- group_strip m 1 ;;
          Ok (Some (mkIgnore (filepath i) (start i) line_number (issue i)
                             (reason i ++ [g])),
              snd st)
      | _, Some _ => Ok (None, flush st)
      | _, None => Ok st
      end
  end.

(** The loop, until [next(gen)] raises [StopIteration]. *)
Fixpoint scan (fp : str) (lines : list str) (gen : list (Z * str))
  (st : state) : res state :=
  match gen with
  | [] => Ok st
  | x :: gen' => st' <- step fp lines x st ;; scan fp lines gen' st'
  end.

(** [find_ignores] once the file has been read. *)
Definition find_ignores_in (fp : str) (lines : list str) : res (list Ignore) :=
  st <- scan fp lines (enumerate lines 1) (None, []) ;;
  Ok (flush st).

(** [find_ignores] *)
Definition find_ignores (fs : FS) (fp : str) : io (list Ignore) :=
  lines <~ lift (readlines fs fp) ;;
  lift (find_ignores_in fp lines).

(** [catch_bad_ignores] *)
Definition catch_bad_ignores (ignores : list Ignore) : io unit :=
  let bad_ignores :=
    filter (fun i => str_eqb (Reason (values i)) NO_REASON) ignores in
  match bad_ignores with
  | [] => ret tt
  | _ =>
      emit (Log ERROR
        (L "ERROR: The following Pylint ignores were detected without any reasons for justification. Please ensure that a reason is given either in the same comment line, or in comments immediately below the original ignore.")
        []) ;;;
      for_each (enumerate bad_ignores 1)
        (fun x =>
           emit (Log ERROR (L "%d. %s, lines %s")
                   [str_of_Z (fst x); File (values (snd x));
                    Line_section (values (snd x))])) ;;;
      exit 1
  end.

(** [export] *)
Definition export (fs : FS) (export_dir : option str) (ignores : list Ignore)
  : io unit :=
  match export_dir with
  | None =>
      for_each ignores
        (fun i =>
           let v := values i in
           emit (Print (L "File: " ++ File v ++ L ", lines "
                          ++ Line_section v)) ;;;
           emit (Print (L "Pylint issue: " ++ fstr (Pylint_issue v))) ;;;
           emit (Print (L "Reason: " ++ Reason v)) ;;;
           emit (Print []))
  | Some dir =>
      let export_path := joinpath fs dir (L "pylint-ignores.csv") in
      emit (OpenW export_path) ;;;
      _ <~ lift (getitem ignores 0) ;;
      emit (WriteRow export_path keys) ;;;
      for_each ignores
        (fun i => emit (WriteRow export_path (row (values i))))
  end.

(** The parsed command line. *)
Record Args : Type := mkArgs {
  path : str;
  output_dir : option str;
  ignore_dirs : option str;
  verify : bool
}.

Definition plural (n : Z) : str := if n =? 1 then [] else L "s".

(** The [for filepath in path.glob(...)] loop of [main]: the records and
    the number of files scanned so far. *)
Fixpoint scan_paths (fs : FS) (dirs : list str) (paths : list str)
  (acc : list Ignore * Z) : io (list Ignore * Z) :=
  match paths with
  | [] => ret acc
  | file :: paths' =>
      if existsb (fun d => is_relative_to fs file d) dirs
      then scan_paths fs dirs paths' acc
      else
        found <~ find_ignores fs file ;;
        scan_paths fs dirs paths' (fst acc ++ found, snd acc + 1)
  end.

(** [main].  From the export directory step on, [fs] is the file system
    as that step leaves it. *)
Definition main (fs : FS) (args : Args) : io unit :=
  let export_dir := output_dir args in
  let dirs :=
    match ignore_dirs args with
    | Some s => map strip (split "," s)
    | None => []
    end in
  match export_dir with
   | None =>
       emit (Log WARNING
         (L "WARNING: No output directory was specified, issues will be printed in the console.") [])
   | Some _ => ret tt
   end ;;;
  fs <~ match export_dir with
         | Some d =>
             if negb (exists_ fs d) then
               emit (Log INFO (L "Creating export directory: %s")
                       [resolve fs d]) ;;;
               emit (Mkdir d) ;;;
               match mkdir fs d with
               | Some made => ret (with_dirs fs made)
               | None => raise OSError
               end
             else ret fs
         | None => ret fs
         end ;;
  (if negb (exists_ fs (path args)) then
     emit (Log ERROR (L "ERROR: Specified path '%s' does not exist")
             [resolve fs (path args)]) ;;;
     exit 1
   else ret tt) ;;;
  acc <~ (if is_file fs (path args) then
            found <~ find_ignores fs (path args) ;;
            ret (found, 1)
          else
            scan_paths fs dirs (glob fs (path args) "**/*.py") ([], 0)) ;;
  let ignores := fst acc in
  let file_count := snd acc in
  match ignores with
   | [] => emit (Log INFO (L "INFO: No pylint ignores detected.") []) ;;; exit 0
   | _ => ret tt
   end ;;;
  emit (Log WARNING
    (L "WARNING: %d instance%s of Pylint ignores were detected across %d file%s, please assess if they are still relevant.")
    [str_of_Z (Z.of_nat (length ignores));
     plural (Z.of_nat (length ignores));
     str_of_Z file_count;
     plural file_count]) ;;;
  (if verify args then catch_bad_ignores ignores else ret tt) ;;;
  export fs export_dir ignores.

End Pylint.

(* ================================================================== *)
(** ** Vocabulary of the statements *)

Module Inv.
Import Py Re.

(** What a group can hold: [P] is true of the text of every group [i] of
    the pattern. *)
Fixpoint grp_ok (i : nat) (P : str -> Prop) (r : re) : Prop :=
  match r with
  | Seq a b | Alt a b => grp_ok i P a /\ grp_ok i P b
  | Grp j a =>
      grp_ok i P a /\
      (j = i -> forall s0 s c s1 c1,
          sem a s0 s c s1 c1 -> P (firstn (length s - length s1) s))
  | _ => True
  end.

(** A line span, [(lineStart, lineEnd)]. *)
Definition span : Type := (Z * Z)%type.

(** Spans above [lo], each well formed and each starting after the one
    before it has ended. *)
Fixpoint ordered (lo : Z) (l : list span) : Prop :=
  match l with
  | [] => True
  | (s, e) :: l' => lo < s /\ s <= e /\ ordered e l'
  end.

(** The end of the last span, [lo] when there is none. *)
Fixpoint upper (lo : Z) (l : list span) : Z :=
  match l with
  | [] => lo
  | (_, e) :: l' => upper e l'
  end.

(** The spans of a sequence of records, as the invariant of the output
    states it: every span is well formed, and a later record starts after
    an earlier one has started and after it has ended. *)
Definition increasing_disjoint (l : list span) : Prop :=
  (forall a, In a l -> fst a <= snd a) /\
  (forall i j a b, (i < j)%nat ->
      nth_error l i = Some a -> nth_error l j = Some b ->
      fst a < fst b /\ snd a < fst b).

(** A Dialect B line that continues the justification of an open record:
    not a directive, and a comment; the result is the fragment the scanner
    appends for it. *)
Definition continuation (l : str) : option str :=
  match rematch Pylint.PYLINT_IGNORE_PATTERN (strip l) with
  | Some _ => None
  | None =>
      match rematch Pylint.PYTHON_COMMENT_PATTERN (strip l) with
      | Some c => option_map strip (m_caps c 1%nat)
      | None => None
      end
  end.

(** A rule identifier: one or more letters and hyphens. *)
Definition identifier (g : str) : Prop :=
  g <> [] /\ forallb Pylint.issue_chars g = true.

(** The spans of the records of each dialect. *)
Definition spansA (l : list Eslint.Ignore) : list span :=
  map (fun i => (Eslint.start i, Eslint.end_ i)) l.

Definition spansB (l : list Pylint.Ignore) : list span :=
  map (fun i => (Pylint.start i, Pylint.end_ i)) l.

(** The invariant of the two loops before line [n]: the records seen so
    far, closed or open, are ordered and end before line [n]. *)
Definition orderedA (n : Z) (st : Eslint.state) : Prop :=
  ordered 0 (spansA (Eslint.flush st))
  /\ upper 0 (spansA (Eslint.flush st)) < n.

Definition orderedB (n : Z) (st : Pylint.state) : Prop :=
  ordered 0 (spansB (Pylint.flush st))
  /\ upper 0 (spansB (Pylint.flush st)) < n.

(** The line with number [n] (counted from 1) of a file. *)
Definition line_at (lines : list str) (n : Z) : option str :=
  if n <? 1 then None else nth_error lines (Z.to_nat (n - 1)).

End Inv.

(* ================================================================== *)
(** ** Vocabulary of the further properties *)

Module Ext.
Import Py Re Out Inv.

(** The elements of a list that [f] keeps, as [f] maps them. *)
Fixpoint pick {A B : Type} (f : A -> option B) (l : list A) : list B :=
  match l with
  | [] => []
  | a :: l' =>
      match f a with
      | Some b => b :: pick f l'
      | None => pick f l'
      end
  end.

(** The record Dialect A builds for the numbered line [x] of a file, when
    the line is a directive: it is read off the directive branch of the
    loop of [find_ignores]. *)
Definition record_at (fp : str) (lines : list str) (x : Z * str)
  : option Eslint.Ignore :=
  match Eslint.directive (strip (snd x)) with
  | Some m =>
      match snd (Eslint.get_rule m), Eslint.get_reason (fst x) lines with
      | Ok r, Ok why =>
          Some (Eslint.mkIgnore fp (fst x) (fst x) r (Some why)
                                (Eslint.get_ignore_type m))
      | _, _ => None
      end
  | None => None
  end.

(** Whether a line is a Dialect B directive. *)
Definition pylint_directive (l : str) : bool :=
  match rematch Pylint.PYLINT_IGNORE_PATTERN (strip l) with
  | Some _ => true
  | None => false
  end.

(** Whether a stripped line of an ignore list names a path: it is not
    empty and not a comment. *)
Definition names_path (l : str) : bool :=
  match rematch Eslint.comment_pattern l, l with
  | Some _, _ => false
  | None, [] => false
  | None, _ :: _ => true
  end.

(** The files of a traversal that the directory loop of [main] scans. *)
Definition scanned (fs : FS) (dirs : list str) (paths : list str)
  : list str :=
  filter (fun f => negb (existsb (fun d => is_relative_to fs f d) dirs))
         paths.

(** The fragments [get_reason] of Dialect B takes from the directive line
    itself. *)
Definition same_line (m : rmatch) : list str :=
  match m_caps m 2%nat with
  | Some (a :: w) => [strip (a :: w)]
  | _ => []
  end.

(** Whether a line is a Dialect A directive. *)
Definition eslint_directive (l : str) : bool :=
  match Eslint.directive (strip l) with
  | Some _ => true
  | None => false
  end.

(** What holds of a record of Dialect A for a file [fp] with the lines
    [lines]. *)
Definition eslint_shape (fp : str) (lines : list str) (r : Eslint.Ignore)
  : Prop :=
  Eslint.filepath r = fp
  /\ Eslint.end_ r = Eslint.start r
  /\ 1 <= Eslint.start r <= Z.of_nat (length lines)
  /\ (exists why, Eslint.reason r = Some why /\ (length why <= 1)%nat)
  /\ ((Eslint.type_ r = Some Eslint.TSLINT_IGNORE_SINGLE_LINE
       /\ Eslint.rule r = None)
      \/ ((Eslint.type_ r = Some Eslint.ESLINT_IGNORE_ENTIRE_FILE
           \/ Eslint.type_ r = Some Eslint.ESLINT_IGNORE_SINGLE_LINE)
          /\ exists s, Eslint.rule r = Some s
                       /\ forallb Eslint.rule_chars s = true)).

(** What holds of a record of Dialect B for a file [fp] with the lines
    [lines]: it starts on a directive line, the lines below its start up
    to its end continue the justification, and it has at least one
    fragment for each of them and at most two more. *)
Definition pylint_shape (fp : str) (lines : list str) (r : Pylint.Ignore)
  : Prop :=
  Pylint.filepath r = fp
  /\ 1 <= Pylint.start r <= Pylint.end_ r
  /\ Pylint.end_ r <= Z.of_nat (length lines)
  /\ Pylint.end_ r - Pylint.start r <= Z.of_nat (length (Pylint.reason r))
     <= Pylint.end_ r - Pylint.start r + 2
  /\ (exists l, line_at lines (Pylint.start r) = Some l
                /\ pylint_directive l = true)
  /\ (forall k, Pylint.start r < k <= Pylint.end_ r ->
                exists l, line_at lines k = Some l
                          /\ continuation l <> None).

(** The report part of a run. *)
Definition report {A : Type} (m : io A) : list event :=
  filter is_report (fst m).

(** Whether the export directory step of [main] calls [mkdir] and the
    call raises. *)
Definition mkdir_fails (fs : FS) (export_dir : option str) : bool :=
  match export_dir with
  | Some d =>
      negb (exists_ fs d)
      && match mkdir fs d with Some _ => false | None => true end
  | None => false
  end.

(** The file system as the export directory step of [main] leaves it,
    when the step does not raise. *)
Definition after_export_dir (fs : FS) (export_dir : option str) : FS :=
  match export_dir with
  | Some d =>
      if exists_ fs d then fs
      else match mkdir fs d with
           | Some made => with_dirs fs made
           | None => fs
           end
  | None => fs
  end.

(** The line the gate of Dialect B logs for the offending record
    [snd x], the [fst x]-th of them. *)
Definition pylint_gate_line (x : Z * Pylint.Ignore) : event :=
  Log ERROR (L "%d. %s, lines %s")
    [str_of_Z (fst x); Pylint.File (Pylint.values (snd x));
     Pylint.Line_section (Pylint.values (snd x))].

(** Whether the gate of Dialect B takes a record for an unjustified
    one. *)
Definition pylint_bad (i : Pylint.Ignore) : bool :=
  str_eqb (Pylint.Reason (Pylint.values i)) Pylint.NO_REASON.

(** What [main] of Dialect B does once the records [ignores] of
    [file_count] files are collected: the end of its body. *)
Definition pylint_after_scan (fs : FS) (args : Pylint.Args)
  (ignores : list Pylint.Ignore) (file_count : Z) : io unit :=
  match ignores with
   | [] =>
       emit (Log INFO (L "INFO: No pylint ignores detected.") []) ;;; exit 0
   | _ => ret tt
   end ;;;
  emit (Log WARNING
    (L "WARNING: %d instance%s of Pylint ignores were detected across %d file%s, please assess if they are still relevant.")
    [str_of_Z (Z.of_nat (length ignores));
     Pylint.plural (Z.of_nat (length ignores));
     str_of_Z file_count;
     Pylint.plural file_count]) ;;;
  (if Pylint.verify args then Pylint.catch_bad_ignores ignores
   else ret tt) ;;;
  Pylint.export fs (Pylint.output_dir args) ignores.

(** The four console lines of a record of Dialect B. *)
Definition pylint_console (i : Pylint.Ignore) : list event :=
  let v := Pylint.values i in
  [Print (L "File: " ++ Pylint.File v ++ L ", lines "
            ++ Pylint.Line_section v);
   Print (L "Pylint issue: " ++ Pylint.fstr (Pylint.Pylint_issue v));
   Print (L "Reason: " ++ Pylint.Reason v);
   Print []].

(** What holds of a record of the ignore-list scanner, for the stripped
    lines [lines] of the list: it is the path of one line, and its
    justification is read off the line above. *)
Definition ignore_list_shape (lines : list str) (r : Eslint.Ignore) : Prop :=
  Eslint.rule r = None
  /\ Eslint.type_ r = Some Eslint.ESLINT_IGNORE_ESLINTIGNORE
  /\ Eslint.end_ r = Eslint.start r
  /\ line_at lines (Eslint.start r) = Some (Eslint.filepath r)
  /\ names_path (Eslint.filepath r) = true
  /\ (Eslint.start r = 1 -> Eslint.reason r = Some [])
  /\ (1 < Eslint.start r ->
      exists prev,
        line_at lines (Eslint.start r - 1) = Some prev
        /\ match rematch Eslint.comment_pattern prev with
           | Some m =>
               exists g, m_caps m 1%nat = Some g
                         /\ Eslint.reason r = Some [strip g]
           | None => Eslint.reason r = None
           end).

(** The records of Dialect A for a file with the lines [lines]. *)
Definition eslint_records (fp : str) (lines : list str)
  : list Eslint.Ignore :=
  pick (record_at fp lines) (enumerate lines 1).

(** Whether the gate of Dialect A takes a record for an unjustified one. *)
Definition eslint_bad (i : Eslint.Ignore) : bool :=
  str_eqb (Eslint.reason_text (Eslint.reason i)) Eslint.NO_REASON.

(** The six console lines of a record of Dialect A; a record without a
    type is not printed. *)
Definition eslint_console (i : Eslint.Ignore) : list event :=
  match Eslint.type_ i with
  | Some t =>
      [Print (L "File: " ++ Eslint.filepath i);
       Print (L "Lines: " ++ str_of_Z (Eslint.start i) ++ L "-"
                ++ str_of_Z (Eslint.end_ i));
       Print (L "Type: " ++ Eslint.value t);
       Print (L "Rule: " ++ Eslint.rule_text (Eslint.rule i));
       Print (L "Reason: " ++ Eslint.reason_text (Eslint.reason i));
       Print []]
  | None => []
  end.

(** The line the gate of Dialect A logs for the offending record
    [snd x], the [fst x]-th of them. *)
Definition eslint_gate_line (x : Z * Eslint.Ignore) : event :=
  Log ERROR (L "%d. %s, lines %s")
    [str_of_Z (fst x); Eslint.filepath (snd x);
     str_of_Z (Eslint.start (snd x)) ++ L "-"
       ++ str_of_Z (Eslint.end_ (snd x))].

(** What [main] of Dialect A does once the records [ignores] of
    [file_count] files are collected, [ignores_in_file] of them from the
    ignore list: the end of its body. *)
Definition eslint_after_scan (fs : FS) (args : Eslint.Args)
  (ignores_in_file ignores : list Eslint.Ignore) (file_count : Z)
  : io unit :=
  match ignores with
   | [] => emit (Log INFO (L "INFO: No ignores detected.") []) ;;; exit 0
   | _ => ret tt
   end ;;;
  emit (Log WARNING
    (L "WARNING: %d instance%s of ignores were detected across %d file%s, please assess if they are still relevant.")
    [str_of_Z (Z.of_nat (length ignores)
               - Z.of_nat (length ignores_in_file));
     Eslint.plural (Z.of_nat (length ignores));
     str_of_Z file_count;
     Eslint.plural file_count]) ;;;
  (if Eslint.verify args then Eslint.catch_bad_ignores ignores
   else ret tt) ;;;
  Eslint.export fs (Eslint.output_dir args) ignores.

(** The export directory step of [main], which both scripts have: its
    result is the file system as the step leaves it. *)
Definition export_dir_step (fs : FS) (export_dir : option str) : io FS :=
  match export_dir with
  | Some d =>
      if negb (exists_ fs d) then
        emit (Log INFO (L "Creating export directory: %s")
                [resolve fs d]) ;;;
        emit (Mkdir d) ;;;
        match mkdir fs d with
        | Some made => ret (with_dirs fs made)
        | None => raise OSError
        end
      else ret fs
  | None => ret fs
  end.

(** What [main] of Dialect B does after that step, on the file system
    the step leaves. *)
Definition pylint_rest (fs : FS) (args : Pylint.Args) : io unit :=
  (if negb (exists_ fs (Pylint.path args)) then
     emit (Log ERROR (L "ERROR: Specified path '%s' does not exist")
             [resolve fs (Pylint.path args)]) ;;;
     exit 1
   else ret tt) ;;;
  acc <~ (if is_file fs (Pylint.path args) then
            found <~ Pylint.find_ignores fs (Pylint.path args) ;;
            ret (found, 1)
          else
            Pylint.scan_paths fs
              match Pylint.ignore_dirs args with
              | Some s => map strip (split "," s)
              | None => []
              end
              (glob fs (Pylint.path args) "**/*.py") ([], 0)) ;;
  pylint_after_scan fs args (fst acc) (snd acc).

(** The records and the file count [main] of Dialect A collects, after
    those of the ignore list. *)
Definition eslint_collect (fs : FS) (args : Eslint.Args)
  (ignores_in_file : list Eslint.Ignore) : io (list Eslint.Ignore * Z) :=
  if is_file fs (Eslint.path args) then
    found <~ Eslint.find_ignores fs (Eslint.path args) ;;
    ret (ignores_in_file ++ found, 1)
  else
    Eslint.scan_paths fs
      match Eslint.ignore_dirs args with
      | Some s => map strip (split "," s)
      | None => []
      end
      (filter (fun fp =>
                 existsb (str_eqb (suffix fs fp))
                         (map strip (split "," (Eslint.file_ext args))))
              (glob fs (Eslint.path args) "**/*"))
      (ignores_in_file, 0).

(** What [main] of Dialect A does after the export directory step. *)
Definition eslint_rest (fs : FS) (args : Eslint.Args) : io unit :=
  (if negb (exists_ fs (Eslint.path args)) then
     emit (Log ERROR (L "ERROR: Specified path '%s' does not exist")
             [resolve fs (Eslint.path args)]) ;;;
     exit 1
   else ret tt) ;;;
  ignores_in_file <~ Eslint.scan_eslint_ignore_file fs
                       (Eslint.eslint_ignore_path args) ;;
  acc <~ eslint_collect fs args ignores_in_file ;;
  eslint_after_scan fs args ignores_in_file (fst acc) (snd acc).

End Ext.

(* ================================================================== *)
(** ** Properties of the primitives *)

Section PyFacts.
Import Py.

Lemma getitem_in_range {A : Type} (l : list A) (i : Z) :
  - Z.of_nat (length l) <= i < Z.of_nat (length l) ->
  exists a, getitem l i = Ok a.
Proof.
  intros Hi. unfold getitem.
  set (n := Z.of_nat (length l)) in *.
  set (j := if i <? 0 then i + n else i).
  assert (Hj : 0 <= j < n).
  { subst j. destruct (Z.ltb_spec i 0); lia. }
  destruct (Z.leb_spec 0 j); [|lia].
  destruct (Z.ltb_spec j n); [|lia].
  simpl. destruct (nth_error l (Z.to_nat j)) eqn:E; eauto.
  apply nth_error_None in E. subst n. lia.
Qed.

(** A non-negative index reads the element at that position. *)
Lemma getitem_nonneg {A : Type} (l : list A) (i : Z) (a : A) :
  0 <= i -> nth_error l (Z.to_nat i) = Some a -> getitem l i = Ok a.
Proof.
  intros Hi Hn. unfold getitem.
  assert (Hlt : (Z.to_nat i < length l)%nat)
    by (apply nth_error_Some; congruence).
  destruct (Z.ltb_spec i 0); [lia|].
  destruct (Z.leb_spec 0 i); [|lia].
  destruct (Z.ltb_spec i (Z.of_nat (length l))); [|lia].
  simpl. now rewrite Hn.
Qed.

Lemma enumerate_app {A : Type} (l1 l2 : list A) (n : Z) :
  enumerate (l1 ++ l2) n
  = enumerate l1 n ++ enumerate l2 (n + Z.of_nat (length l1)).
Proof.
  revert n. induction l1 as [|a l1 IH]; intros n; simpl.
  - now rewrite Z.add_0_r.
  - rewrite IH. do 3 f_equal. lia.
Qed.

End PyFacts.

(* ================================================================== *)
(** ** Properties of the matcher *)

Section ReFacts.
Import Py Re Inv.

Lemma star_k_sound (p : ascii -> bool) (k : str -> option caps) :
  forall s r, star_k p k s = Some r ->
  exists w s1, s = w ++ s1 /\ forallb p w = true /\ k s1 = Some r.
Proof.
  induction s as [|x s IH]; intros r H; simpl in H.
  - exists [], []. auto.
  - destruct (p x) eqn:Hp.
    + destruct (star_k p k s) as [r'|] eqn:Hs.
      * inversion H; subst r'.
        destruct (IH r eq_refl) as (w & s1 & -> & Hw & Hk).
        exists (x :: w), s1. simpl. rewrite Hp, Hw. auto.
      * exists [], (x :: s). auto.
    + exists [], (x :: s). auto.
Qed.

(** Every successful run of the matcher follows the relation [sem]. *)
Lemma run_sound :
  forall r s0 s c k res, run r s0 s c k = Some res ->
  exists s1 c1, sem r s0 s c s1 c1 /\ k s1 c1 = Some res.
Proof.
  induction r as [| | |p|p|a IHa b IHb|a IHa b IHb|i a IHa];
    intros s0 s c k res H; simpl in H.
  - exists s, c. simpl. auto.
  - destruct (Nat.eqb_spec (length s) (length s0)); [|discriminate].
    exists s, c. simpl. auto.
  - destruct s as [|x [|y s]]; try discriminate.
    + exists [], c. simpl. auto.
    + destruct (Ascii.eqb_spec x nl); [|discriminate]. subst x.
      exists [nl], c. simpl. auto.
  - destruct s as [|x s]; [discriminate|].
    destruct (p x) eqn:Hp; [|discriminate].
    exists s, c. simpl. eauto.
  - apply star_k_sound in H. destruct H as (w & s1 & -> & Hw & Hk).
    exists s1, c. simpl. eauto.
  - apply IHa in H. destruct H as (s' & c' & Ha & H).
    apply IHb in H. destruct H as (s1 & c1 & Hb & H).
    exists s1, c1. simpl. eauto.
  - destruct (run a s0 s c k) as [r'|] eqn:Ha.
    + inversion H; subst r'. apply IHa in Ha.
      destruct Ha as (s1 & c1 & Ha & Hk). exists s1, c1. simpl. auto.
    + apply IHb in H. destruct H as (s1 & c1 & Hb & Hk).
      exists s1, c1. simpl. auto.
  - apply IHa in H. destruct H as (s1 & c' & Ha & Hk).
    eexists s1, _. simpl. split; [|exact Hk]. eauto.
Qed.

(** Captures are never forgotten. *)
Lemma sem_caps_mono (i : nat) :
  forall r s0 s c s1 c1, sem r s0 s c s1 c1 -> c i <> None -> c1 i <> None.
Proof.
  induction r as [| | |p|p|a IHa b IHb|a IHa b IHb|j a IHa];
    intros s0 s c s1 c1 H Hc; simpl in H.
  - destruct H as (_ & ->). exact Hc.
  - destruct H as (_ & -> & _). exact Hc.
  - destruct H as (_ & -> & _). exact Hc.
  - destruct H as (x & _ & _ & ->). exact Hc.
  - destruct H as (w & _ & _ & ->). exact Hc.
  - destruct H as (s' & c' & Ha & Hb). eauto.
  - destruct H as [H|H]; eauto.
  - destruct H as (c' & Ha & ->). unfold set_cap.
    destruct (Nat.eqb i j); [discriminate|]. eauto.
Qed.

(** A group on every path through the pattern took part in the match. *)
Lemma sem_sets (i : nat) :
  forall r s0 s c s1 c1,
    sets i r = true -> sem r s0 s c s1 c1 -> c1 i <> None.
Proof.
  induction r as [| | |p|p|a IHa b IHb|a IHa b IHb|j a IHa];
    intros s0 s c s1 c1 Hs H; simpl in Hs; try discriminate; simpl in H.
  - destruct H as (s' & c' & Ha & Hb).
    apply orb_true_iff in Hs. destruct Hs as [Hs|Hs].
    + eapply sem_caps_mono; eauto.
    + eauto.
  - apply andb_true_iff in Hs. destruct Hs as [Hs1 Hs2].
    destruct H as [H|H]; eauto.
  - destruct H as (c' & Ha & ->). unfold set_cap.
    destruct (Nat.eqb_spec i j); [discriminate|].
    simpl in Hs. eauto.
Qed.

Lemma sem_grp (i : nat) (P : str -> Prop) :
  forall r s0 s c s1 c1,
    grp_ok i P r -> sem r s0 s c s1 c1 ->
    (forall g, c i = Some g -> P g) ->
    forall g, c1 i = Some g -> P g.
Proof.
  induction r as [| | |p|p|a IHa b IHb|a IHa b IHb|j a IHa];
    intros s0 s c s1 c1 Hok H Hc; simpl in H, Hok.
  - destruct H as (_ & ->). exact Hc.
  - destruct H as (_ & -> & _). exact Hc.
  - destruct H as (_ & -> & _). exact Hc.
  - destruct H as (x & _ & _ & ->). exact Hc.
  - destruct H as (w & _ & _ & ->). exact Hc.
  - destruct H as (s' & c' & Ha & Hb). destruct Hok as [Hoa Hob]. eauto.
  - destruct Hok as [Hoa Hob]. destruct H as [H|H]; eauto.
  - destruct Hok as [Hoa Hj]. destruct H as (c' & Ha & ->).
    intros g. unfold set_cap. destruct (Nat.eqb_spec i j) as [->|Hne].
    + intros [= <-]. eapply Hj; eauto.
    + eapply IHa; eauto.
Qed.

(** A match object remembers its pattern and holds captures the pattern
    can produce. *)
Lemma rematch_sound (p : pattern) (s : str) (m : rmatch) :
  rematch p s = Some m ->
  m_re m = p /\ exists s1, sem (tree p) s s no_caps s1 (m_caps m).
Proof.
  unfold rematch. intros H.
  destruct (run (tree p) s s no_caps (fun _ c => Some c)) as [c|] eqn:E;
    [|discriminate].
  inversion H; subst m; clear H. simpl. split; [reflexivity|].
  apply run_sound in E. destruct E as (s1 & c1 & Hs & [= ->]). eauto.
Qed.

(** A group that lies on every path is a string after a match. *)
Lemma rematch_group (p : pattern) (s : str) (m : rmatch) (i : nat) :
  rematch p s = Some m -> sets i (tree p) = true ->
  exists g, m_caps m i = Some g.
Proof.
  intros H Hs. apply rematch_sound in H. destruct H as (_ & s1 & H).
  pose proof (sem_sets i _ _ _ _ _ _ Hs H) as Hn.
  destruct (m_caps m i) as [g|]; [eauto|congruence].
Qed.

Lemma group_strip_ok (p : pattern) (s : str) (m : rmatch) (i : nat) :
  rematch p s = Some m -> sets i (tree p) = true ->
  (i <= ngroups (tree p))%nat ->
  exists g, m_caps m i = Some g /\ group_strip m i = Ok (strip g).
Proof.
  intros H Hs Hn. destruct (rematch_group _ _ _ _ H Hs) as (g & Hg).
  exists g. split; [exact Hg|].
  apply rematch_sound in H. destruct H as (Hre & _).
  unfold group_strip, group. rewrite Hre.
  destruct (Nat.leb_spec i (ngroups (tree p))); [|lia].
  simpl. now rewrite Hg.
Qed.

(** A run of one or more characters of a class, as a group's text. *)
Lemma plus_text (p : ascii -> bool) (s0 s : str) (c : caps) (s1 : str)
  (c1 : caps) :
  sem (Plus p) s0 s c s1 c1 ->
  exists x w, firstn (length s - length s1) s = x :: w
              /\ p x = true /\ forallb p w = true.
Proof.
  simpl. intros (s' & c' & (x & -> & Hx & _) & (w & -> & Hw & _)).
  exists x, w. split; [|auto].
  replace (length (x :: w ++ s1) - length s1)%nat with (length (x :: w)).
  - change (x :: w ++ s1) with ((x :: w) ++ s1).
    now rewrite firstn_app, Nat.sub_diag, firstn_all, firstn_O, app_nil_r.
  - change (x :: w ++ s1) with ((x :: w) ++ s1). rewrite length_app. lia.
Qed.

End ReFacts.

(* ================================================================== *)
(** ** Ordered spans *)

Section SpanFacts.
Import Inv.

Lemma ordered_app (l1 l2 : list span) :
  forall lo, ordered lo (l1 ++ l2)
             <-> ordered lo l1 /\ ordered (upper lo l1) l2.
Proof.
  induction l1 as [|[s e] l1 IH]; intros lo; simpl.
  - tauto.
  - rewrite IH. tauto.
Qed.

Lemma upper_app (l1 l2 : list span) :
  forall lo, upper lo (l1 ++ l2) = upper (upper lo l1) l2.
Proof.
  induction l1 as [|[s e] l1 IH]; intros lo; simpl; auto.
Qed.

Lemma ordered_upper (l : list span) :
  forall lo, ordered lo l -> lo <= upper lo l.
Proof.
  induction l as [|[s e] l IH]; intros lo H; simpl in *.
  - lia.
  - destruct H as (H1 & H2 & H3). apply IH in H3. lia.
Qed.

Lemma ordered_weaken (l : list span) (lo lo' : Z) :
  lo' <= lo -> ordered lo l -> ordered lo' l.
Proof.
  destruct l as [|[s e] l]; simpl; intros; intuition lia.
Qed.

(** In an ordered list every span is well formed and lies below the end
    of the list. *)
Lemma ordered_in (l : list span) :
  forall lo s e, ordered lo l -> In (s, e) l ->
                 lo < s /\ s <= e /\ e <= upper lo l.
Proof.
  induction l as [|[s' e'] l IH]; intros lo s e H Hin; simpl in *.
  - contradiction.
  - destruct H as (H1 & H2 & H3). destruct Hin as [[= -> ->]|Hin].
    + pose proof (ordered_upper _ _ H3). lia.
    + destruct (IH _ _ _ H3 Hin) as (? & ? & ?). lia.
Qed.

(** In an ordered list a later span starts after an earlier one ends. *)
Lemma ordered_nth (l : list span) :
  forall lo i j a b, ordered lo l -> (i < j)%nat ->
    nth_error l i = Some a -> nth_error l j = Some b ->
    snd a < fst b.
Proof.
  induction l as [|[s e] l IH]; intros lo i j a b H Hij Ha Hb.
  - destruct i; discriminate.
  - simpl in H. destruct H as (H1 & H2 & H3).
    destruct j as [|j]; [lia|]. simpl in Hb.
    destruct i as [|i]; simpl in Ha.
    + inversion Ha; subst a; simpl.
      apply nth_error_In in Hb. destruct b as [sb eb].
      destruct (ordered_in _ _ _ _ H3 Hb) as (? & _). simpl. lia.
    + apply (IH e i j a b H3); [lia | exact Ha | exact Hb].
Qed.

Lemma ordered_increasing_disjoint (l : list span) (lo : Z) :
  ordered lo l -> increasing_disjoint l.
Proof.
  intros H. split.
  - intros [s e] Hin. simpl. now destruct (ordered_in _ _ _ _ H Hin).
  - intros i j a b Hij Ha Hb.
    pose proof (ordered_nth _ _ _ _ _ _ H Hij Ha Hb) as Hab.
    apply nth_error_In in Ha. destruct a as [sa ea].
    destruct (ordered_in _ _ _ _ H Ha) as (_ & Hse & _). simpl in *. lia.
Qed.

End SpanFacts.

(* ================================================================== *)
(** ** Effects: the result of a sequence *)

Section OutFacts.
Import Py Out.

(** Forgetting the events turns [io] into [res]. *)
Lemma snd_iobind {A B : Type} (m : io A) (f : A -> io B) :
  snd (iobind m f) = Py.bind (snd m) (fun a => snd (f a)).
Proof.
  destruct m as [ev [a|e]]; simpl; [|reflexivity].
  destruct (f a) as [ev' r]. reflexivity.
Qed.

Lemma fst_iobind_ok {A B : Type} (m : io A) (f : A -> io B) (a : A) :
  snd m = Ok a -> fst (iobind m f) = fst m ++ fst (f a).
Proof.
  destruct m as [ev [a'|e]]; simpl; intros [= ->].
  destruct (f a) as [ev' r]. reflexivity.
Qed.

End OutFacts.

(* ================================================================== *)
(** ** Dialect A: the scanner *)

Section EslintFacts.
Import Py Re Out Inv Eslint.

(** The match a directive line produces comes from one of the three
    patterns. *)
Lemma directive_cases (l : str) (m : rmatch) :
  directive l = Some m ->
  rematch ESLINT_IGNORE_ENTIRE_FILE_PATTERN l = Some m
  \/ rematch ESLINT_INLINE_IGNORE_PATTERN l = Some m
  \/ rematch TS_INLINE_IGNORE l = Some m.
Proof.
  unfold directive. intros H.
  destruct (rematch ESLINT_IGNORE_ENTIRE_FILE_PATTERN l); [left; exact H|].
  destruct (rematch ESLINT_INLINE_IGNORE_PATTERN l); [right; left; exact H|].
  right; right; exact H.
Qed.

(** Reading the rule never fails: the two eslint patterns always set
    group 1, the type-checker pattern has no group and takes the
    [except IndexError] branch. *)
Lemma get_rule_total (l : str) (m : rmatch) :
  directive l = Some m -> exists r, snd (get_rule m) = Ok r.
Proof.
  intros H. unfold get_rule.
  destruct (directive_cases _ _ H) as [Hm|[Hm|Hm]].
  - destruct (group_strip_ok _ _ _ 1%nat Hm) as (g & _ & ->);
      [reflexivity | vm_compute; lia | simpl; eauto].
  - destruct (group_strip_ok _ _ _ 1%nat Hm) as (g & _ & ->);
      [reflexivity | vm_compute; lia | simpl; eauto].
  - apply rematch_sound in Hm. destruct Hm as (Hre & _).
    unfold group_strip, group. rewrite Hre. simpl. eauto.
Qed.

Lemma get_reason_total (n : Z) (lines : list str) :
  1 <= n <= Z.of_nat (length lines) ->
  exists why, get_reason n lines = Ok why.
Proof.
  intros Hn. unfold get_reason.
  destruct (getitem_in_range lines (n - 2)) as (prev & ->); [lia|].
  simpl. destruct (rematch TS_COMMENT_PATTERN prev) as [m|] eqn:Hm; [|eauto].
  destruct (group_strip_ok _ _ _ 1%nat Hm) as (g & _ & ->);
    [reflexivity | vm_compute; lia | simpl; eauto].
Qed.

(** What one iteration does to the state. *)
Lemma step_spec (fp : str) (lines : list str) (n : Z) (l : str)
  (st st' : state) :
  snd (step fp lines (n, l) st) = Ok st' ->
  snd st' = flush st /\
  match directive (strip l) with
  | Some m =>
      exists r why,
        fst st' = Some (mkIgnore fp n n r (Some why) (get_ignore_type m))
        /\ snd (get_rule m) = Ok r /\ get_reason n lines = Ok why
  | None => fst st' = None
  end.
Proof.
  unfold step. destruct (directive (strip l)) as [m|].
  - rewrite snd_iobind.
    destruct (snd (get_rule m)) as [r|e] eqn:Hr; cbn [Py.bind];
      [|discriminate].
    rewrite snd_iobind. unfold lift at 1. cbn [snd].
    destruct (get_reason n lines) as [why|e] eqn:Hw; cbn [Py.bind];
      [|discriminate].
    intros [= <-]. simpl. split; [reflexivity|]. exists r, why. auto.
  - destruct st as [[i|] closed]; simpl; intros [= <-]; auto.
Qed.

Lemma step_total (fp : str) (lines : list str) (n : Z) (l : str) (st : state) :
  1 <= n <= Z.of_nat (length lines) ->
  exists st', snd (step fp lines (n, l) st) = Ok st'.
Proof.
  intros Hn. unfold step.
  destruct (directive (strip l)) as [m|] eqn:Hd.
  - destruct (get_rule_total _ _ Hd) as (r & Hr).
    destruct (get_reason_total n lines Hn) as (why & Hw).
    rewrite snd_iobind, Hr. cbn [Py.bind]. rewrite snd_iobind.
    unfold lift at 1. cbn [snd]. rewrite Hw. simpl. eauto.
  - destruct (fst st); simpl; eauto.
Qed.

Lemma scan_cons (fp : str) (lines : list str) (x : Z * str)
  (gen : list (Z * str)) (st : state) :
  snd (scan fp lines (x :: gen) st)
  = (st' <- snd (step fp lines x st) ;; snd (scan fp lines gen st')).
Proof. simpl. now rewrite snd_iobind. Qed.

Lemma scan_app (fp : str) (lines : list str) (g1 g2 : list (Z * str)) :
  forall st,
    snd (scan fp lines (g1 ++ g2) st)
    = (st' <- snd (scan fp lines g1 st) ;; snd (scan fp lines g2 st')).
Proof.
  induction g1 as [|x g1 IH]; intros st.
  - reflexivity.
  - simpl app. rewrite !scan_cons.
    destruct (snd (step fp lines x st)) as [st1|e]; simpl; auto.
Qed.

(** Scanning the rest of a file from any state returns. *)
Lemma scan_total (fp : str) (lines : list str) :
  forall ls pre st,
    lines = pre ++ ls ->
    exists st',
      snd (scan fp lines (enumerate ls (Z.of_nat (length pre) + 1)) st)
      = Ok st'.
Proof.
  induction ls as [|l ls IH]; intros pre st Hl.
  - simpl. eauto.
  - simpl enumerate. rewrite scan_cons.
    destruct (step_total fp lines (Z.of_nat (length pre) + 1) l st)
      as (st1 & ->).
    { subst lines. rewrite length_app. simpl. lia. }
    simpl.
    replace (Z.of_nat (length pre) + 1 + 1)
      with (Z.of_nat (length (pre ++ [l])) + 1)
      by (rewrite length_app; simpl; lia).
    apply IH. subst lines. now rewrite <- app_assoc.
Qed.

(** An invariant of the iterations is an invariant of the loop. *)
Lemma scan_invariant (fp : str) (lines : list str)
  (I : Z -> state -> Prop) :
  (forall n l st st',
      line_at lines n = Some l -> I n st ->
      snd (step fp lines (n, l) st) = Ok st' -> I (n + 1) st') ->
  forall ls pre st st',
    lines = pre ++ ls ->
    I (Z.of_nat (length pre) + 1) st ->
    snd (scan fp lines (enumerate ls (Z.of_nat (length pre) + 1)) st)
    = Ok st' ->
    I (Z.of_nat (length lines) + 1) st'.
Proof.
  intros Hstep. induction ls as [|l ls IH]; intros pre st st' Hl HI Hs.
  - simpl in Hs. inversion Hs; subst st'. subst lines.
    now rewrite app_nil_r.
  - simpl enumerate in Hs. rewrite scan_cons in Hs.
    destruct (snd (step fp lines (Z.of_nat (length pre) + 1, l) st))
      as [st1|e] eqn:E; simpl in Hs; [|discriminate].
    replace (Z.of_nat (length pre) + 1 + 1)
      with (Z.of_nat (length (pre ++ [l])) + 1) in Hs
      by (rewrite length_app; simpl; lia).
    apply (IH (pre ++ [l]) st1 st').
    + subst lines. now rewrite <- app_assoc.
    + replace (Z.of_nat (length (pre ++ [l])) + 1)
        with (Z.of_nat (length pre) + 1 + 1)
        by (rewrite length_app; simpl; lia).
      apply (Hstep _ l st); auto.
      unfold line_at. destruct (Z.ltb_spec (Z.of_nat (length pre) + 1) 1);
        [lia|].
      replace (Z.to_nat (Z.of_nat (length pre) + 1 - 1)) with (length pre)
        by lia.
      subst lines. now rewrite nth_error_app2, Nat.sub_diag by lia.
    + exact Hs.
Qed.

Lemma flush_closed (i : option Ignore) (closed : list Ignore) :
  flush (i, flush (None, closed)) = flush (i, closed).
Proof. reflexivity. Qed.

Lemma step_orderedA (fp : str) (lines : list str) (n : Z) (l : str)
  (st st' : state) :
  orderedA n st -> snd (step fp lines (n, l) st) = Ok st' ->
  orderedA (n + 1) st'.
Proof.
  intros [Ho Hu] Hs. apply step_spec in Hs. destruct Hs as [Hc Hd].
  destruct st' as [o closed]. simpl in Hc, Hd. subst closed.
  unfold orderedA.
  destruct (directive (strip l)) as [m|].
  - destruct Hd as (r & why & -> & _).
    unfold flush at 1 3. simpl fst. simpl snd. unfold spansA.
    rewrite map_app, ordered_app, upper_app. simpl.
    fold (spansA (flush st)). repeat split; auto; lia.
  - subst o. unfold flush at 1 3. simpl. split; [auto|lia].
Qed.

End EslintFacts.

Section EslintScan.
Import Py Re Out Inv Eslint.

Lemma find_ignores_in_snd (fp : str) (lines : list str) :
  snd (find_ignores_in fp lines)
  = (st <- snd (scan fp lines (enumerate lines 1) (None, [])) ;;
     Ok (flush st)).
Proof. unfold find_ignores_in. now rewrite snd_iobind. Qed.

(** The loop over a whole file returns, in a state whose records are
    ordered. *)
Lemma scan_file_A (fp : str) (lines : list str) :
  exists st,
    snd (scan fp lines (enumerate lines 1) (None, [])) = Ok st
    /\ orderedA (Z.of_nat (length lines) + 1) st.
Proof.
  destruct (scan_total fp lines lines [] (None, []) eq_refl) as (st & Hs).
  exists st. split; [exact Hs|].
  apply (scan_invariant fp lines orderedA) with (ls := lines) (pre := [])
                                                (st := (None, [])); auto.
  - intros n l s s' _ Ho Hstep. eapply step_orderedA; eauto.
  - unfold orderedA, flush. simpl. lia.
Qed.

(** The open record is not among the closed ones. *)
Lemma open_not_closed_A (n : Z) (r : Ignore) (closed : list Ignore) :
  orderedA n (Some r, closed) -> ~ In r closed.
Proof.
  unfold orderedA, flush, spansA. simpl. rewrite map_app, ordered_app.
  simpl. intros [[Ho (Hlt & Hle & _)] _] Hin.
  apply (in_map (fun i => (start i, end_ i))) in Hin.
  destruct (ordered_in _ _ _ _ Ho Hin) as (_ & _ & Hup). lia.
Qed.

(** Records that are in the output, or buffered, stay. *)
Lemma step_keeps_A (fp : str) (lines : list str) (x : Z * str)
  (st st' : state) (i : Ignore) :
  snd (step fp lines x st) = Ok st' -> In i (flush st) -> In i (flush st').
Proof.
  destruct x as [n l]. intros Hs Hin. apply step_spec in Hs.
  destruct Hs as [Hc _]. destruct st' as [[o|] closed]; simpl in Hc;
    subst closed; unfold flush at 1; simpl; auto.
  apply in_or_app. auto.
Qed.

Lemma scan_keeps_A (fp : str) (lines : list str) (gen : list (Z * str)) :
  forall st st' i,
    snd (scan fp lines gen st) = Ok st' ->
    In i (flush st) -> In i (flush st').
Proof.
  induction gen as [|x gen IH]; intros st st' i Hs Hin.
  - simpl in Hs. now inversion Hs; subst.
  - rewrite scan_cons in Hs.
    destruct (snd (step fp lines x st)) as [st1|e] eqn:E; simpl in Hs;
      [|discriminate].
    eapply IH; eauto. eapply step_keeps_A; eauto.
Qed.

(** The scan of a file, cut at one of its lines. *)
Lemma scan_split_A (fp : str) (pre : list str) (l : str) (post : list str) :
  let lines := pre ++ l :: post in
  let n := Z.of_nat (length pre) + 1 in
  exists st1 st2 st3,
    snd (scan fp lines (enumerate pre 1) (None, [])) = Ok st1
    /\ snd (step fp lines (n, l) st1) = Ok st2
    /\ snd (scan fp lines (enumerate post (n + 1)) st2) = Ok st3
    /\ snd (find_ignores_in fp lines) = Ok (flush st3).
Proof.
  intros lines n.
  destruct (scan_file_A fp lines) as (st3 & Hs & _).
  assert (Hfind : snd (find_ignores_in fp lines) = Ok (flush st3))
    by (rewrite find_ignores_in_snd, Hs; reflexivity).
  unfold lines in Hs at 2. rewrite enumerate_app, scan_app in Hs.
  destruct (snd (scan fp lines (enumerate pre 1) (None, []))) as [st1|e]
    eqn:E1; cbn [Py.bind] in Hs; [|discriminate].
  cbn [enumerate] in Hs. rewrite scan_cons in Hs.
  replace (1 + Z.of_nat (length pre)) with n in Hs by (unfold n; lia).
  destruct (snd (step fp lines (n, l) st1)) as [st2|e] eqn:E2;
    cbn [Py.bind] in Hs; [|discriminate].
  exists st1, st2, st3. repeat split; assumption || reflexivity.
Qed.

End EslintScan.

(* ================================================================== *)
(** ** Dialect B: the scanner *)

Section PylintFacts.
Import Py Re Out Inv Pylint.

(** Group 1 of the directive pattern is an identifier. *)
Lemma pylint_group1 (s : str) (m : rmatch) :
  rematch PYLINT_IGNORE_PATTERN s = Some m ->
  exists g, m_caps m 1%nat = Some g /\ identifier g.
Proof.
  intros H. destruct (rematch_group _ _ _ 1%nat H eq_refl) as (g & Hg).
  exists g. split; [exact Hg|].
  apply rematch_sound in H. destruct H as (_ & s1 & H).
  apply (sem_grp 1%nat identifier _ _ _ _ _ _) with (g := g) in H; auto.
  - cbn -[sem identifier].
    repeat match goal with
           | |- _ /\ _ => split
           | |- True => exact I
           end; try discriminate.
    intros _ u0 u c0 u1 c1 Hp. apply plus_text in Hp.
    destruct Hp as (x & w & -> & Hx & Hw). split; [discriminate|].
    simpl. now rewrite Hx, Hw.
  - discriminate.
Qed.

Lemma comment_group1 (s : str) (c : rmatch) :
  rematch PYTHON_COMMENT_PATTERN s = Some c ->
  exists g, m_caps c 1%nat = Some g /\ group_strip c 1 = Ok (strip g).
Proof.
  intros H. apply (group_strip_ok _ _ _ 1%nat H); [reflexivity|].
  vm_compute. lia.
Qed.

Lemma get_reason_total_B (s : str) (m : rmatch) (n : Z) (lines : list str) :
  rematch PYLINT_IGNORE_PATTERN s = Some m ->
  1 <= n <= Z.of_nat (length lines) ->
  exists why, get_reason m n lines = Ok why.
Proof.
  intros Hm Hn. unfold get_reason.
  destruct (getitem_in_range lines (n - 2)) as (prev & ->); [lia|].
  cbn [Py.bind].
  assert (Hc : exists reasons,
             match rematch PYTHON_COMMENT_PATTERN prev with
             | Some comment_match =>
                 g <- group_strip comment_match 1 ;; Ok ([] ++ [g])
             | None => Ok []
             end = Ok reasons).
  { destruct (rematch PYTHON_COMMENT_PATTERN prev) as [c|] eqn:Hc; [|eauto].
    destruct (comment_group1 _ _ Hc) as (g & _ & ->). simpl. eauto. }
  destruct Hc as (reasons & ->). cbn [Py.bind].
  apply rematch_sound in Hm. destruct Hm as (Hre & _).
  unfold group. rewrite Hre. simpl.
  destruct (m_caps m 2%nat) as [[|a w]|]; eauto.
Qed.

(** What one iteration does to the state. *)
Lemma step_spec_B (fp : str) (lines : list str) (n : Z) (l : str)
  (st st' : state) :
  step fp lines (n, l) st = Ok st' ->
  match rematch PYLINT_IGNORE_PATTERN (strip l) with
  | Some m =>
      exists why,
        get_reason m n lines = Ok why
        /\ st' = (Some (mkIgnore fp n n (m_caps m 1%nat) why), flush st)
  | None =>
      match fst st with
      | Some i =>
          match continuation l with
          | Some g =>
              st' = (Some (mkIgnore (filepath i) (start i) n (issue i)
                                    (reason i ++ [g])), snd st)
          | None => st' = (None, flush st)
          end
      | None => st' = st
      end
  end.
Proof.
  unfold step, continuation.
  destruct (rematch PYLINT_IGNORE_PATTERN (strip l)) as [m|] eqn:Hm.
  - apply rematch_sound in Hm. destruct Hm as (Hre & _).
    unfold group. rewrite Hre. simpl.
    destruct (get_reason m n lines) as [why|e]; simpl; [|discriminate].
    intros [= <-]. eauto.
  - destruct (rematch PYTHON_COMMENT_PATTERN (strip l)) as [c|] eqn:Hc.
    + destruct (fst st) as [i|]; [|now intros [= <-]].
      destruct (comment_group1 _ _ Hc) as (g & -> & ->). simpl.
      now intros [= <-].
    + destruct (fst st) as [i|]; now intros [= <-].
Qed.

Lemma step_total_B (fp : str) (lines : list str) (n : Z) (l : str)
  (st : state) :
  1 <= n <= Z.of_nat (length lines) ->
  exists st', step fp lines (n, l) st = Ok st'.
Proof.
  intros Hn. unfold step.
  destruct (rematch PYLINT_IGNORE_PATTERN (strip l)) as [m|] eqn:Hm.
  - destruct (get_reason_total_B _ _ n lines Hm Hn) as (why & Hw).
    apply rematch_sound in Hm. destruct Hm as (Hre & _).
    unfold group. rewrite Hre. simpl. rewrite Hw. simpl. eauto.
  - destruct (rematch PYTHON_COMMENT_PATTERN (strip l)) as [c|] eqn:Hc.
    + destruct (fst st) as [i|]; [|eauto].
      destruct (comment_group1 _ _ Hc) as (g & _ & ->). simpl. eauto.
    + destruct (fst st) as [i|]; eauto.
Qed.

Lemma scan_app_B (fp : str) (lines : list str) (g1 g2 : list (Z * str)) :
  forall st,
    scan fp lines (g1 ++ g2) st
    = (st' <- scan fp lines g1 st ;; scan fp lines g2 st').
Proof.
  induction g1 as [|x g1 IH]; intros st.
  - reflexivity.
  - simpl. destruct (step fp lines x st) as [st1|e]; simpl; auto.
Qed.

(** Scanning the rest of a file from any state returns. *)
Lemma scan_total_B (fp : str) (lines : list str) :
  forall ls pre st,
    lines = pre ++ ls ->
    exists st',
      scan fp lines (enumerate ls (Z.of_nat (length pre) + 1)) st = Ok st'.
Proof.
  induction ls as [|l ls IH]; intros pre st Hl.
  - simpl. eauto.
  - cbn [enumerate scan].
    destruct (step_total_B fp lines (Z.of_nat (length pre) + 1) l st)
      as (st1 & ->).
    { subst lines. rewrite length_app. simpl. lia. }
    cbn [Py.bind].
    replace (Z.of_nat (length pre) + 1 + 1)
      with (Z.of_nat (length (pre ++ [l])) + 1)
      by (rewrite length_app; simpl; lia).
    apply IH. subst lines. now rewrite <- app_assoc.
Qed.

(** An invariant of the iterations is an invariant of the loop. *)
Lemma scan_invariant_B (fp : str) (lines : list str)
  (I : Z -> state -> Prop) :
  (forall n l st st',
      line_at lines n = Some l -> I n st ->
      step fp lines (n, l) st = Ok st' -> I (n + 1) st') ->
  forall ls pre st st',
    lines = pre ++ ls ->
    I (Z.of_nat (length pre) + 1) st ->
    scan fp lines (enumerate ls (Z.of_nat (length pre) + 1)) st = Ok st' ->
    I (Z.of_nat (length lines) + 1) st'.
Proof.
  intros Hstep. induction ls as [|l ls IH]; intros pre st st' Hl HI Hs.
  - simpl in Hs. inversion Hs; subst st'. subst lines.
    now rewrite app_nil_r.
  - cbn [enumerate scan] in Hs.
    destruct (step fp lines (Z.of_nat (length pre) + 1, l) st)
      as [st1|e] eqn:E; cbn [Py.bind] in Hs; [|discriminate].
    replace (Z.of_nat (length pre) + 1 + 1)
      with (Z.of_nat (length (pre ++ [l])) + 1) in Hs
      by (rewrite length_app; simpl; lia).
    apply (IH (pre ++ [l]) st1 st').
    + subst lines. now rewrite <- app_assoc.
    + replace (Z.of_nat (length (pre ++ [l])) + 1)
        with (Z.of_nat (length pre) + 1 + 1)
        by (rewrite length_app; simpl; lia).
      apply (Hstep _ l st); auto.
      unfold line_at. destruct (Z.ltb_spec (Z.of_nat (length pre) + 1) 1);
        [lia|].
      replace (Z.to_nat (Z.of_nat (length pre) + 1 - 1)) with (length pre)
        by lia.
      subst lines. now rewrite nth_error_app2, Nat.sub_diag by lia.
    + exact Hs.
Qed.

Lemma step_orderedB (fp : str) (lines : list str) (n : Z) (l : str)
  (st st' : state) :
  orderedB n st -> step fp lines (n, l) st = Ok st' ->
  orderedB (n + 1) st'.
Proof.
  intros [Ho Hu] Hs. apply step_spec_B in Hs. unfold orderedB.
  destruct (rematch PYLINT_IGNORE_PATTERN (strip l)) as [m|].
  - destruct Hs as (why & _ & ->).
    unfold flush at 1 3. cbn [fst snd]. unfold spansB.
    rewrite map_app, ordered_app, upper_app. simpl.
    fold (spansB (flush st)). repeat split; auto; lia.
  - destruct st as [[i|] closed]; cbn [fst snd] in Hs.
    + destruct (continuation l) as [g|]; subst st'.
      * revert Ho Hu. unfold flush, spansB. cbn [fst snd].
        rewrite !map_app, !ordered_app, !upper_app. simpl.
        intros (Hc & Hlt & Hle & _) Hu. repeat split; auto; lia.
      * unfold flush at 1 3. cbn [fst snd]. split; [auto|lia].
    + subst st'. split; [auto|lia].
Qed.

(** The loop over a whole file returns, in a state whose records are
    ordered. *)
Lemma scan_file_B (fp : str) (lines : list str) :
  exists st,
    scan fp lines (enumerate lines 1) (None, []) = Ok st
    /\ orderedB (Z.of_nat (length lines) + 1) st.
Proof.
  destruct (scan_total_B fp lines lines [] (None, []) eq_refl) as (st & Hs).
  exists st. split; [exact Hs|].
  apply (scan_invariant_B fp lines orderedB) with (ls := lines) (pre := [])
                                                  (st := (None, [])); auto.
  - intros n l s s' _ Ho Hstep. eapply step_orderedB; eauto.
  - unfold orderedB, flush. simpl. lia.
Qed.

(** The open record is not among the closed ones. *)
Lemma open_not_closed_B (n : Z) (r : Ignore) (closed : list Ignore) :
  orderedB n (Some r, closed) -> ~ In r closed.
Proof.
  unfold orderedB, flush, spansB. simpl. rewrite map_app, ordered_app.
  simpl. intros [[Ho (Hlt & Hle & _)] _] Hin.
  apply (in_map (fun i => (start i, end_ i))) in Hin.
  destruct (ordered_in _ _ _ _ Ho Hin) as (_ & _ & Hup). lia.
Qed.

End PylintFacts.

Section PylintScan.
Import Py Re Out Inv Pylint.

Lemma in_closed_flush (st : state) (x : Ignore) :
  In x (snd st) -> In x (flush st).
Proof.
  destruct st as [[i|] closed]; unfold flush; simpl; auto.
  intros H. apply in_or_app. auto.
Qed.

(** A closed record stays closed, as it is. *)
Lemma step_keeps_closed_B (fp : str) (lines : list str) (x : Z * str)
  (st st' : state) (r : Ignore) :
  step fp lines x st = Ok st' -> In r (snd st) -> In r (snd st').
Proof.
  destruct x as [n l]. intros Hs Hin. apply step_spec_B in Hs.
  destruct (rematch PYLINT_IGNORE_PATTERN (strip l)) as [m|].
  - destruct Hs as (why & _ & ->). simpl. now apply in_closed_flush.
  - destruct (fst st) as [i|] eqn:Hi.
    + destruct (continuation l); subst st'; simpl; auto.
      apply in_closed_flush. exact Hin.
    + now subst st'.
Qed.

Lemma scan_keeps_closed_B (fp : str) (lines : list str)
  (gen : list (Z * str)) :
  forall st st' r,
    scan fp lines gen st = Ok st' -> In r (snd st) -> In r (snd st').
Proof.
  induction gen as [|x gen IH]; intros st st' r Hs Hin.
  - simpl in Hs. now inversion Hs; subst.
  - simpl in Hs. destruct (step fp lines x st) as [st1|e] eqn:E;
      simpl in Hs; [|discriminate].
    eapply IH; eauto. eapply step_keeps_closed_B; eauto.
Qed.

(** A comment line below an open record extends it. *)
Lemma step_continuation (fp : str) (lines : list str) (k : Z) (c g : str)
  (i : Ignore) (closed : list Ignore) :
  continuation c = Some g ->
  step fp lines (k, c) (Some i, closed)
  = Ok (Some (mkIgnore (filepath i) (start i) k (issue i) (reason i ++ [g])),
        closed).
Proof.
  unfold continuation, step.
  destruct (rematch PYLINT_IGNORE_PATTERN (strip c)); [discriminate|].
  destruct (rematch PYTHON_COMMENT_PATTERN (strip c)) as [cm|] eqn:Hc;
    [|discriminate].
  destruct (comment_group1 _ _ Hc) as (g0 & -> & ->). simpl.
  now intros [= <-].
Qed.

(** [N] comment lines below an open record extend it by [N] lines and
    append their fragments in the order of the lines. *)
Lemma scan_continuations (fp : str) (lines : list str) :
  forall cs frags k i closed,
    map continuation cs = map Some frags ->
    end_ i = k - 1 ->
    scan fp lines (enumerate cs k) (Some i, closed)
    = Ok (Some (mkIgnore (filepath i) (start i)
                         (k - 1 + Z.of_nat (length cs)) (issue i)
                         (reason i ++ frags)),
          closed).
Proof.
  induction cs as [|c cs IH]; intros frags k i closed Hf He.
  - destruct frags; [|discriminate]. simpl.
    rewrite Z.add_0_r, app_nil_r, <- He. now destruct i.
  - destruct frags as [|g frags]; [discriminate|].
    simpl in Hf. injection Hf as Hc Hf.
    cbn [enumerate scan]. rewrite (step_continuation _ _ _ _ _ _ _ Hc).
    cbn [Py.bind]. rewrite (IH frags (k + 1)); auto; [|simpl; lia].
    simpl filepath. simpl start. simpl issue. simpl reason.
    rewrite <- app_assoc. simpl app.
    do 3 f_equal. f_equal. cbn [length]. lia.
Qed.

(** A line that does not continue the justification closes the record. *)
Lemma step_closes (fp : str) (lines : list str) (k : Z) (p : str)
  (i : Ignore) (closed : list Ignore) (st' : state) :
  continuation p = None ->
  step fp lines (k, p) (Some i, closed) = Ok st' ->
  In i (snd st').
Proof.
  intros Hp Hs. apply step_spec_B in Hs.
  destruct (rematch PYLINT_IGNORE_PATTERN (strip p)) as [m|].
  - destruct Hs as (why & _ & ->). unfold flush. simpl.
    apply in_or_app. simpl. auto.
  - cbn [fst] in Hs. rewrite Hp in Hs. subst st'. unfold flush. simpl.
    apply in_or_app. simpl. auto.
Qed.

Lemma find_ignores_in_B (fp : str) (lines : list str) (st : state) :
  scan fp lines (enumerate lines 1) (None, []) = Ok st ->
  find_ignores_in fp lines = Ok (flush st).
Proof. unfold find_ignores_in. now intros ->. Qed.

(** The scan of a file, cut at one of its lines. *)
Lemma scan_split_B (fp : str) (pre : list str) (l : str) (post : list str) :
  let lines := pre ++ l :: post in
  let n := Z.of_nat (length pre) + 1 in
  exists st1 st2 st3,
    scan fp lines (enumerate pre 1) (None, []) = Ok st1
    /\ step fp lines (n, l) st1 = Ok st2
    /\ scan fp lines (enumerate post (n + 1)) st2 = Ok st3
    /\ find_ignores_in fp lines = Ok (flush st3)
    /\ orderedB (Z.of_nat (length lines) + 1) st3.
Proof.
  intros lines n.
  destruct (scan_file_B fp lines) as (st3 & Hs & Ho).
  pose proof (find_ignores_in_B _ _ _ Hs) as Hfind.
  unfold lines in Hs at 2. rewrite enumerate_app, scan_app_B in Hs.
  destruct (scan fp lines (enumerate pre 1) (None, [])) as [st1|e]
    eqn:E1; cbn [Py.bind] in Hs; [|discriminate].
  cbn [enumerate scan] in Hs.
  replace (1 + Z.of_nat (length pre)) with n in Hs by (unfold n; lia).
  destruct (step fp lines (n, l) st1) as [st2|e] eqn:E2;
    cbn [Py.bind] in Hs; [|discriminate].
  exists st1, st2, st3. tauto.
Qed.

(** A property of records that holds of every record a directive line
    opens, and that extending a record keeps, holds of all records. *)
Lemma step_forall_B (Q : Ignore -> Prop) (fp : str) (lines : list str)
  (n : Z) (l : str) (st st' : state) :
  (forall m why, rematch PYLINT_IGNORE_PATTERN (strip l) = Some m ->
                 Q (mkIgnore fp n n (m_caps m 1%nat) why)) ->
  (forall i e w, Q i -> Q (mkIgnore (filepath i) (start i) e (issue i) w)) ->
  step fp lines (n, l) st = Ok st' ->
  (forall r, In r (flush st) -> Q r) ->
  forall r, In r (flush st') -> Q r.
Proof.
  intros Hnew Hext Hs HQ r. apply step_spec_B in Hs.
  destruct (rematch PYLINT_IGNORE_PATTERN (strip l)) as [m|].
  - destruct Hs as (why & _ & ->). unfold flush at 1. cbn [fst snd].
    intros Hin. apply in_app_or in Hin. destruct Hin as [Hin|[<-|[]]]; auto.
  - destruct st as [[i|] closed]; cbn [fst snd] in Hs.
    + destruct (continuation l) as [g|]; subst st'.
      * unfold flush at 1. cbn [fst snd]. intros Hin.
        apply in_app_or in Hin. destruct Hin as [Hin|[<-|[]]].
        -- apply HQ. unfold flush. simpl. apply in_or_app. auto.
        -- apply Hext. apply HQ. unfold flush. simpl. apply in_or_app.
           simpl. auto.
      * unfold flush at 1. cbn [fst snd]. apply HQ.
    + subst st'. apply HQ.
Qed.

Lemma find_forall_B (Q : Ignore -> Prop) (fp : str) (lines : list str) :
  (forall n l m why,
      line_at lines n = Some l ->
      rematch PYLINT_IGNORE_PATTERN (strip l) = Some m ->
      Q (mkIgnore fp n n (m_caps m 1%nat) why)) ->
  (forall i e w, Q i -> Q (mkIgnore (filepath i) (start i) e (issue i) w)) ->
  exists out, find_ignores_in fp lines = Ok out /\ forall r, In r out -> Q r.
Proof.
  intros Hnew Hext.
  destruct (scan_file_B fp lines) as (st & Hs & _).
  exists (flush st). split; [now apply find_ignores_in_B|].
  apply (scan_invariant_B fp lines
           (fun _ s => forall r, In r (flush s) -> Q r))
    with (ls := lines) (pre := []) (st := (None, [])); auto.
  - intros n l s s' Hl HQ Hstep. eapply step_forall_B; eauto.
  - intros r [].
Qed.

End PylintScan.

(* ================================================================== *)
(** ** The scanners' output *)

Section Scanners.
Import Py Re Out Inv.

(** C10.  For both dialect scanners the scan of a file returns, and the
    spans of the records it returns are increasing and disjoint: every
    record has [start <= end_], and a record that comes later in the
    output starts after an earlier one has started and after it has
    ended. *)
Theorem output_spans_increasing_disjoint (fp : str) (lines : list str) :
  (exists out,
      snd (Eslint.find_ignores_in fp lines) = Ok out
      /\ increasing_disjoint (spansA out))
  /\ (exists out,
         Pylint.find_ignores_in fp lines = Ok out
         /\ increasing_disjoint (spansB out)).
Proof.
  split.
  - destruct (scan_file_A fp lines) as (st & Hs & Ho & _).
    exists (Eslint.flush st). split.
    + rewrite find_ignores_in_snd, Hs. reflexivity.
    + eapply ordered_increasing_disjoint; eauto.
  - destruct (scan_file_B fp lines) as (st & Hs & Ho & _).
    exists (Pylint.flush st). split.
    + now apply find_ignores_in_B.
    + eapply ordered_increasing_disjoint; eauto.
Qed.

(** C8.  For both dialect scanners the loop over a file ends in a state
    [st]; the output is the closed records of [st] followed by the record
    still open in [st], if there is one.  That record is not among the
    closed ones, so it is in the output exactly once; when no record is
    open the output is the closed records. *)
Theorem open_record_closed_once_at_eof (fp : str) (lines : list str) :
  (exists st,
      snd (Eslint.scan fp lines (enumerate lines 1) (None, [])) = Ok st
      /\ snd (Eslint.find_ignores_in fp lines) = Ok (Eslint.flush st)
      /\ (forall r, fst st = Some r ->
                    Eslint.flush st = snd st ++ [r] /\ ~ In r (snd st))
      /\ (fst st = None -> Eslint.flush st = snd st))
  /\ (exists st,
         Pylint.scan fp lines (enumerate lines 1) (None, []) = Ok st
         /\ Pylint.find_ignores_in fp lines = Ok (Pylint.flush st)
         /\ (forall r, fst st = Some r ->
                       Pylint.flush st = snd st ++ [r] /\ ~ In r (snd st))
         /\ (fst st = None -> Pylint.flush st = snd st)).
Proof.
  split.
  - destruct (scan_file_A fp lines) as (st & Hs & Ho).
    exists st. split; [exact Hs|]. split.
    { rewrite find_ignores_in_snd, Hs. reflexivity. }
    destruct st as [o closed]. split.
    + intros r Hr. simpl in Hr. subst o. split; [reflexivity|].
      eapply open_not_closed_A; eauto.
    + simpl. intros ->. reflexivity.
  - destruct (scan_file_B fp lines) as (st & Hs & Ho).
    exists st. split; [exact Hs|]. split.
    { now apply find_ignores_in_B. }
    destruct st as [o closed]. split.
    + intros r Hr. simpl in Hr. subst o. split; [reflexivity|].
      eapply open_not_closed_B; eauto.
    + simpl. intros ->. reflexivity.
Qed.

(** C9.  The Dialect B scan of a file returns, and every record it returns
    carries a rule identifier: a non-empty string of letters and hyphens.
    No record has an absent or empty rule; a hash directive with an empty
    rule argument does not match the directive pattern. *)
Theorem pylint_records_carry_identifier (fp : str) (lines : list str) :
  (exists out,
      Pylint.find_ignores_in fp lines = Ok out
      /\ forall r, In r out ->
                   exists g, Pylint.issue r = Some g /\ identifier g)
  /\ rematch Pylint.PYLINT_IGNORE_PATTERN (L "# pylint: disable=") = None
  /\ rematch Pylint.PYLINT_IGNORE_PATTERN (L "x = 1  # pylint: disable=")
     = None.
Proof.
  split; [|split; reflexivity].
  apply (find_forall_B
           (fun r => exists g, Pylint.issue r = Some g /\ identifier g)).
  - intros n l m why _ Hm. simpl. now apply pylint_group1 in Hm.
  - intros i e w Hi. exact Hi.
Qed.

(** C7, as the code has it.  In Dialect B, a directive on line [n]
    followed by the [N] lines [cs], each of which matches the comment
    pattern (a hash and some text) and is not a directive, and then by
    the end of the file or by a line that is not such a comment, gives the
    record with [start = n], [end_ = n + N] and, as justification, the
    fragments collected on the directive line followed by the fragments
    of the [N] lines in the order of the file.  It is the only record of
    the output that starts within these lines. *)
Theorem pylint_continuation_block (fp : str) (pre : list str) (d : str)
  (cs post : list str) (m : rmatch) (frags : list str) :
  let lines := pre ++ d :: cs ++ post in
  let n := Z.of_nat (length pre) + 1 in
  let N := Z.of_nat (length cs) in
  rematch Pylint.PYLINT_IGNORE_PATTERN (strip d) = Some m ->
  map continuation cs = map Some frags ->
  match post with [] => True | p :: _ => continuation p = None end ->
  exists out why,
    Pylint.find_ignores_in fp lines = Ok out
    /\ Pylint.get_reason m n lines = Ok why
    /\ In (Pylint.mkIgnore fp n (n + N) (m_caps m 1%nat) (why ++ frags)) out
    /\ forall r, In r out -> n <= Pylint.start r <= n + N ->
                 r = Pylint.mkIgnore fp n (n + N) (m_caps m 1%nat)
                                     (why ++ frags).
Proof.
  intros lines n N Hm Hcs Hpost.
  destruct (scan_split_B fp pre d (cs ++ post))
    as (st1 & st2 & st3 & _ & H2 & H3 & Hfind & Ho & _).
  fold lines in H2, H3, Hfind. fold n in H2, H3.
  apply step_spec_B in H2. rewrite Hm in H2. destruct H2 as (why & Hw & ->).
  rewrite enumerate_app, scan_app_B in H3.
  rewrite (scan_continuations fp lines cs frags (n + 1)) in H3;
    [|exact Hcs|simpl; lia].
  cbn [Py.bind Pylint.filepath Pylint.start Pylint.issue Pylint.reason] in H3.
  replace (n + 1 - 1 + Z.of_nat (length cs)) with (n + N) in H3
    by (unfold N; lia).
  set (r0 := Pylint.mkIgnore fp n (n + N) (m_caps m 1%nat) (why ++ frags))
    in *.
  assert (Hin : In r0 (Pylint.flush st3)).
  { destruct post as [|p post].
    - simpl in H3. inversion H3; subst st3. unfold Pylint.flush. simpl.
      apply in_or_app. simpl. auto.
    - cbn [enumerate Pylint.scan] in H3.
      destruct (Pylint.step fp lines (n + 1 + Z.of_nat (length cs), p)
                  (Some r0, Pylint.flush st1)) as [st'|e] eqn:E;
        cbn [Py.bind] in H3; [|discriminate].
      apply in_closed_flush.
      eapply scan_keeps_closed_B; [exact H3|].
      eapply step_closes; eauto. }
  exists (Pylint.flush st3), why. repeat split; auto.
  intros r Hr Hn.
  apply ordered_increasing_disjoint in Ho. destruct Ho as [_ Hd].
  destruct (In_nth_error _ _ Hin) as (i & Hi).
  destruct (In_nth_error _ _ Hr) as (j & Hj).
  pose proof (map_nth_error (fun x => (Pylint.start x, Pylint.end_ x))
                _ _ Hi) as Hi'.
  pose proof (map_nth_error (fun x => (Pylint.start x, Pylint.end_ x))
                _ _ Hj) as Hj'.
  destruct (Nat.lt_trichotomy i j) as [Hlt|[Heq|Hgt]].
  - destruct (Hd _ _ _ _ Hlt Hi' Hj') as [_ Hx]. simpl in Hx. lia.
  - subst j. rewrite Hi in Hj. now inversion Hj.
  - destruct (Hd _ _ _ _ Hgt Hj' Hi') as [Hx _]. simpl in Hx. lia.
Qed.

End Scanners.

(* ================================================================== *)
(** ** Closing the open record, and the rule of a directive *)

Section Directives.
Import Py Re Out Inv.

Lemma line_at_middle (pre : list str) (l : str) (post : list str) :
  line_at (pre ++ l :: post) (Z.of_nat (length pre) + 1) = Some l.
Proof.
  unfold line_at. destruct (Z.ltb_spec (Z.of_nat (length pre) + 1) 1); [lia|].
  replace (Z.to_nat (Z.of_nat (length pre) + 1 - 1)) with (length pre) by lia.
  now rewrite nth_error_app2, Nat.sub_diag by lia.
Qed.

(** What the records seen so far are is kept by an iteration, and by the
    loop: the output only grows at its end. *)
Lemma step_extends_A (fp : str) (lines : list str) (x : Z * str)
  (st st' : Eslint.state) :
  snd (Eslint.step fp lines x st) = Ok st' ->
  Eslint.flush st'
  = Eslint.flush st ++ match fst st' with Some i => [i] | None => [] end.
Proof.
  destruct x as [n l]. intros Hs. apply step_spec in Hs.
  destruct Hs as [Hc _]. destruct st' as [[o|] c]; simpl in Hc; subst c;
    unfold Eslint.flush at 1; simpl; now rewrite ?app_nil_r.
Qed.

Lemma scan_extends_A (fp : str) (lines : list str) (gen : list (Z * str)) :
  forall st st',
    snd (Eslint.scan fp lines gen st) = Ok st' ->
    exists rest, Eslint.flush st' = Eslint.flush st ++ rest.
Proof.
  induction gen as [|x gen IH]; intros st st' Hs.
  - simpl in Hs. inversion Hs; subst. exists []. now rewrite app_nil_r.
  - rewrite scan_cons in Hs.
    destruct (snd (Eslint.step fp lines x st)) as [st1|e] eqn:E;
      cbn [Py.bind] in Hs; [|discriminate].
    destruct (IH _ _ Hs) as (rest & ->).
    rewrite (step_extends_A _ _ _ _ _ E), <- app_assoc. eauto.
Qed.

(** C3, as the code has it.  In Dialect A the record that is open after
    a line is closed by whatever comes next.  A next line that matches
    no directive pattern closes it and leaves no record open, whether or
    not that line is a comment; a next line that is a directive closes
    it and opens the record of that line; and when the lines end the
    record is closed.  In each case the record is in the output right
    after the records closed before it. *)
Theorem eslint_non_directive_closes (fp : str) (pre : list str) (l : str)
  (post : list str) (r : Eslint.Ignore) (closed : list Eslint.Ignore) :
  let lines := pre ++ l :: post in
  let n := Z.of_nat (length pre) + 1 in
  (snd (Eslint.scan fp lines (enumerate pre 1) (None, []))
   = Ok (Some r, closed) ->
   (Eslint.directive (strip l) = None ->
    Eslint.step fp lines (n, l) (Some r, closed)
    = ret (None, closed ++ [r]))
   /\ (forall m, Eslint.directive (strip l) = Some m ->
         exists r',
           snd (Eslint.step fp lines (n, l) (Some r, closed))
           = Ok (Some r', closed ++ [r])
           /\ Eslint.start r' = n /\ Eslint.end_ r' = n)
   /\ exists rest,
        snd (Eslint.find_ignores_in fp lines) = Ok (closed ++ r :: rest))
  /\ (snd (Eslint.scan fp pre (enumerate pre 1) (None, []))
      = Ok (Some r, closed) ->
      snd (Eslint.find_ignores_in fp pre) = Ok (closed ++ [r])).
Proof.
  intros lines n. split.
  - intros Hs.
    destruct (scan_split_A fp pre l post)
      as (st1 & st2 & st3 & H1 & H2 & H3 & Hfind).
    fold lines in H1, H2, H3, Hfind. fold n in H2, H3.
    rewrite Hs in H1. injection H1 as <-.
    pose proof (step_spec _ _ _ _ _ _ H2) as [Hc Hd].
    unfold Eslint.flush in Hc. cbn [fst snd] in Hc.
    split; [|split].
    + intros Hn. unfold Eslint.step. rewrite Hn. reflexivity.
    + intros m Hm. rewrite Hm in Hd.
      destruct Hd as (rl & why & Ho & _).
      exists (Eslint.mkIgnore fp n n rl (Some why)
                (Eslint.get_ignore_type m)).
      split; [|split; reflexivity].
      rewrite H2. destruct st2 as [o c]. cbn [fst snd] in Hc, Ho.
      now subst.
    + destruct (scan_extends_A _ _ _ _ _ H3) as (rest & Hr).
      rewrite (step_extends_A _ _ _ _ _ H2) in Hr.
      unfold Eslint.flush at 2 in Hr. cbn [fst snd] in Hr.
      rewrite Hfind, Hr, <- !app_assoc. cbn [app]. eauto.
  - intros Hs. rewrite find_ignores_in_snd, Hs. reflexivity.
Qed.

(** A text that holds a character once can be cut at it in one way. *)
Lemma split_unique {A : Type} (c : A) (x r a r0 : list A) :
  x ++ c :: r = a ++ c :: r0 -> ~ In c a -> ~ In c r0 ->
  x = a /\ r = r0.
Proof.
  revert a. induction x as [|x0 x IH]; intros [|a0 a] H Ha Hr;
    cbn [app] in H.
  - now injection H as ->.
  - injection H as <- _. exfalso. apply Ha. now left.
  - injection H as -> <-. exfalso. apply Hr. apply in_or_app.
    right. now left.
  - injection H as <- H. destruct (IH a H) as [-> ->]; auto.
    intros Hin. apply Ha. now right.
Qed.

(** What a pattern leaves is the end of what it was given. *)
Lemma sem_suffix :
  forall r s0 s c s1 c1, sem r s0 s c s1 c1 -> exists u, s = u ++ s1.
Proof.
  induction r as [| | |p|p|a IHa b IHb|a IHa b IHb|i a IHa];
    intros s0 s c s1 c1 H; simpl in H.
  - destruct H as (-> & _). now exists [].
  - destruct H as (-> & _). now exists [].
  - destruct H as (-> & _). now exists [].
  - destruct H as (x & -> & _). now exists [x].
  - destruct H as (w & -> & _). now exists w.
  - destruct H as (s' & c' & Ha & Hb).
    destruct (IHa _ _ _ _ _ Ha) as (u & ->).
    destruct (IHb _ _ _ _ _ Hb) as (v & ->).
    exists (u ++ v). now rewrite app_assoc.
  - destruct H as [H|H]; eauto.
  - destruct H as (c' & Ha & _). eauto.
Qed.

(** A match of the directive pattern of Dialect B cuts the line at a
    hash and, after it, at an equals sign that something follows. *)
Lemma pylint_match_cut (s : str) (m : rmatch) :
  rematch Pylint.PYLINT_IGNORE_PATTERN s = Some m ->
  exists x y q, s = x ++ "#"%char :: y ++ "="%char :: q /\ q <> [].
Proof.
  intros H. apply rematch_sound in H. destruct H as (_ & s1 & H).
  cbn [tree Pylint.PYLINT_IGNORE_PATTERN Cat] in H.
  assert (Hseq : forall a b s0 s c s1 c1,
             sem (Seq a b) s0 s c s1 c1 ->
             exists s' c', sem a s0 s c s' c' /\ sem b s0 s' c' s1 c1)
    by (intros a b s0 s' c s1' c1 Hs; exact Hs).
  assert (Hchr : forall x s0 s c s1 c1,
             sem (Chr x) s0 s c s1 c1 -> s = x :: s1).
  { intros x0 s0 s' c s1' c1 (h & -> & Hh & _).
    apply Ascii.eqb_eq in Hh. now subst. }
  apply Hseq in H. destruct H as (t0 & c0 & H0 & H). apply sem_suffix in H0.
  apply Hseq in H. destruct H as (t1 & c1 & H1 & H). apply Hchr in H1.
  apply Hseq in H. destruct H as (t2 & c2 & H2 & H). apply sem_suffix in H2.
  apply Hseq in H. destruct H as (t3 & c3 & H3 & H). apply sem_suffix in H3.
  apply Hseq in H. destruct H as (t4 & c4 & H4 & H). apply sem_suffix in H4.
  apply Hseq in H. destruct H as (t5 & c5 & H5 & H). apply sem_suffix in H5.
  apply Hseq in H. destruct H as (t6 & c6 & H6 & H). apply sem_suffix in H6.
  apply Hseq in H. destruct H as (t7 & c7 & H7 & H). apply sem_suffix in H7.
  apply Hseq in H. destruct H as (t8 & c8 & H8 & H). apply sem_suffix in H8.
  apply Hseq in H. destruct H as (t9 & c9 & H9 & H). apply sem_suffix in H9.
  apply Hseq in H. destruct H as (t10 & c10 & H10 & H). apply Hchr in H10.
  apply Hseq in H. destruct H as (t11 & c11 & H11 & H).
  apply sem_suffix in H11.
  apply Hseq in H. destruct H as (t12 & c12 & H12 & _).
  assert (Hg : t11 <> []).
  { cbn [Plus sem] in H12.
    destruct H12 as (c' & (t13 & c13 & (g & -> & _) & _) & _).
    discriminate. }
  destruct H0 as (x & ->). subst t0.
  destruct H2 as (u2 & ->). destruct H3 as (u3 & ->).
  destruct H4 as (u4 & ->). destruct H5 as (u5 & ->).
  destruct H6 as (u6 & ->). destruct H7 as (u7 & ->).
  destruct H8 as (u8 & ->). destruct H9 as (u9 & ->). subst t9.
  destruct H11 as (w & ->).
  exists x, (u2 ++ u3 ++ u4 ++ u5 ++ u6 ++ u7 ++ u8 ++ u9), (w ++ t11).
  split; [now rewrite <- !app_assoc|].
  intros E. apply app_eq_nil in E. destruct E as [_ E]. now apply Hg.
Qed.

(** White space holds neither a hash nor an equals sign. *)
Lemma ws_plain (w : str) (c : ascii) :
  forallb ws w = true -> ws c = false -> ~ In c w.
Proof.
  intros Hw Hc Hin. rewrite forallb_forall in Hw.
  specialize (Hw c Hin). congruence.
Qed.

(** A hash directive of Dialect B whose rule list is empty does not
    match the directive pattern: the pattern asks for a rule. *)
Lemma pylint_empty_rule_no_match (a w1 w2 w3 nx w4 : str) :
  ~ In "#"%char a ->
  forallb ws w1 = true -> forallb ws w2 = true ->
  forallb ws w3 = true -> forallb ws w4 = true ->
  nx = [] \/ nx = L "-next" ->
  rematch Pylint.PYLINT_IGNORE_PATTERN
    (a ++ L "#" ++ w1 ++ L "pylint" ++ w2 ++ L ":" ++ w3 ++ L "disable"
       ++ nx ++ w4 ++ L "=") = None.
Proof.
  intros Ha H1 H2 H3 H4 Hnx.
  destruct (rematch _ _) as [m|] eqn:E; [|reflexivity]. exfalso.
  apply pylint_match_cut in E. destruct E as (x & y & q & E & Hq).
  set (body := w1 ++ L "pylint" ++ w2 ++ L ":" ++ w3 ++ L "disable"
                  ++ nx ++ w4) in *.
  assert (Hb : forall c, ws c = false ->
                         ~ In c (L "pylint:disable-next") -> ~ In c body).
  { intros c Hc Hl Hin. unfold body in Hin.
    repeat (apply in_app_or in Hin; destruct Hin as [Hin|Hin]);
      try (now apply (ws_plain _ c) in Hin);
      try (apply Hl; vm_compute in Hin |- *; tauto).
    destruct Hnx as [-> | ->]; [destruct Hin|].
    apply Hl. vm_compute in Hin |- *. tauto. }
  assert (Hh : ~ In "#"%char body)
    by (apply Hb; [reflexivity|vm_compute; intuition discriminate]).
  assert (He : ~ In "="%char body)
    by (apply Hb; [reflexivity|vm_compute; intuition discriminate]).
  change (a ++ L "#" ++ w1 ++ L "pylint" ++ w2 ++ L ":" ++ w3
            ++ L "disable" ++ nx ++ w4 ++ L "=")
    with (a ++ "#"%char :: (w1 ++ L "pylint" ++ w2 ++ L ":" ++ w3
                              ++ L "disable" ++ nx ++ w4 ++ L "=")) in E.
  replace (w1 ++ L "pylint" ++ w2 ++ L ":" ++ w3 ++ L "disable" ++ nx
              ++ w4 ++ L "=")
    with (body ++ "="%char :: []) in E
    by (unfold body; now rewrite <- !app_assoc).
  symmetry in E. apply split_unique in E; [|exact Ha|].
  - destruct E as [_ E]. apply split_unique in E; [|exact He|intros []].
    destruct E as [_ E]. now apply Hq.
  - intros Hin. apply in_app_or in Hin. destruct Hin as [Hin|Hin];
      [now apply Hh|]. destruct Hin as [Hin|[]]. discriminate.
Qed.

(** C6, as the code has it.  In Dialect A a directive whose rule list is
    empty gives a record whose rule is the empty string, which is written
    [NA] in the report as an absent rule is.  In Dialect B a hash
    directive whose rule list is empty, after code or on its own, with
    or without [-next] and with any white space between its words, is
    not a directive: no record starts on its line. *)
Theorem empty_rule_list (fp : str) (pre : list str) (l : str)
  (post : list str) :
  (forall m g,
      Eslint.directive (strip l) = Some m ->
      group m 1 = Ok (Some g) -> strip g = [] ->
      exists out r,
        snd (Eslint.find_ignores_in fp (pre ++ l :: post)) = Ok out
        /\ In r out
        /\ Eslint.start r = Z.of_nat (length pre) + 1
        /\ Eslint.rule r = Some []
        /\ Eslint.rule_text (Eslint.rule r) = L "NA")
  /\ (forall a w1 w2 w3 nx w4,
         strip l = a ++ L "#" ++ w1 ++ L "pylint" ++ w2 ++ L ":" ++ w3
                     ++ L "disable" ++ nx ++ w4 ++ L "=" ->
         ~ In "#"%char a ->
         forallb ws (w1 ++ w2 ++ w3 ++ w4) = true ->
         nx = [] \/ nx = L "-next" ->
         rematch Pylint.PYLINT_IGNORE_PATTERN (strip l) = None
         /\ exists out,
              Pylint.find_ignores_in fp (pre ++ l :: post) = Ok out
              /\ forall r, In r out ->
                           Pylint.start r <> Z.of_nat (length pre) + 1).
Proof.
  split.
  - intros m g Hd Hg Hs.
    destruct (scan_split_A fp pre l post)
      as (st1 & st2 & st3 & _ & H2 & H3 & Hfind).
    apply step_spec in H2. rewrite Hd in H2.
    destruct H2 as (Hc & r & why & Hopen & Hr & _).
    assert (r = Some []) as ->.
    { revert Hr. unfold Eslint.get_rule, group_strip. rewrite Hg. simpl.
      rewrite Hs. now intros [= <-]. }
    eexists _, _. split; [exact Hfind|]. split.
    + eapply scan_keeps_A; [exact H3|].
      destruct st2 as [o c2]. simpl in Hopen. subst o.
      unfold Eslint.flush. simpl. apply in_or_app. simpl. auto.
    + simpl. auto.
  - intros a w1 w2 w3 nx w4 Hl Ha Hw Hnx.
    rewrite !forallb_app in Hw.
    apply andb_true_iff in Hw. destruct Hw as [Hw1 Hw].
    apply andb_true_iff in Hw. destruct Hw as [Hw2 Hw].
    apply andb_true_iff in Hw. destruct Hw as [Hw3 Hw4].
    assert (Hno : rematch Pylint.PYLINT_IGNORE_PATTERN (strip l) = None)
      by (rewrite Hl; now apply pylint_empty_rule_no_match).
    split; [exact Hno|].
    destruct (find_forall_B
                (fun r => exists l',
                     line_at (pre ++ l :: post) (Pylint.start r) = Some l'
                     /\ rematch Pylint.PYLINT_IGNORE_PATTERN (strip l')
                        <> None)
                fp (pre ++ l :: post)) as (out & Hout & HQ).
    + intros n l' m why Hn Hm. exists l'. simpl. split; [exact Hn|].
      congruence.
    + intros i e w Hi. exact Hi.
    + exists out. split; [exact Hout|]. intros r Hr Hstart.
      destruct (HQ r Hr) as (l' & Hl' & Hm).
      rewrite Hstart, line_at_middle in Hl'. injection Hl' as <-.
      apply Hm. exact Hno.
Qed.

End Directives.

(* ================================================================== *)
(** ** The scripts on concrete files *)

Section Runs.
Import Py Re Out Inv.

(** C7 on a file: of the three comment-only lines below the directive of
    line 2, the second is a hash without text; it does not match the
    comment pattern and closes the record, which ends on line 3 and not
    on line 5. *)
Lemma bare_hash_line_ends_the_block :
  let cs := [line "# the name is part of"; line "#";
             line "# the legacy API"] in
  Forall (fun c => prefix (L "#") (strip c) = true
                   /\ rematch Pylint.PYLINT_IGNORE_PATTERN (strip c) = None)
         cs
  /\ Pylint.find_ignores_in (L "a.py")
       ([line "import os"]
          ++ line "x = f()  # pylint: disable=invalid-name" :: cs)
     = Ok [Pylint.mkIgnore (L "a.py") 2 3 (Some (L "invalid-name"))
             [L "the name is part of"]]
  /\ 3 <> 2 + Z.of_nat (length cs).
Proof.
  intros cs. split.
  - repeat constructor; vm_compute; reflexivity.
  - split; [vm_compute; reflexivity | vm_compute; discriminate].
Qed.

(** C7 on a file: a directive on line 2 and two comment lines below it. *)
Lemma pylint_continuation_block_witness :
  let fp := L "a.py" in
  let pre := [line "import os"] in
  let d := line "x = f()  # pylint: disable=invalid-name" in
  let cs := [line "# f is part of the legacy API";
             line "# and cannot be renamed"] in
  let post := [line "y = 2"] in
  let frags := [L "f is part of the legacy API"; L "and cannot be renamed"] in
  exists m,
    rematch Pylint.PYLINT_IGNORE_PATTERN (strip d) = Some m
    /\ map continuation cs = map Some frags
    /\ continuation (line "y = 2") = None
    /\ exists out why,
        Pylint.find_ignores_in fp (pre ++ d :: cs ++ post) = Ok out
        /\ In (Pylint.mkIgnore fp 2 4 (m_caps m 1%nat) (why ++ frags)) out.
Proof.
  intros fp pre d cs post frags.
  destruct (rematch Pylint.PYLINT_IGNORE_PATTERN (strip d)) as [m|] eqn:E;
    [|vm_compute in E; discriminate].
  exists m. split; [reflexivity|].
  assert (Hcs : map continuation cs = map Some frags)
    by (vm_compute; reflexivity).
  assert (Hp : continuation (line "y = 2") = None)
    by (vm_compute; reflexivity).
  split; [exact Hcs|]. split; [exact Hp|].
  destruct (pylint_continuation_block fp pre d cs post m frags E Hcs Hp)
    as (out & why & Hout & _ & Hin & _).
  exists out, why. split; [exact Hout | exact Hin].
Defined.

(** C3 on a file: the comment line below a directive is not a directive,
    is a comment, and closes the record the directive opened. *)
Lemma eslint_comment_line_closes_record :
  let fp := L "a.ts" in
  let l1 := line "// eslint-disable-next-line no-console" in
  let l2 := line "// the next line logs on purpose" in
  let lines := [l1; l2; line "console.log(1);"] in
  exists r,
    snd (Eslint.scan fp lines (enumerate [l1] 1) (None, [])) = Ok (Some r, [])
    /\ Eslint.directive (strip l2) = None
    /\ rematch Eslint.TS_COMMENT_PATTERN (strip l2) <> None
    /\ snd (Eslint.step fp lines (2, l2) (Some r, [])) = Ok (None, [r])
    /\ snd (Eslint.step fp lines (2, l2) (Some r, [])) <> Ok (Some r, []).
Proof.
  intros fp l1 l2 lines. eexists.
  split; [vm_compute; reflexivity|].
  split; [vm_compute; reflexivity|].
  split; [vm_compute; discriminate|].
  split; [vm_compute; reflexivity|].
  vm_compute. discriminate.
Qed.

(** C3, as the code has it, on a file: the record the directive of
    line 1 opens is closed by the comment line below it. *)
Lemma eslint_non_directive_closes_witness :
  let fp := L "a.ts" in
  let l1 := line "// eslint-disable-next-line no-console" in
  let l2 := line "// the next line logs on purpose" in
  let l3 := line "console.log(1);" in
  let r := Eslint.mkIgnore fp 1 1 (Some (L "no-console")) (Some [])
             (Some Eslint.ESLINT_IGNORE_SINGLE_LINE) in
  Eslint.directive (strip l2) = None
  /\ Eslint.step fp [l1; l2; l3] (2, l2) (Some r, []) = ret (None, [r])
  /\ exists rest,
       snd (Eslint.find_ignores_in fp [l1; l2; l3]) = Ok (r :: rest).
Proof.
  intros fp l1 l2 l3 r.
  assert (Hd : Eslint.directive (strip l2) = None)
    by (vm_compute; reflexivity).
  assert (Hs : snd (Eslint.scan fp ([l1] ++ l2 :: [l3])
                      (enumerate [l1] 1) (None, []))
               = Ok (Some r, [])) by (vm_compute; reflexivity).
  destruct (proj1 (eslint_non_directive_closes fp [l1] l2 [l3] r []) Hs)
    as (Hn & _ & Hout).
  split; [exact Hd|]. split; [exact (Hn Hd) | exact Hout].
Defined.

(** C6 on files: the bare [/* eslint-disable */] gives a record whose rule
    is the empty string and not [None]; the file that holds only
    [# pylint: disable=] gives no record. *)
Lemma bare_disable_rule_is_not_none :
  (exists r,
      snd (Eslint.find_ignores_in (L "a.ts") [line "/* eslint-disable */"])
      = Ok [r]
      /\ Eslint.rule r = Some []
      /\ Eslint.rule r <> None)
  /\ Pylint.find_ignores_in (L "a.py") [line "# pylint: disable="] = Ok [].
Proof.
  split.
  - eexists. split; [vm_compute; reflexivity|].
    split; [reflexivity | discriminate].
  - vm_compute. reflexivity.
Qed.

(** C6, as the code has it, on two files: one holds the bare
    [/* eslint-disable */] on its second line, the other a trailing
    [# pylint:disable-next =] after code. *)
Lemma empty_rule_list_witness :
  (exists out r,
      snd (Eslint.find_ignores_in (L "a.ts")
             ([line "import x from 'x';"] ++ line "/* eslint-disable */"
                :: [line "x();"])) = Ok out
      /\ In r out
      /\ Eslint.start r = 2
      /\ Eslint.rule r = Some []
      /\ Eslint.rule_text (Eslint.rule r) = L "NA")
  /\ (exists out,
         Pylint.find_ignores_in (L "a.py")
           ([line "import os"] ++ line "x = f()  # pylint:disable-next ="
              :: [line "y = 1"]) = Ok out
         /\ forall r, In r out -> Pylint.start r <> 2).
Proof.
  split.
  - eapply (proj1 (empty_rule_list (L "a.ts") [line "import x from 'x';"]
                     (line "/* eslint-disable */") [line "x();"])).
    + vm_compute. reflexivity.
    + vm_compute. reflexivity.
    + reflexivity.
  - apply (proj2 (empty_rule_list (L "a.py") [line "import os"]
                    (line "x = f()  # pylint:disable-next =")
                    [line "y = 1"])
             (L "x = f()  ") (L " ") [] [] (L "-next") (L " ")).
    + vm_compute. reflexivity.
    + vm_compute. intuition discriminate.
    + reflexivity.
    + right. reflexivity.
Defined.

(** C8 on files: a directive on the last line is still open when the
    lines are exhausted, and is in the output once. *)
Example eof_closes_open_record :
  let rA := Eslint.mkIgnore (L "a.ts") 2 2 None (Some [])
              (Some Eslint.TSLINT_IGNORE_SINGLE_LINE) in
  let rB := Pylint.mkIgnore (L "a.py") 2 2 (Some (L "invalid-name")) [] in
  (snd (Eslint.scan (L "a.ts") [line "let x;"; line "// @ts-ignore"]
          (enumerate [line "let x;"; line "// @ts-ignore"] 1) (None, []))
   = Ok (Some rA, [])
   /\ snd (Eslint.find_ignores_in (L "a.ts")
             [line "let x;"; line "// @ts-ignore"]) = Ok [rA])
  /\ (Pylint.scan (L "a.py")
        [line "y = 1"; line "x = f()  # pylint: disable=invalid-name"]
        (enumerate
           [line "y = 1"; line "x = f()  # pylint: disable=invalid-name"] 1)
        (None, [])
      = Ok (Some rB, [])
      /\ Pylint.find_ignores_in (L "a.py")
           [line "y = 1"; line "x = f()  # pylint: disable=invalid-name"]
         = Ok [rB]).
Proof. intros rA rB. repeat split; vm_compute; reflexivity. Qed.

(** C2 on files: a directive on line 1 takes the text of the last line of
    the file as its preceding-line fragment, in both dialects. *)
Theorem first_line_directive_reads_last_line :
  snd (Eslint.find_ignores_in (L "a.ts")
         [line "// eslint-disable-next-line no-console";
          line "console.log(1);";
          line "// end of module"])
  = Ok [Eslint.mkIgnore (L "a.ts") 1 1 (Some (L "no-console"))
          (Some [L "end of module"])
          (Some Eslint.ESLINT_IGNORE_SINGLE_LINE)]
  /\ Pylint.find_ignores_in (L "a.py")
       [line "import os  # pylint: disable=unused-import";
        line "x = 1";
        line "# end of module"]
     = Ok [Pylint.mkIgnore (L "a.py") 1 1 (Some (L "unused-import"))
             [L "end of module"]].
Proof. split; vm_compute; reflexivity. Qed.

(** C4 on a file: in an ignore list of two paths, the second record, whose
    preceding line is a path and not a comment, has [None] as its
    justification and not the empty list; the first, which has no
    preceding line, has the empty list. *)
Theorem ignore_list_reason_is_none :
  snd (Eslint.scan_eslint_ignore_file
         (one_file (L ".eslintignore") [line "dist"; line "build"])
         (L ".eslintignore"))
  = Ok [Eslint.mkIgnore (L "dist") 1 1 None (Some [])
          (Some Eslint.ESLINT_IGNORE_ESLINTIGNORE);
        Eslint.mkIgnore (L "build") 2 2 None None
          (Some Eslint.ESLINT_IGNORE_ESLINTIGNORE)].
Proof. vm_compute. reflexivity. Qed.

(** C5 on a file: a directive justified by the comment
    [# (No reason provided)] gives a record whose justification is not
    empty, and the gate reports it and exits with status 1. *)
Theorem gate_rejects_justified_record :
  let r := Pylint.mkIgnore (L "a.py") 2 2 (Some (L "unused-import"))
             [L "(No reason provided)"] in
  Pylint.find_ignores_in (L "a.py")
    [line "# (No reason provided)";
     line "import os  # pylint: disable=unused-import"] = Ok [r]
  /\ Pylint.reason r <> []
  /\ Pylint.catch_bad_ignores [r]
     = ([Log ERROR
           (L "ERROR: The following Pylint ignores were detected without any reasons for justification. Please ensure that a reason is given either in the same comment line, or in comments immediately below the original ignore.")
           [];
         Log ERROR (L "%d. %s, lines %s") [L "1"; L "a.py"; L "2-2"]],
        Raise (SystemExit 1)).
Proof.
  intros r. split; [vm_compute; reflexivity|].
  split; [discriminate | vm_compute; reflexivity].
Qed.

(** C1 on a file: with [--verify], no output directory and one record
    that has a justification, [main] returns (exit status 0) after it has
    printed the report on the console. *)
Theorem verify_mode_still_emits_report :
  let fs := one_file (L "a.py")
              [line "# needed by the plugin loader";
               line "import os  # pylint: disable=unused-import"] in
  let run := Pylint.main fs (Pylint.mkArgs (L "a.py") None None true) in
  let fsA := one_file (L "a.ts")
               [line "// logging required for audit";
                line "// eslint-disable-next-line no-console"] in
  let runA := Eslint.main fsA
                (Eslint.mkArgs (L "a.ts") (L ".eslintignore") None
                   (L ".mjs,.js,.ts,.jsx,.tsx") (Some (L "node_modules"))
                   true) in
  (exit_code run = Some 0
   /\ filter is_report (fst run)
      = [Print (L "File: a.py, lines 2-2");
         Print (L "Pylint issue: unused-import");
         Print (L "Reason: needed by the plugin loader");
         Print []])
  /\ (exit_code runA = Some 0
      /\ filter is_report (fst runA)
         = [Print (L "File: a.ts");
            Print (L "Lines: 2-2");
            Print (L "Type: eslint-ignore (single line)");
            Print (L "Rule: no-console");
            Print (L "Reason: logging required for audit");
            Print []]).
Proof. intros fs run fsA runA. repeat split; vm_compute; reflexivity. Qed.

End Runs.

(* ================================================================== *)
(** ** Further properties of the scanners *)

Section ScannerShape.
Import Py Re Out Inv Ext.

Lemma pick_app {A B : Type} (f : A -> option B) (l1 l2 : list A) :
  pick f (l1 ++ l2) = pick f l1 ++ pick f l2.
Proof.
  induction l1 as [|a l1 IH]; simpl; [reflexivity|].
  destruct (f a); simpl; now rewrite IH.
Qed.

Lemma flush_app_A (o : option Eslint.Ignore) (closed : list Eslint.Ignore) :
  Eslint.flush (o, closed)
  = closed ++ match o with Some r => [r] | None => [] end.
Proof. destruct o; unfold Eslint.flush; simpl; now rewrite ?app_nil_r. Qed.

(** One iteration adds the record of its line, if the line has one. *)
Lemma step_pick_A (fp : str) (lines : list str) (x : Z * str)
  (st st' : Eslint.state) :
  snd (Eslint.step fp lines x st) = Ok st' ->
  Eslint.flush st'
  = Eslint.flush st ++ pick (record_at fp lines) [x].
Proof.
  destruct x as [n l]. intros Hs. apply step_spec in Hs.
  destruct Hs as [Hc Hd]. destruct st' as [o closed]. simpl in Hc, Hd.
  subst closed. rewrite flush_app_A. unfold record_at. simpl.
  destruct (Eslint.directive (strip l)) as [m|].
  - destruct Hd as (r & why & -> & -> & ->). reflexivity.
  - subst o. reflexivity.
Qed.

Lemma scan_pick_A (fp : str) (lines : list str) (gen : list (Z * str)) :
  forall st st',
    snd (Eslint.scan fp lines gen st) = Ok st' ->
    Eslint.flush st' = Eslint.flush st ++ pick (record_at fp lines) gen.
Proof.
  induction gen as [|x gen IH]; intros st st' Hs.
  - simpl in Hs. inversion Hs; subst. simpl. now rewrite app_nil_r.
  - rewrite scan_cons in Hs.
    destruct (snd (Eslint.step fp lines x st)) as [st1|e] eqn:E;
      cbn [Py.bind] in Hs; [|discriminate].
    rewrite (IH _ _ Hs), (step_pick_A _ _ _ _ _ E), <- app_assoc.
    f_equal. change (x :: gen) with ([x] ++ gen). now rewrite pick_app.
Qed.

Lemma find_ignores_in_pick (fp : str) (lines : list str) :
  snd (Eslint.find_ignores_in fp lines)
  = Ok (pick (record_at fp lines) (enumerate lines 1)).
Proof.
  destruct (scan_file_A fp lines) as (st & Hs & _).
  rewrite find_ignores_in_snd, Hs. cbn [Py.bind].
  now rewrite (scan_pick_A _ _ _ _ _ Hs).
Qed.

(** X1.  The Dialect A scanner is a map over the lines: the output is the
    record of each directive line, in the order of the lines.  The record
    buffered between iterations never changes what is returned. *)
Theorem eslint_scanner_is_a_map (fp : str) (lines : list str) :
  snd (Eslint.find_ignores_in fp lines)
  = Ok (pick (record_at fp lines) (enumerate lines 1)).
Proof. apply find_ignores_in_pick. Qed.

End ScannerShape.

Section RecordShape.
Import Py Re Out Inv Ext.

Lemma in_pick {A B : Type} (f : A -> option B) (l : list A) (b : B) :
  In b (pick f l) -> exists a, In a l /\ f a = Some b.
Proof.
  induction l as [|a l IH]; simpl; [contradiction|].
  destruct (f a) as [b'|] eqn:E.
  - intros [<-|H]; [eauto|]. destruct (IH H) as (a' & ? & ?). eauto.
  - intros H. destruct (IH H) as (a' & ? & ?). eauto.
Qed.

Lemma in_enumerate {A : Type} (l : list A) :
  forall k n a, In (n, a) (enumerate l k) ->
                k <= n < k + Z.of_nat (length l).
Proof.
  induction l as [|b l IH]; intros k n a; simpl; [contradiction|].
  intros [[= <- <-]|H]; [lia|]. apply IH in H. lia.
Qed.

Lemma line_at_range (lines : list str) (n : Z) (l : str) :
  line_at lines n = Some l -> 1 <= n <= Z.of_nat (length lines).
Proof.
  unfold line_at. destruct (Z.ltb_spec n 1) as [Hn|Hn]; [discriminate|].
  intros Hl. assert (Hlt : (Z.to_nat (n - 1) < length lines)%nat)
    by (apply nth_error_Some; congruence). lia.
Qed.

(** The text of a repetition satisfies the class. *)
Lemma star_text (p : ascii -> bool) (s0 s : str) (c : caps) (s1 : str)
  (c1 : caps) :
  sem (Star p) s0 s c s1 c1 ->
  forallb p (firstn (length s - length s1) s) = true.
Proof.
  simpl. intros (w & -> & Hw & _).
  replace (length (w ++ s1) - length s1)%nat with (length w)
    by (rewrite length_app; lia).
  now rewrite firstn_app, Nat.sub_diag, firstn_all, firstn_O, app_nil_r.
Qed.

Lemma forallb_lstrip (p : ascii -> bool) (s : str) :
  forallb p s = true -> forallb p (lstrip s) = true.
Proof.
  induction s as [|c s IH]; simpl; [auto|].
  intros H. apply andb_true_iff in H. destruct H as [Hc Hs].
  destruct (isspace c); [auto|]. simpl. now rewrite Hc, Hs.
Qed.

Lemma forallb_rev (p : ascii -> bool) (s : str) :
  forallb p (rev s) = forallb p s.
Proof.
  induction s as [|c s IH]; simpl; [reflexivity|].
  rewrite forallb_app, IH. simpl. rewrite andb_true_r. apply andb_comm.
Qed.

Lemma forallb_strip (p : ascii -> bool) (s : str) :
  forallb p s = true -> forallb p (strip s) = true.
Proof.
  intros H. unfold strip, rstrip. rewrite forallb_rev.
  apply forallb_lstrip. rewrite forallb_rev. now apply forallb_lstrip.
Qed.

(** The rule of a match of one of the two eslint patterns. *)
Lemma eslint_rule_text (p : pattern) (l : str) (m : rmatch) :
  p = Eslint.ESLINT_IGNORE_ENTIRE_FILE_PATTERN
  \/ p = Eslint.ESLINT_INLINE_IGNORE_PATTERN ->
  rematch p l = Some m ->
  exists g, snd (Eslint.get_rule m) = Ok (Some (strip g))
            /\ forallb Eslint.rule_chars g = true.
Proof.
  intros Hp Hm.
  assert (Hg : exists g, m_caps m 1%nat = Some g
                         /\ group_strip m 1 = Ok (strip g)).
  { destruct Hp as [-> | ->];
      apply (group_strip_ok _ _ _ 1%nat Hm);
      solve [reflexivity | vm_compute; lia]. }
  destruct Hg as (g & Hg & Hgs). exists g.
  split; [unfold Eslint.get_rule; now rewrite Hgs|].
  apply rematch_sound in Hm. destruct Hm as (_ & s1 & Hsem).
  apply (sem_grp 1%nat (fun t => forallb Eslint.rule_chars t = true)
           _ _ _ _ _ _) with (g := g) in Hsem; auto.
  - destruct Hp as [-> | ->]; cbn -[sem Eslint.rule_chars];
      repeat match goal with
             | |- _ /\ _ => split
             | |- True => exact I
             end;
      intros _ u0 u c0 u1 c1 Hs; now apply star_text in Hs.
  - discriminate.
Qed.

Lemma record_at_shape (fp : str) (lines : list str) (n : Z) (l : str)
  (r : Eslint.Ignore) :
  1 <= n <= Z.of_nat (length lines) ->
  record_at fp lines (n, l) = Some r -> eslint_shape fp lines r.
Proof.
  intros Hn. unfold record_at. cbn [fst snd].
  destruct (Eslint.directive (strip l)) as [m|] eqn:Hd; [|discriminate].
  destruct (snd (Eslint.get_rule m)) as [rl|e] eqn:Hr; [|discriminate].
  destruct (Eslint.get_reason n lines) as [why|e] eqn:Hw; [|discriminate].
  intros [= <-]. unfold eslint_shape. simpl.
  split; [reflexivity|]. split; [reflexivity|]. split; [exact Hn|]. split.
  - exists why. split; [reflexivity|].
    revert Hw. unfold Eslint.get_reason.
    destruct (getitem lines (n - 2)) as [prev|e]; simpl; [|discriminate].
    destruct (rematch Eslint.TS_COMMENT_PATTERN prev) as [cm|].
    + destruct (group_strip cm 1) as [g|e]; simpl; [|discriminate].
      intros [= <-]. simpl. lia.
    + intros [= <-]. simpl. lia.
  - destruct (directive_cases _ _ Hd) as [Hm|[Hm|Hm]].
    + right. destruct (eslint_rule_text _ _ _ (or_introl eq_refl) Hm)
        as (g & Hg & Hc).
      apply rematch_sound in Hm. destruct Hm as (Hre & _).
      unfold Eslint.get_ignore_type. rewrite Hre. split; [left; reflexivity|].
      exists (strip g). split; [congruence|]. now apply forallb_strip.
    + right. destruct (eslint_rule_text _ _ _ (or_intror eq_refl) Hm)
        as (g & Hg & Hc).
      apply rematch_sound in Hm. destruct Hm as (Hre & _).
      unfold Eslint.get_ignore_type. rewrite Hre.
      split; [right; reflexivity|].
      exists (strip g). split; [congruence|]. now apply forallb_strip.
    + left. apply rematch_sound in Hm. destruct Hm as (Hre & _).
      unfold Eslint.get_ignore_type. rewrite Hre. split; [reflexivity|].
      revert Hr. unfold Eslint.get_rule, group_strip, group. rewrite Hre.
      simpl. now intros [= <-].
Qed.

(** X2.  Every record of the Dialect A scanner carries the path of the
    file, covers the one line of its directive, has a justification that
    is a list of at most one fragment, and has a type.  Its rule is
    absent exactly for the type-checker directive; for the two eslint
    directives it is a string of the characters a rule list may hold. *)
Theorem eslint_record_shape (fp : str) (lines : list str) :
  exists out,
    snd (Eslint.find_ignores_in fp lines) = Ok out
    /\ forall r, In r out -> eslint_shape fp lines r.
Proof.
  eexists. split; [apply find_ignores_in_pick|].
  intros r Hr. apply in_pick in Hr. destruct Hr as ([n l] & Hin & Hrec).
  apply in_enumerate in Hin. eapply record_at_shape; eauto. lia.
Qed.

End RecordShape.

Section DirectiveLines.
Import Py Re Out Inv Ext.

Lemma step_starts_A (fp : str) (lines : list str) (x : Z * str)
  (st st' : Eslint.state) :
  snd (Eslint.step fp lines x st) = Ok st' ->
  map Eslint.start (Eslint.flush st')
  = map Eslint.start (Eslint.flush st)
    ++ map fst (filter (fun y => eslint_directive (snd y)) [x]).
Proof.
  destruct x as [n l]. intros Hs. apply step_spec in Hs.
  destruct Hs as [Hc Hd]. destruct st' as [o closed]. simpl in Hc, Hd.
  subst closed. rewrite flush_app_A, map_app. f_equal.
  unfold eslint_directive. simpl.
  destruct (Eslint.directive (strip l)) as [m|].
  - destruct Hd as (r & why & -> & _). reflexivity.
  - subst o. reflexivity.
Qed.

Lemma scan_starts_A (fp : str) (lines : list str) (gen : list (Z * str)) :
  forall st st',
    snd (Eslint.scan fp lines gen st) = Ok st' ->
    map Eslint.start (Eslint.flush st')
    = map Eslint.start (Eslint.flush st)
      ++ map fst (filter (fun y => eslint_directive (snd y)) gen).
Proof.
  induction gen as [|x gen IH]; intros st st' Hs.
  - simpl in Hs. inversion Hs; subst. simpl. now rewrite app_nil_r.
  - rewrite scan_cons in Hs.
    destruct (snd (Eslint.step fp lines x st)) as [st1|e] eqn:E;
      cbn [Py.bind] in Hs; [|discriminate].
    rewrite (IH _ _ Hs), (step_starts_A _ _ _ _ _ E), <- app_assoc.
    f_equal. change (x :: gen) with ([x] ++ gen).
    now rewrite filter_app, map_app.
Qed.

Lemma step_starts_B (fp : str) (lines : list str) (x : Z * str)
  (st st' : Pylint.state) :
  Pylint.step fp lines x st = Ok st' ->
  map Pylint.start (Pylint.flush st')
  = map Pylint.start (Pylint.flush st)
    ++ map fst (filter (fun y => pylint_directive (snd y)) [x]).
Proof.
  destruct x as [n l]. intros Hs. apply step_spec_B in Hs.
  unfold pylint_directive. simpl.
  destruct (rematch Pylint.PYLINT_IGNORE_PATTERN (strip l)) as [m|].
  - destruct Hs as (why & _ & ->). unfold Pylint.flush at 1. simpl.
    now rewrite map_app.
  - simpl. rewrite app_nil_r. destruct st as [[i|] closed]; simpl in Hs.
    + destruct (continuation l); subst st'; unfold Pylint.flush; simpl;
        [|reflexivity].
      now rewrite !map_app.
    + now subst st'.
Qed.

Lemma scan_starts_B (fp : str) (lines : list str) (gen : list (Z * str)) :
  forall st st',
    Pylint.scan fp lines gen st = Ok st' ->
    map Pylint.start (Pylint.flush st')
    = map Pylint.start (Pylint.flush st)
      ++ map fst (filter (fun y => pylint_directive (snd y)) gen).
Proof.
  induction gen as [|x gen IH]; intros st st' Hs.
  - simpl in Hs. inversion Hs; subst. simpl. now rewrite app_nil_r.
  - cbn [Pylint.scan] in Hs.
    destruct (Pylint.step fp lines x st) as [st1|e] eqn:E;
      cbn [Py.bind] in Hs; [|discriminate].
    rewrite (IH _ _ Hs), (step_starts_B _ _ _ _ _ E), <- app_assoc.
    f_equal. change (x :: gen) with ([x] ++ gen).
    now rewrite filter_app, map_app.
Qed.

(** X3.  In both dialects the start lines of the records returned for a
    file are the numbers of its directive lines, in order: one record
    for each directive line, and none for a file without directives. *)
Theorem records_start_on_directive_lines (fp : str) (lines : list str) :
  (exists out,
      snd (Eslint.find_ignores_in fp lines) = Ok out
      /\ map Eslint.start out
         = map fst (filter (fun y => eslint_directive (snd y))
                           (enumerate lines 1)))
  /\ (exists out,
         Pylint.find_ignores_in fp lines = Ok out
         /\ map Pylint.start out
            = map fst (filter (fun y => pylint_directive (snd y))
                              (enumerate lines 1))).
Proof.
  split.
  - destruct (scan_file_A fp lines) as (st & Hs & _).
    exists (Eslint.flush st). split.
    + rewrite find_ignores_in_snd, Hs. reflexivity.
    + now rewrite (scan_starts_A _ _ _ _ _ Hs).
  - destruct (scan_file_B fp lines) as (st & Hs & _).
    exists (Pylint.flush st). split.
    + now apply find_ignores_in_B.
    + now rewrite (scan_starts_B _ _ _ _ _ Hs).
Qed.

Lemma get_reason_length_B (m : rmatch) (n : Z) (lines : list str)
  (why : list str) :
  Pylint.get_reason m n lines = Ok why -> (length why <= 2)%nat.
Proof.
  unfold Pylint.get_reason.
  destruct (getitem lines (n - 2)) as [prev|e]; cbn [Py.bind];
    [|discriminate].
  assert (Hc : forall reasons,
             match rematch Pylint.PYTHON_COMMENT_PATTERN prev with
             | Some comment_match =>
                 g <- group_strip comment_match 1 ;; Ok ([] ++ [g])
             | None => Ok []
             end = Ok reasons -> (length reasons <= 1)%nat).
  { intros reasons.
    destruct (rematch Pylint.PYTHON_COMMENT_PATTERN prev) as [c|].
    - destruct (group_strip c 1) as [g|e]; simpl; [|discriminate].
      intros [= <-]. simpl. lia.
    - intros [= <-]. simpl. lia. }
  destruct (match rematch Pylint.PYTHON_COMMENT_PATTERN prev with
            | Some comment_match =>
                g <- group_strip comment_match 1 ;; Ok ([] ++ [g])
            | None => Ok []
            end) as [reasons|e]; cbn [Py.bind]; [|discriminate].
  specialize (Hc reasons eq_refl).
  destruct (group m 2) as [[[|a w]|]|e]; simpl; try discriminate;
    intros [= <-]; rewrite ?length_app; simpl; lia.
Qed.

(** The invariant behind the shape of the records of Dialect B: closed
    records have the shape, and so has the open one, which ends on the
    line before the next. *)
Lemma step_shape_B (fp : str) (lines : list str) (n : Z) (l : str)
  (st st' : Pylint.state) :
  line_at lines n = Some l ->
  ((forall r, In r (snd st) -> pylint_shape fp lines r)
   /\ forall r, fst st = Some r ->
                pylint_shape fp lines r /\ Pylint.end_ r = n - 1) ->
  Pylint.step fp lines (n, l) st = Ok st' ->
  (forall r, In r (snd st') -> pylint_shape fp lines r)
  /\ forall r, fst st' = Some r ->
               pylint_shape fp lines r /\ Pylint.end_ r = n + 1 - 1.
Proof.
  intros Hl [Hclosed Hopen] Hs. pose proof (line_at_range _ _ _ Hl) as Hn.
  assert (Hflush : forall r, In r (Pylint.flush st) -> pylint_shape fp lines r).
  { destruct st as [[i|] closed]; unfold Pylint.flush; simpl in *; auto.
    intros r Hr. apply in_app_or in Hr. destruct Hr as [Hr|[<-|[]]]; auto.
    now destruct (Hopen i eq_refl). }
  apply step_spec_B in Hs.
  destruct (rematch Pylint.PYLINT_IGNORE_PATTERN (strip l)) as [m|] eqn:Hm.
  - destruct Hs as (why & Hw & ->). simpl. split; [exact Hflush|].
    intros r [= <-]. split; [|simpl; lia].
    apply get_reason_length_B in Hw.
    unfold pylint_shape. simpl. repeat split; try lia.
    exists l. split; [exact Hl|]. unfold pylint_directive. now rewrite Hm.
  - destruct st as [[i|] closed]; cbn [fst snd] in *.
    + destruct (Hopen i eq_refl) as [Hi He].
      destruct (continuation l) as [g|] eqn:Hg; subst st'; simpl.
      * split; [exact Hclosed|]. intros r [= <-]. split; [|simpl; lia].
        destruct Hi as (Hf & Hse & Hel & Hlen & Hdir & Hcont).
        unfold pylint_shape. simpl. rewrite length_app. simpl.
        repeat split; try lia; auto.
        intros k Hk. destruct (Z.eq_dec k n) as [->|Hne].
        -- exists l. split; [exact Hl|]. congruence.
        -- apply Hcont. lia.
      * split; [exact Hflush|]. discriminate.
    + subst st'. simpl. split; [exact Hclosed|]. discriminate.
Qed.

(** X4.  Every record of the Dialect B scanner carries the path of the
    file, starts on a directive line and ends within the file; the lines
    below its start up to its end are comment lines that continue the
    justification; and its justification has at least as many fragments
    as it has such lines, and at most two more.  A record without
    justification therefore covers a single line. *)
Theorem pylint_record_shape (fp : str) (lines : list str) :
  exists out,
    Pylint.find_ignores_in fp lines = Ok out
    /\ (forall r, In r out -> pylint_shape fp lines r)
    /\ (forall r, In r out -> Pylint.reason r = [] ->
                  Pylint.end_ r = Pylint.start r).
Proof.
  destruct (scan_file_B fp lines) as (st & Hs & _).
  exists (Pylint.flush st). split; [now apply find_ignores_in_B|].
  assert (Hall : forall r, In r (Pylint.flush st) -> pylint_shape fp lines r).
  { assert (HI : (forall r, In r (snd st) -> pylint_shape fp lines r)
                 /\ forall r, fst st = Some r ->
                              pylint_shape fp lines r
                              /\ Pylint.end_ r
                                 = Z.of_nat (length lines) + 1 - 1).
    { apply (scan_invariant_B fp lines
               (fun n s =>
                  (forall r, In r (snd s) -> pylint_shape fp lines r)
                  /\ forall r, fst s = Some r ->
                               pylint_shape fp lines r
                               /\ Pylint.end_ r = n - 1))
        with (ls := lines) (pre := []) (st := (None, [])); auto.
      - intros n l s s' Hl HI Hstep. eapply step_shape_B; eauto.
      - simpl. split; [intros r []|discriminate]. }
    destruct HI as [Hc Ho]. destruct st as [[i|] closed];
      unfold Pylint.flush; simpl in *; auto.
    intros r Hr. apply in_app_or in Hr. destruct Hr as [Hr|[<-|[]]]; auto.
    now destruct (Ho i eq_refl). }
  split; [exact Hall|].
  intros r Hr He. destruct (Hall r Hr) as (_ & Hse & _ & Hlen & _).
  rewrite He in Hlen. simpl in Hlen. lia.
Qed.

End DirectiveLines.

(* ================================================================== *)
(** ** What the patterns recognise *)

Section Recognition.
Import Py Re Out Inv Ext.

Lemma star_k_complete (p : ascii -> bool) (k : str -> option caps) :
  forall w s1, forallb p w = true -> k s1 <> None ->
               star_k p k (w ++ s1) <> None.
Proof.
  induction w as [|x w IH]; intros s1 Hw Hk.
  - simpl. destruct s1 as [|y s1]; [exact Hk|].
    simpl. destruct (p y); [|exact Hk].
    destruct (star_k p k s1); [discriminate|exact Hk].
  - simpl in Hw. apply andb_true_iff in Hw. destruct Hw as [Hx Hw].
    simpl. rewrite Hx. specialize (IH s1 Hw Hk).
    destruct (star_k p k (w ++ s1)); [discriminate|contradiction].
Qed.

(** The matcher finds a match whenever the pattern has one. *)
Lemma run_complete :
  forall r s0 s c k s1 c1,
    sem r s0 s c s1 c1 -> k s1 c1 <> None -> run r s0 s c k <> None.
Proof.
  induction r as [| | |p|p|a IHa b IHb|a IHa b IHb|i a IHa];
    intros s0 s c k s1 c1 H Hk; simpl in H; simpl.
  - destruct H as (-> & ->). exact Hk.
  - destruct H as (-> & -> & He). rewrite He, Nat.eqb_refl. exact Hk.
  - destruct H as (-> & -> & [-> | ->]); [exact Hk|].
    rewrite Ascii.eqb_refl. exact Hk.
  - destruct H as (x & -> & Hx & ->). rewrite Hx. exact Hk.
  - destruct H as (w & -> & Hw & ->). now apply star_k_complete.
  - destruct H as (s' & c' & Ha & Hb).
    apply (IHa s0 s c _ s' c' Ha). now apply (IHb s0 s' c' k s1 c1).
  - destruct (run a s0 s c k) eqn:E; [discriminate|].
    destruct H as [H|H].
    + exfalso. now apply (IHa s0 s c k s1 c1 H Hk).
    + now apply (IHb s0 s c k s1 c1).
  - destruct H as (c' & Ha & ->). now apply (IHa s0 s c _ s1 c' Ha).
Qed.

Lemma rematch_complete (p : pattern) (s s1 : str) (c1 : caps) :
  sem (tree p) s s no_caps s1 c1 -> rematch p s <> None.
Proof.
  intros H. unfold rematch.
  pose proof (run_complete (tree p) s s no_caps (fun _ c => Some c) s1 c1 H)
    as Hr.
  destruct (run (tree p) s s no_caps (fun _ c => Some c));
    [discriminate|]. exfalso. apply Hr; [discriminate | reflexivity].
Qed.

Lemma sem_Lit (w : str) (s0 s : str) (c : caps) :
  sem (Lit w) s0 (w ++ s) c s c.
Proof.
  induction w as [|x w IH]; simpl; [auto|].
  exists (w ++ s), c. split; [|exact IH].
  exists x. now rewrite Ascii.eqb_refl.
Qed.

Lemma sem_Lit_inv (w : str) (s0 s : str) (c : caps) (s1 : str) (c1 : caps) :
  sem (Lit w) s0 s c s1 c1 -> s = w ++ s1 /\ c1 = c.
Proof.
  revert s c. induction w as [|x w IH]; intros s c; simpl.
  - intros (-> & ->). auto.
  - intros (s' & c' & (y & -> & Hy & ->) & H).
    apply Ascii.eqb_eq in Hy. subst y.
    destruct (IH _ _ H) as (-> & ->). auto.
Qed.

(** A line the comment pattern of Dialect B matches begins with the
    hash. *)
Lemma comment_starts_with_hash (s : str) (c : rmatch) :
  rematch Pylint.PYTHON_COMMENT_PATTERN s = Some c ->
  exists t, s = "#"%char :: t.
Proof.
  intros H. apply rematch_sound in H. destruct H as (_ & s1 & H).
  cbn [tree Pylint.PYTHON_COMMENT_PATTERN Cat sem Chr] in H.
  destruct H as (s' & c' & (x & -> & Hx & _) & _).
  apply Ascii.eqb_eq in Hx. subst x. eauto.
Qed.

(** X5.  In Dialect B the line above a directive gives a fragment only
    when its first character is the hash: the line is matched as it was
    read, so a comment that is indented gives none, and the justification
    is what the directive line itself holds. *)
Theorem pylint_preceding_comment_needs_column_one (s : str) (m : rmatch)
  (n : Z) (lines : list str) (prev : str) :
  rematch Pylint.PYLINT_IGNORE_PATTERN s = Some m ->
  getitem lines (n - 2) = Ok prev ->
  (forall t, prev <> "#"%char :: t) ->
  Pylint.get_reason m n lines = Ok (same_line m).
Proof.
  intros Hm Hp Hh. unfold Pylint.get_reason. rewrite Hp. cbn [Py.bind].
  destruct (rematch Pylint.PYTHON_COMMENT_PATTERN prev) as [c|] eqn:Hc.
  - apply comment_starts_with_hash in Hc. destruct Hc as (t & ->).
    now destruct (Hh t).
  - cbn [Py.bind]. apply rematch_sound in Hm. destruct Hm as (Hre & _).
    unfold group. rewrite Hre. simpl. unfold same_line.
    destruct (m_caps m 2%nat) as [[|a w]|]; reflexivity.
Qed.

(** X6.  In Dialect A every line that, once stripped, reads [//], any
    white space, [@ts-] and then anything is a directive: the two
    optional words of the pattern do not restrict what follows. *)
Theorem any_ts_comment_is_a_directive (l w rest : str) :
  strip l = L "//" ++ w ++ L "@ts-" ++ rest ->
  forallb ws w = true ->
  eslint_directive l = true.
Proof.
  intros Hl Hw. unfold eslint_directive, Eslint.directive. rewrite Hl.
  destruct (rematch Eslint.ESLINT_IGNORE_ENTIRE_FILE_PATTERN _);
    [reflexivity|].
  destruct (rematch Eslint.ESLINT_INLINE_IGNORE_PATTERN _); [reflexivity|].
  destruct (rematch Eslint.TS_INLINE_IGNORE
              (L "//" ++ w ++ L "@ts-" ++ rest)) eqn:E; [reflexivity|].
  exfalso. revert E.
  apply (rematch_complete Eslint.TS_INLINE_IGNORE _ rest no_caps).
  cbn [tree Eslint.TS_INLINE_IGNORE Cat sem].
  eexists _, _. split; [split; [reflexivity|split; reflexivity]|].
  eexists _, _. split; [apply (sem_Lit (L "//"))|].
  eexists _, _. split; [exists w; split; [reflexivity|split; [exact Hw|reflexivity]]|].
  eexists _, _. split; [apply (sem_Lit (L "@ts-"))|].
  eexists _, _. split; right; split; reflexivity.
Qed.

(** X7.  In Dialect A the line above a directive gives a fragment
    whenever it holds [//] followed by a character other than the
    newline, wherever in the line that is: in a comment, and in code or
    in a string as well. *)
Theorem eslint_preceding_line_with_slashes (n : Z) (lines : list str)
  (a : str) (x : ascii) (t : str) :
  getitem lines (n - 2) = Ok (a ++ L "//" ++ x :: t) ->
  forallb dot a = true -> dot x = true ->
  exists g, Eslint.get_reason n lines = Ok [g].
Proof.
  intros Hp Ha Hx. unfold Eslint.get_reason. rewrite Hp. cbn [Py.bind].
  destruct (rematch Eslint.TS_COMMENT_PATTERN (a ++ L "//" ++ x :: t))
    as [cm|] eqn:E.
  - destruct (group_strip_ok _ _ _ 1%nat E) as (g & _ & ->);
      [reflexivity | vm_compute; lia | simpl; eauto].
  - exfalso. revert E.
    apply (rematch_complete Eslint.TS_COMMENT_PATTERN _ t
             (set_cap 1 [x] no_caps)).
    cbn [tree Eslint.TS_COMMENT_PATTERN Cat sem Plus].
    eexists _, _. split;
      [exists a; split; [reflexivity|split; [exact Ha|reflexivity]]|].
    eexists _, _. split; [apply (sem_Lit (L "//"))|].
    eexists _, _. split;
      [exists []; split; [reflexivity|split; reflexivity]|].
    eexists. split.
    + eexists _, _. split; [exists x; split; [reflexivity|split; [exact Hx|reflexivity]]|].
      exists []. split; [reflexivity|split; reflexivity].
    + cbn [length].
      replace (S (length t) - length t)%nat with 1%nat by lia.
      reflexivity.
Qed.

End Recognition.

(* ================================================================== *)
(** ** The policy gate and the report *)

Section GateAndReport.
Import Py Re Out Inv Ext.

Lemma prefix_same_length (a b : str) :
  length a = length b -> prefix a b = true -> a = b.
Proof.
  revert b. induction a as [|x a IH]; intros [|y b]; simpl; try discriminate.
  - reflexivity.
  - intros [= Hl] H. apply andb_true_iff in H. destruct H as [Hx Hp].
    apply Ascii.eqb_eq in Hx. subst y. f_equal. now apply IH.
Qed.

Lemma prefix_refl (a : str) : prefix a a = true.
Proof.
  induction a as [|x a IH]; simpl; [reflexivity|].
  now rewrite Ascii.eqb_refl, IH.
Qed.

(** [==] on strings. *)
Lemma str_eqb_eq (a b : str) : str_eqb a b = true <-> a = b.
Proof.
  unfold str_eqb. split.
  - intros H. apply andb_true_iff in H. destruct H as [Hl Hp].
    apply Nat.eqb_eq in Hl. now apply prefix_same_length.
  - intros ->. now rewrite Nat.eqb_refl, prefix_refl.
Qed.

Lemma for_each_emit {A : Type} (f : A -> event) (l : list A) :
  for_each l (fun x => emit (f x)) = (map f l, Ok tt).
Proof.
  induction l as [|a l IH]; [reflexivity|].
  cbn [for_each map]. rewrite IH. reflexivity.
Qed.

Lemma filter_nil_iff {A : Type} (f : A -> bool) (l : list A) :
  filter f l = [] <-> forall a, In a l -> f a = false.
Proof.
  induction l as [|a l IH]; simpl.
  - split; [intros _ a []|reflexivity].
  - destruct (f a) eqn:E.
    + split; [discriminate|]. intros H. specialize (H a (or_introl eq_refl)).
      congruence.
    + rewrite IH. split.
      * intros H b [<-|Hb]; auto.
      * intros H b Hb. apply H. auto.
Qed.

Lemma length_enumerate {A : Type} (l : list A) :
  forall k, length (enumerate l k) = length l.
Proof.
  induction l as [|a l IH]; intros k; simpl; [reflexivity|].
  now rewrite IH.
Qed.

(** The offending records of a gate run: those whose rendered reason is
    the text that stands for a missing one. *)
Lemma pylint_gate_run (ignores : list Pylint.Ignore) :
  let bad := filter pylint_bad ignores in
  (bad = [] /\ Pylint.catch_bad_ignores ignores = ([], Ok tt))
  \/ (bad <> []
      /\ snd (Pylint.catch_bad_ignores ignores) = Raise (SystemExit 1)
      /\ filter is_report (fst (Pylint.catch_bad_ignores ignores)) = []
      /\ Pylint.catch_bad_ignores ignores
         = (Log ERROR
              (L "ERROR: The following Pylint ignores were detected without any reasons for justification. Please ensure that a reason is given either in the same comment line, or in comments immediately below the original ignore.")
              []
              :: map pylint_gate_line (enumerate bad 1),
            Raise (SystemExit 1))).
Proof.
  intros bad. unfold Pylint.catch_bad_ignores.
  change (filter (fun i => str_eqb (Pylint.Reason (Pylint.values i))
                                   Pylint.NO_REASON) ignores) with bad.
  destruct bad as [|b bad']; [left; auto|right].
  split; [discriminate|].
  rewrite (for_each_emit pylint_gate_line).
  cbn [iobind emit exit raise app fst snd]. split; [reflexivity|].
  rewrite app_nil_r. split; [|reflexivity].
  cbn [filter is_report].
  generalize (enumerate (b :: bad') 1). intros l.
  induction l as [|x l IH]; simpl; auto.
Qed.

(** X8.  The gate of Dialect B returns without a trace when no record
    renders as [(No reason provided)].  When some record does, as every
    record with an empty justification does, it logs the heading and
    then one line for each such record, numbered from 1 and naming its
    file and its lines, in the order of the records, and exits with
    status 1; it logs nothing else and writes nothing of the report. *)
Theorem pylint_gate (ignores : list Pylint.Ignore) :
  ((forall r, In r ignores ->
              Pylint.Reason (Pylint.values r) <> Pylint.NO_REASON) ->
   Pylint.catch_bad_ignores ignores = ([], Ok tt))
  /\ (forall r, In r ignores ->
        Pylint.reason r = []
        \/ Pylint.Reason (Pylint.values r) = Pylint.NO_REASON ->
        In r (filter pylint_bad ignores)
        /\ Pylint.catch_bad_ignores ignores
           = (Log ERROR
                (L "ERROR: The following Pylint ignores were detected without any reasons for justification. Please ensure that a reason is given either in the same comment line, or in comments immediately below the original ignore.")
                []
                :: map pylint_gate_line
                       (enumerate (filter pylint_bad ignores) 1),
              Raise (SystemExit 1))).
Proof.
  split.
  - intros Hall. destruct (pylint_gate_run ignores) as [[_ H]|[Hbad _]];
      [exact H|].
    exfalso. apply Hbad. apply filter_nil_iff. intros r Hr.
    unfold pylint_bad. destruct (str_eqb _ _) eqn:E; [|reflexivity].
    apply str_eqb_eq in E. now destruct (Hall r Hr).
  - intros r Hr Hbad.
    assert (Hs : Pylint.Reason (Pylint.values r) = Pylint.NO_REASON).
    { destruct Hbad as [He|He]; [|exact He]. simpl. now rewrite He. }
    assert (Hin : In r (filter pylint_bad ignores)).
    { apply filter_In. split; [exact Hr|]. unfold pylint_bad.
      now apply str_eqb_eq. }
    split; [exact Hin|].
    destruct (pylint_gate_run ignores) as [[Hnil _]|(_ & _ & _ & H)];
      [|exact H].
    rewrite Hnil in Hin. destruct Hin.
Qed.

End GateAndReport.

Section Runs2.
Import Py Re Out Inv Ext.

Lemma iobind_ok {A B : Type} (m : io A) (f : A -> io B) (a : A) :
  snd m = Ok a ->
  snd (iobind m f) = snd (f a) /\ report (iobind m f) = report m ++ report (f a).
Proof.
  destruct m as [ev [a'|e]]; simpl; intros [= ->].
  destruct (f a) as [ev' r]. unfold report. simpl.
  now rewrite filter_app.
Qed.

Lemma iobind_raise {A B : Type} (m : io A) (f : A -> io B) (e : exn) :
  snd m = Raise e ->
  snd (iobind m f) = Raise e /\ report (iobind m f) = report m.
Proof.
  destruct m as [ev [a'|e']]; simpl; intros [= ->]. auto.
Qed.

Lemma for_each_events {A : Type} (f : A -> list event) (body : A -> io unit)
  (l : list A) :
  (forall a, body a = (f a, Ok tt)) ->
  for_each l body = (flat_map f l, Ok tt).
Proof.
  intros Hb. induction l as [|a l IH]; [reflexivity|].
  cbn [for_each flat_map]. rewrite Hb, IH. reflexivity.
Qed.


(** With records in hand, the end of [main] is the gate, when asked for,
    and then the report. *)
Lemma after_scan_cons (fs : FS) (args : Pylint.Args) (r : Pylint.Ignore)
  (rest : list Pylint.Ignore) (c : Z) :
  let tail :=
    (if Pylint.verify args then Pylint.catch_bad_ignores (r :: rest)
     else ret tt) ;;;
    Pylint.export fs (Pylint.output_dir args) (r :: rest) in
  snd (pylint_after_scan fs args (r :: rest) c) = snd tail
  /\ report (pylint_after_scan fs args (r :: rest) c) = report tail.
Proof.
  intros tail. unfold pylint_after_scan. fold tail.
  destruct tail as [ev res]. split; reflexivity.
Qed.

Lemma report_console (l : list Pylint.Ignore) :
  filter is_report (flat_map pylint_console l) = flat_map pylint_console l.
Proof.
  induction l as [|i l IH]; [reflexivity|].
  cbn [flat_map]. rewrite filter_app, IH. reflexivity.
Qed.

Lemma export_console (fs : FS) (l : list Pylint.Ignore) :
  Pylint.export fs None l = (flat_map pylint_console l, Ok tt).
Proof. unfold Pylint.export. now apply for_each_events. Qed.

(** A record without justification stops the gate. *)
Lemma pylint_gate_fails (ignores : list Pylint.Ignore) (r : Pylint.Ignore) :
  In r ignores -> Pylint.reason r = [] ->
  snd (Pylint.catch_bad_ignores ignores) = Raise (SystemExit 1)
  /\ report (Pylint.catch_bad_ignores ignores) = [].
Proof.
  intros Hr He.
  destruct (pylint_gate_run ignores) as [[Hnil _]|(_ & Hs & Hrep & _)];
    [|split; [exact Hs | exact Hrep]].
  exfalso. pose proof (proj1 (filter_nil_iff _ _) Hnil r Hr) as Hf.
  unfold pylint_bad in Hf.
  assert (Hs : Pylint.Reason (Pylint.values r) = Pylint.NO_REASON)
    by (simpl; now rewrite He).
  rewrite (proj2 (str_eqb_eq _ _) Hs) in Hf. discriminate.
Qed.

(** Records that all render a reason pass the gate. *)
Lemma pylint_gate_passes (ignores : list Pylint.Ignore) :
  (forall r, In r ignores ->
             Pylint.Reason (Pylint.values r) <> Pylint.NO_REASON) ->
  Pylint.catch_bad_ignores ignores = ([], Ok tt).
Proof.
  intros Hall. destruct (pylint_gate_run ignores) as [[_ H]|[Hbad _]];
    [exact H|].
  exfalso. apply Hbad. apply filter_nil_iff. intros r Hr.
  unfold pylint_bad. destruct (str_eqb _ _) eqn:E; [|reflexivity].
  apply str_eqb_eq in E. now destruct (Hall r Hr).
Qed.

Lemma in_enumerate_snd {A : Type} (l : list A) :
  forall k n a, In (n, a) (enumerate l k) -> In a l.
Proof.
  induction l as [|b l IH]; intros k n a; simpl; [contradiction|].
  intros [[= _ <-]|H]; [auto|]. right. eapply IH; eauto.
Qed.

(** A file without directive lines gives no record. *)
Lemma pylint_no_directive (fp : str) (lines : list str) :
  (forall l, In l lines -> pylint_directive l = false) ->
  Pylint.find_ignores_in fp lines = Ok [].
Proof.
  intros Hno. destruct (scan_file_B fp lines) as (st & Hs & _).
  rewrite (find_ignores_in_B _ _ _ Hs). f_equal.
  pose proof (scan_starts_B _ _ _ _ _ Hs) as Hst.
  replace (filter (fun y : Z * str => pylint_directive (snd y))
                  (enumerate lines 1)) with (@nil (Z * str)) in Hst.
  - simpl in Hst. now apply map_eq_nil in Hst.
  - symmetry. apply filter_nil_iff. intros [n l] Hin. simpl.
    apply Hno. eapply in_enumerate_snd; eauto.
Qed.

End Runs2.

(* ================================================================== *)
(** ** The ignore-list scanner *)

Section IgnoreList.
Import Py Re Out Inv Ext.

Lemma enumerate_nth {A : Type} (l : list A) :
  forall k n a, In (n, a) (enumerate l k) ->
                k <= n /\ nth_error l (Z.to_nat (n - k)) = Some a.
Proof.
  induction l as [|b l IH]; intros k n a; simpl; [contradiction|].
  intros [[= <- <-]|H].
  - split; [lia|]. now rewrite Z.sub_diag.
  - apply IH in H. destruct H as [Hk Hn]. split; [lia|].
    replace (Z.to_nat (n - k)) with (S (Z.to_nat (n - (k + 1)))) by lia.
    exact Hn.
Qed.

Lemma map_snd_enumerate {A : Type} (l : list A) :
  forall k, map snd (enumerate l k) = l.
Proof.
  induction l as [|a l IH]; intros k; simpl; [reflexivity|].
  now rewrite IH.
Qed.

(** The justification of the record of line [n] (counted from 0) of an
    ignore list. *)
Lemma ignore_reason_ok (lines : list str) (n : Z) (l : str) :
  0 <= n -> nth_error lines (Z.to_nat n) = Some l ->
  exists why,
    Eslint.get_reason_for_ignore_file n lines = Ok why
    /\ (n = 0 -> why = Some [])
    /\ (0 < n ->
        exists prev,
          line_at lines n = Some prev
          /\ match rematch Eslint.comment_pattern prev with
             | Some m =>
                 exists g, m_caps m 1%nat = Some g /\ why = Some [strip g]
             | None => why = None
             end).
Proof.
  intros Hn Hl. unfold Eslint.get_reason_for_ignore_file.
  destruct (Z.ltb_spec n 1) as [H0|H1].
  - exists (Some []). split; [reflexivity|]. split; [reflexivity|]. lia.
  - assert (Hlt : (Z.to_nat n < length lines)%nat)
      by (apply nth_error_Some; congruence).
    destruct (nth_error lines (Z.to_nat (n - 1))) as [prev|] eqn:Hp;
      [|apply nth_error_None in Hp; lia].
    assert (Hat : line_at lines n = Some prev).
    { unfold line_at. destruct (Z.ltb_spec n 1); [lia|exact Hp]. }
    rewrite (getitem_nonneg lines (n - 1) prev); [|lia|exact Hp].
    cbn [Py.bind].
    destruct (rematch Eslint.comment_pattern prev) as [m|] eqn:Hm.
    + destruct (group_strip_ok _ _ _ 1%nat Hm) as (g & Hg & ->);
        [reflexivity | vm_compute; lia |].
      cbn [Py.bind]. eexists. split; [reflexivity|]. split; [lia|].
      intros _. exists prev. split; [exact Hat|]. rewrite Hm. eauto.
    + eexists. split; [reflexivity|]. split; [lia|].
      intros _. exists prev. split; [exact Hat|]. now rewrite Hm.
Qed.

Lemma scan_ignore_lines_shape (lines : list str) :
  forall gen,
    (forall n l, In (n, l) gen ->
                 0 <= n /\ nth_error lines (Z.to_nat n) = Some l) ->
    exists out,
      Eslint.scan_ignore_lines lines gen = Ok out
      /\ map Eslint.filepath out = filter names_path (map snd gen)
      /\ forall r, In r out -> ignore_list_shape lines r.
Proof.
  induction gen as [|[n l] gen IH]; intros Hg.
  - exists []. split; [reflexivity|]. split; [reflexivity|].
    intros r [].
  - destruct IH as (out & Ho & Hf & Hs);
      [intros n' l' H'; apply Hg; now right|].
    destruct (Hg n l (or_introl eq_refl)) as [Hn Hl].
    cbn [Eslint.scan_ignore_lines map filter snd].
    assert (Hnp : names_path l
                  = match rematch Eslint.comment_pattern l, l with
                    | Some _, _ => false
                    | None, [] => false
                    | None, _ :: _ => true
                    end) by reflexivity.
    destruct (rematch Eslint.comment_pattern l) as [m|] eqn:Hm.
    + rewrite Hnp. exists out. auto.
    + destruct l as [|a l'].
      * rewrite Hnp. exists out. auto.
      * rewrite Hnp.
        destruct (ignore_reason_ok lines n (a :: l') Hn Hl)
          as (why & Hw & H0 & H1).
        rewrite Hw, Ho. cbn [Py.bind]. eexists. split; [reflexivity|].
        split; [cbn [map Eslint.filepath]; now rewrite Hf|].
        intros r [<-|Hr]; [|auto].
        unfold ignore_list_shape. cbn [Eslint.rule Eslint.type_ Eslint.end_
          Eslint.start Eslint.filepath Eslint.reason].
        split; [reflexivity|]. split; [reflexivity|]. split; [reflexivity|].
        split.
        { unfold line_at. destruct (Z.ltb_spec (n + 1) 1); [lia|].
          now replace (n + 1 - 1) with n by lia. }
        split; [unfold names_path; now rewrite Hm|].
        split; [intros H; apply H0; lia|].
        intros H. replace (n + 1 - 1) with n by lia. apply H1. lia.
Qed.

(** The ignore-list scanner on a list that can be read. *)
Lemma ignore_list_scan_ok (fs : FS) (p : str) (raw : list str) :
  exists_ fs p = true -> readlines fs p = Ok raw ->
  exists out,
    Eslint.scan_eslint_ignore_file fs p = ([], Ok out)
    /\ map Eslint.filepath out = filter names_path (map strip raw)
    /\ forall r, In r out -> ignore_list_shape (map strip raw) r.
Proof.
  intros He Hr.
  destruct (scan_ignore_lines_shape (map strip raw)
              (enumerate (map strip raw) 0)) as (out & Ho & Hf & Hs).
  { intros n l H. apply enumerate_nth in H. destruct H as [Hn Hl].
    split; [exact Hn|]. now rewrite Z.sub_0_r in Hl. }
  exists out. split; [|split; [|exact Hs]].
  - unfold Eslint.scan_eslint_ignore_file. rewrite He, Hr.
    cbn [negb lift iobind]. rewrite Ho. reflexivity.
  - now rewrite Hf, map_snd_enumerate.
Qed.

(** X15.  The ignore-list scanner of Dialect A returns for every list it
    can read: one record for each line that, once stripped, is neither
    empty nor a comment, in the order of the lines.  A record holds the
    text of its line as its path, the number of the line as its span, no
    rule and the ignore-list type; on line 1 its justification is the
    empty list, below it is the one fragment of the line above when that
    line is a comment and [None] when it is not. *)
Theorem ignore_list_scanner (fs : FS) (p : str) (raw : list str) :
  exists_ fs p = true -> readlines fs p = Ok raw ->
  exists out,
    Eslint.scan_eslint_ignore_file fs p = ([], Ok out)
    /\ map Eslint.filepath out = filter names_path (map strip raw)
    /\ forall r, In r out -> ignore_list_shape (map strip raw) r.
Proof. apply ignore_list_scan_ok. Qed.

End IgnoreList.

(* ================================================================== *)
(** ** The scan of a directory *)

Section Aggregation.
Import Py Re Out Inv Ext.

Lemma scanned_cons (fs : FS) (dirs : list str) (file : str)
  (paths : list str) :
  scanned fs dirs (file :: paths)
  = if existsb (fun d => is_relative_to fs file d) dirs
    then scanned fs dirs paths
    else file :: scanned fs dirs paths.
Proof.
  unfold scanned. cbn [filter].
  now destruct (existsb (fun d => is_relative_to fs file d) dirs).
Qed.

(** The scanner of Dialect A writes nothing of the report. *)
Lemma report_bind {A B : Type} (m : io A) (f : A -> io B) :
  report m = [] -> (forall a, report (f a) = []) ->
  report (iobind m f) = [].
Proof.
  intros Hm Hf. destruct m as [ev [a|e]]; [|exact Hm].
  destruct (iobind_ok (ev, Ok a) f a eq_refl) as [_ ->].
  now rewrite Hm, Hf.
Qed.

Lemma step_silent (fp : str) (lines : list str) (x : Z * str)
  (st : Eslint.state) :
  report (Eslint.step fp lines x st) = [].
Proof.
  destruct x as [n l]. unfold Eslint.step.
  destruct (Eslint.directive (strip l)) as [m|].
  - apply report_bind.
    + unfold Eslint.get_rule. destruct (group_strip m 1) as [r|[]];
        reflexivity.
    + intros r. apply report_bind; [reflexivity|]. intros why. reflexivity.
  - destruct (fst st); reflexivity.
Qed.

Lemma scan_silent (fp : str) (lines : list str) (gen : list (Z * str)) :
  forall st, report (Eslint.scan fp lines gen st) = [].
Proof.
  induction gen as [|x gen IH]; intros st; [reflexivity|].
  cbn [Eslint.scan]. apply report_bind; [apply step_silent|].
  intros st'. apply IH.
Qed.

Lemma find_ignores_in_silent (fp : str) (lines : list str) :
  report (Eslint.find_ignores_in fp lines) = [].
Proof.
  unfold Eslint.find_ignores_in. apply report_bind; [apply scan_silent|].
  intros st. reflexivity.
Qed.

(** A file that can be read is scanned to the end, in both dialects. *)
Lemma pylint_find_ignores_ok (fs : FS) (p : str) (lines : list str) :
  readlines fs p = Ok lines ->
  exists o, Pylint.find_ignores_in p lines = Ok o
            /\ Pylint.find_ignores fs p = ([], Ok o).
Proof.
  intros H. destruct (scan_file_B p lines) as (st & Hs & _).
  exists (Pylint.flush st). split; [now apply find_ignores_in_B|].
  unfold Pylint.find_ignores. rewrite H. cbn [lift iobind].
  rewrite (find_ignores_in_B _ _ _ Hs). reflexivity.
Qed.

Lemma eslint_find_ignores_ok (fs : FS) (p : str) (lines : list str) :
  readlines fs p = Ok lines ->
  snd (Eslint.find_ignores fs p) = Ok (eslint_records p lines)
  /\ report (Eslint.find_ignores fs p) = [].
Proof.
  intros H. unfold Eslint.find_ignores. rewrite H.
  destruct (iobind_ok (lift (Ok lines))
              (fun lines => Eslint.find_ignores_in p lines) lines eq_refl)
    as [-> ->].
  split; [apply find_ignores_in_pick|].
  apply find_ignores_in_silent.
Qed.

Lemma pylint_scan_paths_ok (fs : FS) (dirs : list str)
  (content : str -> list str) :
  forall paths acc,
    (forall p, In p (scanned fs dirs paths) ->
               readlines fs p = Ok (content p)) ->
    exists outs,
      Forall2 (fun p o => Pylint.find_ignores_in p (content p) = Ok o)
              (scanned fs dirs paths) outs
      /\ Pylint.scan_paths fs dirs paths acc
         = ([], Ok (fst acc ++ concat outs,
                    snd acc + Z.of_nat (length outs))).
Proof.
  induction paths as [|file paths IH]; intros acc Hr.
  - exists []. split; [constructor|]. destruct acc as [l c].
    cbn. now rewrite app_nil_r, Z.add_0_r.
  - rewrite scanned_cons in Hr |- *. cbn [Pylint.scan_paths].
    destruct (existsb (fun d => is_relative_to fs file d) dirs).
    + now apply IH.
    + destruct (pylint_find_ignores_ok fs file (content file))
        as (o & Ho & Hf); [apply Hr; now left|].
      destruct (IH (fst acc ++ o, snd acc + 1)) as (outs & Hall & Hs);
        [intros p Hp; apply Hr; now right|].
      exists (o :: outs). split; [now constructor|].
      rewrite Hf. cbn [iobind]. rewrite Hs. cbn [fst snd concat length app].
      rewrite <- app_assoc. do 3 f_equal. lia.
Qed.

(** X16.  The directory loop of [main] of Dialect B, when every file it
    scans can be read: the records are those of the files, file after
    file in the order of the traversal, after the records it starts
    from; the count grows by the number of files scanned.  The files
    below an excluded directory are not read. *)
Theorem pylint_directory_scan (fs : FS) (dirs paths : list str)
  (acc : list Pylint.Ignore * Z) (content : str -> list str) :
  (forall p, In p (scanned fs dirs paths) ->
             readlines fs p = Ok (content p)) ->
  exists outs,
    Forall2 (fun p o => Pylint.find_ignores_in p (content p) = Ok o)
            (scanned fs dirs paths) outs
    /\ Pylint.scan_paths fs dirs paths acc
       = ([], Ok (fst acc ++ concat outs,
                  snd acc + Z.of_nat (length outs))).
Proof. apply pylint_scan_paths_ok. Qed.

Lemma eslint_scan_paths_ok (fs : FS) (dirs : list str)
  (content : str -> list str) :
  forall paths acc,
    (forall p, In p (scanned fs dirs paths) ->
               readlines fs p = Ok (content p)) ->
    snd (Eslint.scan_paths fs dirs paths acc)
    = Ok (fst acc
            ++ flat_map (fun p => eslint_records p (content p))
                        (scanned fs dirs paths),
          snd acc + Z.of_nat (length (scanned fs dirs paths)))
    /\ report (Eslint.scan_paths fs dirs paths acc) = [].
Proof.
  induction paths as [|file paths IH]; intros acc Hr.
  - destruct acc as [l c]. cbn. now rewrite app_nil_r, Z.add_0_r.
  - rewrite scanned_cons in Hr |- *. cbn [Eslint.scan_paths].
    destruct (existsb (fun d => is_relative_to fs file d) dirs).
    + now apply IH.
    + destruct (eslint_find_ignores_ok fs file (content file))
        as [Hf Hrep]; [apply Hr; now left|].
      destruct (iobind_ok (Eslint.find_ignores fs file)
                  (fun found =>
                     Eslint.scan_paths fs dirs paths
                       (fst acc ++ found, snd acc + 1)) _ Hf) as [-> ->].
      destruct (IH (fst acc ++ eslint_records file (content file),
                    snd acc + 1)) as [-> ->];
        [intros p Hp; apply Hr; now right|].
      rewrite Hrep. split; [|reflexivity].
      cbn [fst snd flat_map length]. rewrite <- app_assoc.
      do 2 f_equal. lia.
Qed.

(** X17.  The directory loop of [main] of Dialect A, when every file it
    scans can be read, returns: the records are those of the files, file
    after file in the order of the traversal, after the records it
    starts from (the records of the ignore list); the count grows by the
    number of files scanned; nothing of the report is written. *)
Theorem eslint_directory_scan (fs : FS) (dirs paths : list str)
  (acc : list Eslint.Ignore * Z) (content : str -> list str) :
  (forall p, In p (scanned fs dirs paths) ->
             readlines fs p = Ok (content p)) ->
  snd (Eslint.scan_paths fs dirs paths acc)
  = Ok (fst acc
          ++ flat_map (fun p => eslint_records p (content p))
                      (scanned fs dirs paths),
        snd acc + Z.of_nat (length (scanned fs dirs paths)))
  /\ report (Eslint.scan_paths fs dirs paths acc) = [].
Proof. apply eslint_scan_paths_ok. Qed.

Lemma scan_paths_abort (fs : FS) (dirs : list str)
  (content : str -> list str) (p : str) (post : list str) (e : exn) :
  readlines fs p = Raise e ->
  forall paths pre accA accB,
    scanned fs dirs paths = pre ++ p :: post ->
    (forall q, In q pre -> readlines fs q = Ok (content q)) ->
    snd (Eslint.scan_paths fs dirs paths accA) = Raise e
    /\ snd (Pylint.scan_paths fs dirs paths accB) = Raise e.
Proof.
  intros He. induction paths as [|file paths IH]; intros pre accA accB Hs Hr.
  - destruct pre; discriminate.
  - rewrite scanned_cons in Hs.
    cbn [Eslint.scan_paths Pylint.scan_paths].
    destruct (existsb (fun d => is_relative_to fs file d) dirs).
    + now apply (IH pre).
    + destruct pre as [|q pre]; cbn [app] in Hs; injection Hs as -> Hs.
      * split.
        -- apply iobind_raise. unfold Eslint.find_ignores. rewrite He.
           reflexivity.
        -- apply iobind_raise. unfold Pylint.find_ignores. rewrite He.
           reflexivity.
      * assert (Hq : readlines fs q = Ok (content q))
          by (apply Hr; now left).
        destruct (eslint_find_ignores_ok fs q _ Hq) as [HfA _].
        destruct (pylint_find_ignores_ok fs q _ Hq) as (o & _ & HfB).
        destruct (iobind_ok (Eslint.find_ignores fs q)
                    (fun found =>
                       Eslint.scan_paths fs dirs paths
                         (fst accA ++ found, snd accA + 1)) _ HfA)
          as [-> _].
        rewrite HfB. cbn [iobind].
        destruct (IH pre (fst accA ++ eslint_records q (content q),
                          snd accA + 1)
                    (fst accB ++ o, snd accB + 1) Hs) as [HA HB];
          [intros q' Hq'; apply Hr; now right|].
        split; [exact HA|].
        destruct (Pylint.scan_paths fs dirs paths
                    (fst accB ++ o, snd accB + 1)) as [ev r].
        simpl in HB. subst r. reflexivity.
Qed.

(** X18.  In the directory loop of [main] of either dialect, the first
    file that cannot be read ends the loop with its exception: no file
    is skipped, and the files after it are not scanned. *)
Theorem unreadable_file_aborts_directory_scan (fs : FS)
  (dirs paths pre post : list str) (p : str) (e : exn)
  (content : str -> list str) (accA : list Eslint.Ignore * Z)
  (accB : list Pylint.Ignore * Z) :
  scanned fs dirs paths = pre ++ p :: post ->
  (forall q, In q pre -> readlines fs q = Ok (content q)) ->
  readlines fs p = Raise e ->
  snd (Eslint.scan_paths fs dirs paths accA) = Raise e
  /\ snd (Pylint.scan_paths fs dirs paths accB) = Raise e.
Proof.
  intros Hs Hr He. now apply (scan_paths_abort fs dirs content p post e He
                                paths pre).
Qed.

End Aggregation.

(* ================================================================== *)
(** ** Dialect A: the policy gate and the report *)

Section GateAndReportA.
Import Py Re Out Inv Ext.

Lemma for_each_events_in {A : Type} (f : A -> list event)
  (body : A -> io unit) (l : list A) :
  (forall a, In a l -> body a = (f a, Ok tt)) ->
  for_each l body = (flat_map f l, Ok tt).
Proof.
  induction l as [|a l IH]; intros Hb; [reflexivity|].
  cbn [for_each flat_map]. rewrite Hb by now left.
  rewrite IH by (intros b Hb'; apply Hb; now right). reflexivity.
Qed.

(** The dictionary of a record that has a type. *)
Lemma values_typed (i : Eslint.Ignore) :
  Eslint.type_ i <> None ->
  exists v,
    Eslint.values i = ([], Ok v)
    /\ Eslint.File v = Eslint.filepath i
    /\ Eslint.Line_section v
       = str_of_Z (Eslint.start i) ++ L "-" ++ str_of_Z (Eslint.end_ i)
    /\ Some (Eslint.Type_ v) = option_map Eslint.value (Eslint.type_ i)
    /\ Eslint.Rule v = Eslint.rule_text (Eslint.rule i)
    /\ Eslint.Reason v = Eslint.reason_text (Eslint.reason i).
Proof.
  intros Ht. unfold Eslint.values.
  destruct (Eslint.type_ i) as [t|]; [|congruence].
  eexists. split; [reflexivity|]. simpl. auto.
Qed.

Lemma filter_io_typed (ignores : list Eslint.Ignore) :
  (forall r, In r ignores -> Eslint.type_ r <> None) ->
  filter_io (fun i => v <~ Eslint.values i ;;
                      ret (str_eqb (Eslint.Reason v) Eslint.NO_REASON))
            ignores
  = ([], Ok (filter eslint_bad ignores)).
Proof.
  induction ignores as [|i l IH]; intros Ht; [reflexivity|].
  cbn [filter_io filter].
  destruct (values_typed i) as (v & -> & _ & _ & _ & _ & Hr);
    [apply Ht; now left|].
  rewrite IH by (intros r Hr'; apply Ht; now right).
  cbn [iobind ret app]. unfold eslint_bad at 1. now rewrite Hr.
Qed.

Lemma filter_In_sub {A : Type} (f : A -> bool) (l : list A) (a : A) :
  In a (filter f l) -> In a l.
Proof. intros H. now apply filter_In in H. Qed.

Lemma flat_map_singleton {A B : Type} (f : A -> B) (l : list A) :
  flat_map (fun x => [f x]) l = map f l.
Proof.
  induction l as [|a l IH]; [reflexivity|]. cbn [flat_map map app].
  now rewrite IH.
Qed.

(** A run of the gate of Dialect A on records that have a type. *)
Lemma eslint_gate_run (ignores : list Eslint.Ignore) :
  (forall r, In r ignores -> Eslint.type_ r <> None) ->
  let bad := filter eslint_bad ignores in
  (bad = [] /\ Eslint.catch_bad_ignores ignores = ([], Ok tt))
  \/ (bad <> []
      /\ Eslint.catch_bad_ignores ignores
         = (Log ERROR
              (L "ERROR: The following ignores were detected without any reasons for justification. Please ensure that a reason is given either in the same comment line, or in comments immediately below the original ignore.")
              []
              :: map eslint_gate_line (enumerate bad 1),
            Raise (SystemExit 1))).
Proof.
  intros Ht bad. unfold Eslint.catch_bad_ignores.
  rewrite (filter_io_typed ignores Ht). fold bad. cbn [iobind app].
  assert (Hb : forall r, In r bad -> Eslint.type_ r <> None)
    by (intros r Hr; apply Ht; now apply filter_In_sub in Hr).
  destruct bad as [|b bad']; [left; auto|right].
  split; [discriminate|].
  rewrite (for_each_events_in (fun x => [eslint_gate_line x])).
  - cbn [emit iobind app exit raise]. rewrite app_nil_r.
    now rewrite flat_map_singleton.
  - intros [n r] Hin. cbn [snd fst].
    destruct (values_typed r) as (v & -> & Hf & Hl & _);
      [apply Hb; eapply in_enumerate_snd; eauto|].
    cbn [iobind app emit]. unfold eslint_gate_line. cbn [fst snd].
    now rewrite Hf, Hl.
Qed.

Lemma gate_line_silent (l : list (Z * Eslint.Ignore)) :
  filter is_report (map eslint_gate_line l) = [].
Proof. induction l as [|x l IH]; [reflexivity|exact IH]. Qed.

(** X19.  The gate of Dialect A on records that have a type, as the
    records of the two scanners do.  When no record renders the text
    that stands for a missing reason the gate returns and logs nothing.
    A record whose justification is [None] or the empty list is among
    the offending records, and the gate then logs the heading and one
    line for each offending record, numbered from 1 and naming its path
    and its lines, in the order of the records, and ends the run with
    status 1; it logs nothing else and writes nothing of the report. *)
Theorem eslint_gate (ignores : list Eslint.Ignore) :
  (forall r, In r ignores -> Eslint.type_ r <> None) ->
  ((forall r, In r ignores -> eslint_bad r = false) ->
   Eslint.catch_bad_ignores ignores = ([], Ok tt))
  /\ (forall r, In r ignores ->
        Eslint.reason r = None \/ Eslint.reason r = Some [] ->
        In r (filter eslint_bad ignores)
        /\ Eslint.catch_bad_ignores ignores
           = (Log ERROR
                (L "ERROR: The following ignores were detected without any reasons for justification. Please ensure that a reason is given either in the same comment line, or in comments immediately below the original ignore.")
                []
                :: map eslint_gate_line
                       (enumerate (filter eslint_bad ignores) 1),
              Raise (SystemExit 1))).
Proof.
  intros Ht. split.
  - intros Hall.
    destruct (eslint_gate_run ignores Ht) as [[_ H]|[Hbad _]]; [exact H|].
    exfalso. apply Hbad. now apply filter_nil_iff.
  - intros r Hr He.
    assert (Hin : In r (filter eslint_bad ignores)).
    { apply filter_In. split; [exact Hr|]. unfold eslint_bad.
      destruct He as [-> | ->]; reflexivity. }
    split; [exact Hin|].
    destruct (eslint_gate_run ignores Ht) as [[Hnil _]|[_ H]]; [|exact H].
    rewrite Hnil in Hin. destruct Hin.
Qed.

Lemma console_is_report (i : Eslint.Ignore) :
  filter is_report (eslint_console i) = eslint_console i.
Proof. unfold eslint_console. destruct (Eslint.type_ i); reflexivity. Qed.

Lemma eslint_console_report (l : list Eslint.Ignore) :
  filter is_report (flat_map eslint_console l) = flat_map eslint_console l.
Proof.
  induction l as [|i l IH]; [reflexivity|].
  cbn [flat_map]. now rewrite filter_app, IH, console_is_report.
Qed.

Lemma export_body_typed (i : Eslint.Ignore) :
  Eslint.type_ i <> None ->
  (v <~ Eslint.values i ;;
   emit (Print (L "File: " ++ Eslint.File v)) ;;;
   emit (Print (L "Lines: " ++ Eslint.Line_section v)) ;;;
   emit (Print (L "Type: " ++ Eslint.Type_ v)) ;;;
   emit (Print (L "Rule: " ++ Eslint.Rule v)) ;;;
   emit (Print (L "Reason: " ++ Eslint.Reason v)) ;;;
   emit (Print []))
  = (eslint_console i, Ok tt).
Proof.
  intros Ht. unfold Eslint.values, eslint_console.
  destruct (Eslint.type_ i) as [t|]; [|congruence]. reflexivity.
Qed.

Lemma eslint_export_console (fs : FS) (ignores : list Eslint.Ignore) :
  (forall r, In r ignores -> Eslint.type_ r <> None) ->
  Eslint.export fs None ignores = (flat_map eslint_console ignores, Ok tt).
Proof.
  intros Ht. unfold Eslint.export.
  apply for_each_events_in. intros i Hi. apply export_body_typed. auto.
Qed.

(** X20.  The console report of Dialect A.  For records that have a type
    it is six lines for each record, in the order of the records, and
    the call returns.  A record without a type ends the run with status
    1 once the records before it are printed; it and the records after
    it are not printed. *)
Theorem eslint_export (fs : FS) :
  (forall ignores,
      (forall r, In r ignores -> Eslint.type_ r <> None) ->
      Eslint.export fs None ignores
      = (flat_map eslint_console ignores, Ok tt))
  /\ (forall pre i post,
         (forall r, In r pre -> Eslint.type_ r <> None) ->
         Eslint.type_ i = None ->
         snd (Eslint.export fs None (pre ++ i :: post))
         = Raise (SystemExit 1)
         /\ report (Eslint.export fs None (pre ++ i :: post))
            = flat_map eslint_console pre).
Proof.
  split; [apply eslint_export_console|].
  intros pre i post Ht Hi. unfold Eslint.export.
  induction pre as [|r pre IH]; cbn [app for_each].
  - unfold Eslint.values. rewrite Hi. split; reflexivity.
  - rewrite export_body_typed by (apply Ht; now left).
    destruct IH as [IHs IHr]; [intros q Hq; apply Ht; now right|].
    destruct (iobind_ok (eslint_console r, Ok tt)
                (fun _ =>
                   for_each (pre ++ i :: post)
                     (fun i0 =>
                        v <~ Eslint.values i0 ;;
                        emit (Print (L "File: " ++ Eslint.File v)) ;;;
                        emit (Print (L "Lines: " ++ Eslint.Line_section v)) ;;;
                        emit (Print (L "Type: " ++ Eslint.Type_ v)) ;;;
                        emit (Print (L "Rule: " ++ Eslint.Rule v)) ;;;
                        emit (Print (L "Reason: " ++ Eslint.Reason v)) ;;;
                        emit (Print []))) tt eq_refl) as [-> ->].
    rewrite IHs, IHr. split; [reflexivity|]. cbn [flat_map]. f_equal.
    unfold report. cbn [fst]. apply console_is_report.
Qed.

End GateAndReportA.


(* ================================================================== *)
(** ** Runs of [main] *)

Section MainRuns.
Import Py Re Out Inv Ext.

Lemma in_iobind {A B : Type} (m : io A) (f : A -> io B) (a : A)
  (e : event) :
  snd m = Ok a -> In e (fst (f a)) -> In e (fst (iobind m f)).
Proof.
  destruct m as [ev [a'|x]]; simpl; intros [= ->].
  destruct (f a) as [ev' r]. simpl. intros H. apply in_or_app. now right.
Qed.

(** A step and a collection that succeed without writing any of the
    report, and what follows them. *)
Lemma after_prefix {X : Type} (p : io unit) (A : io X)
  (k : X -> io unit) (x : X) :
  snd p = Ok tt -> report p = [] ->
  snd A = Ok x -> report A = [] ->
  snd (p ;;; (a <~ A ;; k a)) = snd (k x)
  /\ report (p ;;; (a <~ A ;; k a)) = report (k x)
  /\ forall e, In e (fst (k x)) -> In e (fst (p ;;; (a <~ A ;; k a))).
Proof.
  intros Sp Rp SA RA.
  destruct (iobind_ok p (fun _ => a <~ A ;; k a) tt Sp) as [-> ->].
  destruct (iobind_ok A (fun a => k a) x SA) as [-> ->].
  rewrite Rp, RA. split; [reflexivity|]. split; [reflexivity|].
  intros e He. apply (in_iobind p _ tt e Sp).
  now apply (in_iobind A (fun a => k a) x e SA).
Qed.

Lemma after_prefix_raise {X : Type} (p : io unit) (A : io X)
  (k : X -> io unit) (e : exn) :
  snd p = Ok tt -> report p = [] ->
  snd A = Raise e -> report A = [] ->
  snd (p ;;; (a <~ A ;; k a)) = Raise e
  /\ report (p ;;; (a <~ A ;; k a)) = [].
Proof.
  intros Sp Rp SA RA.
  destruct (iobind_ok p (fun _ => a <~ A ;; k a) tt Sp) as [-> ->].
  destruct (iobind_raise A (fun a => k a) e SA) as [-> ->].
  rewrite Rp, RA. auto.
Qed.

(** The export directory step: it raises when [mkdir] does, and leaves
    the file system with the directories made. *)
Lemma export_dir_step_result (fs : FS) (d : option str) :
  report (export_dir_step fs d) = []
  /\ (mkdir_fails fs d = true ->
      snd (export_dir_step fs d) = Raise OSError)
  /\ (mkdir_fails fs d = false ->
      snd (export_dir_step fs d) = Ok (after_export_dir fs d)).
Proof.
  unfold mkdir_fails, export_dir_step, after_export_dir.
  destruct d as [d|]; [|split; [reflexivity|split; [discriminate|auto]]].
  destruct (exists_ fs d); cbn [negb andb];
    [split; [reflexivity|split; [discriminate|auto]]|].
  destruct (mkdir fs d); split; try reflexivity; split; intros H;
    try discriminate; reflexivity.
Qed.

(** A run of [main]: the warning, the export directory step and the
    rest. *)
Lemma run_after_export_dir (p1 : io unit) (fs : FS) (d : option str)
  (rest : FS -> io unit) :
  snd p1 = Ok tt -> report p1 = [] ->
  let m := p1 ;;; (f <~ export_dir_step fs d ;; rest f) in
  (mkdir_fails fs d = true -> snd m = Raise OSError /\ report m = [])
  /\ (mkdir_fails fs d = false ->
      snd m = snd (rest (after_export_dir fs d))
      /\ report m = report (rest (after_export_dir fs d))
      /\ forall e, In e (fst (rest (after_export_dir fs d))) ->
                   In e (fst m)).
Proof.
  intros Sp Rp m.
  destruct (export_dir_step_result fs d) as (Rs & Hf & Ho).
  destruct (iobind_ok p1 (fun _ => f <~ export_dir_step fs d ;; rest f)
              tt Sp) as [Hs Hr].
  fold m in Hs, Hr. rewrite Hs, Hr, Rp. split.
  - intros H. specialize (Hf H).
    destruct (iobind_raise (export_dir_step fs d) (fun f => rest f) _ Hf)
      as [-> ->]. now rewrite Rs.
  - intros H. specialize (Ho H).
    destruct (iobind_ok (export_dir_step fs d) (fun f => rest f) _ Ho)
      as [-> ->]. rewrite Rs. split; [reflexivity|]. split; [reflexivity|].
    intros e He. apply (in_iobind p1 _ tt e Sp).
    now apply (in_iobind (export_dir_step fs d) (fun f => rest f) _ e Ho).
Qed.

Lemma pylint_main_cases (fs : FS) (args : Pylint.Args) :
  let fs' := after_export_dir fs (Pylint.output_dir args) in
  (mkdir_fails fs (Pylint.output_dir args) = true ->
   snd (Pylint.main fs args) = Raise OSError
   /\ report (Pylint.main fs args) = [])
  /\ (mkdir_fails fs (Pylint.output_dir args) = false ->
      snd (Pylint.main fs args) = snd (pylint_rest fs' args)
      /\ report (Pylint.main fs args) = report (pylint_rest fs' args)
      /\ forall e, In e (fst (pylint_rest fs' args)) ->
                   In e (fst (Pylint.main fs args))).
Proof.
  apply (run_after_export_dir _ fs (Pylint.output_dir args)
           (fun f => pylint_rest f args));
    destruct (Pylint.output_dir args); reflexivity.
Qed.

Lemma eslint_main_cases (fs : FS) (args : Eslint.Args) :
  let fs' := after_export_dir fs (Eslint.output_dir args) in
  (mkdir_fails fs (Eslint.output_dir args) = true ->
   snd (Eslint.main fs args) = Raise OSError
   /\ report (Eslint.main fs args) = [])
  /\ (mkdir_fails fs (Eslint.output_dir args) = false ->
      snd (Eslint.main fs args) = snd (eslint_rest fs' args)
      /\ report (Eslint.main fs args) = report (eslint_rest fs' args)
      /\ forall e, In e (fst (eslint_rest fs' args)) ->
                   In e (fst (Eslint.main fs args))).
Proof.
  apply (run_after_export_dir _ fs (Eslint.output_dir args)
           (fun f => eslint_rest f args));
    destruct (Eslint.output_dir args); reflexivity.
Qed.

(** What was there before the export directory step is there after it,
    and reads as before. *)
Lemma after_export_dir_kept (fs : FS) (d : option str) (p : str) :
  exists_ fs p = true ->
  exists_ (after_export_dir fs d) p = true
  /\ is_file (after_export_dir fs d) p = is_file fs p
  /\ readlines (after_export_dir fs d) p = readlines fs p.
Proof.
  intros H. unfold after_export_dir. destruct d as [d|]; [|auto].
  destruct (exists_ fs d); [auto|].
  destruct (mkdir fs d) as [made|]; [|auto].
  cbn. rewrite H. cbn. rewrite andb_false_r. auto.
Qed.

Lemma after_export_dir_joinpath (fs : FS) (d : option str) :
  joinpath (after_export_dir fs d) = joinpath fs.
Proof.
  unfold after_export_dir. destruct d as [d|]; [|auto].
  destruct (exists_ fs d); [auto|]. now destruct (mkdir fs d).
Qed.

Lemma pylint_after_scan_fs (fs : FS) (d : option str) (args : Pylint.Args)
  (l : list Pylint.Ignore) (c : Z) :
  pylint_after_scan (after_export_dir fs d) args l c
  = pylint_after_scan fs args l c.
Proof.
  unfold pylint_after_scan, Pylint.export.
  now rewrite after_export_dir_joinpath.
Qed.

Lemma eslint_after_scan_fs (fs : FS) (d : option str) (args : Eslint.Args)
  (iif l : list Eslint.Ignore) (c : Z) :
  eslint_after_scan (after_export_dir fs d) args iif l c
  = eslint_after_scan fs args iif l c.
Proof.
  unfold eslint_after_scan, Eslint.export.
  now rewrite after_export_dir_joinpath.
Qed.

(** The rest of [main] of Dialect B on a single file that can be read. *)
Lemma pylint_rest_file (fs : FS) (args : Pylint.Args) (lines : list str)
  (out : list Pylint.Ignore) :
  exists_ fs (Pylint.path args) = true ->
  is_file fs (Pylint.path args) = true ->
  readlines fs (Pylint.path args) = Ok lines ->
  Pylint.find_ignores_in (Pylint.path args) lines = Ok out ->
  snd (pylint_rest fs args) = snd (pylint_after_scan fs args out 1)
  /\ report (pylint_rest fs args)
     = report (pylint_after_scan fs args out 1).
Proof.
  intros H1 H2 H3 H4. unfold pylint_rest.
  destruct (after_prefix
              (if negb (exists_ fs (Pylint.path args))
               then emit (Log ERROR
                            (L "ERROR: Specified path '%s' does not exist")
                            [resolve fs (Pylint.path args)]) ;;; exit 1
               else ret tt)
              (if is_file fs (Pylint.path args)
               then found <~ Pylint.find_ignores fs (Pylint.path args) ;;
                    ret (found, 1)
               else Pylint.scan_paths fs
                      match Pylint.ignore_dirs args with
                      | Some s => map strip (split "," s)
                      | None => []
                      end
                      (glob fs (Pylint.path args) "**/*.py") ([], 0))
              (fun acc => pylint_after_scan fs args (fst acc) (snd acc))
              (out, 1)) as (Hs & Hr & _).
  - rewrite H1. reflexivity.
  - rewrite H1. reflexivity.
  - rewrite H2. unfold Pylint.find_ignores, lift. rewrite H3.
    cbn [iobind]. rewrite H4. reflexivity.
  - rewrite H2. unfold Pylint.find_ignores, lift. rewrite H3.
    cbn [iobind]. rewrite H4. reflexivity.
  - split; [exact Hs | exact Hr].
Qed.

Lemma pylint_rest_unreadable (fs : FS) (args : Pylint.Args) (e : exn) :
  exists_ fs (Pylint.path args) = true ->
  is_file fs (Pylint.path args) = true ->
  readlines fs (Pylint.path args) = Raise e ->
  snd (pylint_rest fs args) = Raise e /\ report (pylint_rest fs args) = [].
Proof.
  intros H1 H2 H3. unfold pylint_rest.
  apply after_prefix_raise.
  - rewrite H1. reflexivity.
  - rewrite H1. reflexivity.
  - rewrite H2. unfold Pylint.find_ignores, lift. rewrite H3. reflexivity.
  - rewrite H2. unfold Pylint.find_ignores, lift. rewrite H3. reflexivity.
Qed.

Lemma rest_missing_path (fs : FS) (argsA : Eslint.Args)
  (argsB : Pylint.Args) :
  (exists_ fs (Eslint.path argsA) = false ->
   snd (eslint_rest fs argsA) = Raise (SystemExit 1)
   /\ report (eslint_rest fs argsA) = [])
  /\ (exists_ fs (Pylint.path argsB) = false ->
      snd (pylint_rest fs argsB) = Raise (SystemExit 1)
      /\ report (pylint_rest fs argsB) = []).
Proof.
  split; intros H.
  - unfold eslint_rest. rewrite H. split; reflexivity.
  - unfold pylint_rest. rewrite H. split; reflexivity.
Qed.

(** [main] of Dialect B on a single file that can be read, when the
    export directory step does not raise. *)
Lemma pylint_main_file (fs : FS) (args : Pylint.Args) (lines : list str)
  (out : list Pylint.Ignore) :
  exists_ fs (Pylint.path args) = true ->
  is_file fs (Pylint.path args) = true ->
  readlines fs (Pylint.path args) = Ok lines ->
  Pylint.find_ignores_in (Pylint.path args) lines = Ok out ->
  mkdir_fails fs (Pylint.output_dir args) = false ->
  snd (Pylint.main fs args) = snd (pylint_after_scan fs args out 1)
  /\ report (Pylint.main fs args) = report (pylint_after_scan fs args out 1).
Proof.
  intros H1 H2 H3 H4 Hm.
  destruct (proj2 (pylint_main_cases fs args) Hm) as (-> & -> & _).
  destruct (after_export_dir_kept fs (Pylint.output_dir args) _ H1)
    as (K1 & K2 & K3).
  rewrite H2 in K2. rewrite H3 in K3.
  rewrite <- (pylint_after_scan_fs fs (Pylint.output_dir args)).
  now apply (pylint_rest_file _ args lines out).
Qed.

(** X10.  [main] of Dialect B on a file that has no directive line
    writes nothing of the report, with or without [--verify], and ends
    with status 0; when an export directory is to be made and [mkdir]
    raises, it ends with status 1. *)
Theorem pylint_main_nothing_found (fs : FS) (args : Pylint.Args)
  (lines : list str) :
  exists_ fs (Pylint.path args) = true ->
  is_file fs (Pylint.path args) = true ->
  readlines fs (Pylint.path args) = Ok lines ->
  (forall l, In l lines -> pylint_directive l = false) ->
  exit_code (Pylint.main fs args)
  = Some (if mkdir_fails fs (Pylint.output_dir args) then 1 else 0)
  /\ report (Pylint.main fs args) = [].
Proof.
  intros H1 H2 H3 Hno.
  destruct (mkdir_fails fs (Pylint.output_dir args)) eqn:Hm.
  - destruct (proj1 (pylint_main_cases fs args) Hm) as [Hs Hr].
    unfold exit_code. rewrite Hs, Hr. split; reflexivity.
  - destruct (pylint_main_file fs args lines [] H1 H2 H3
                (pylint_no_directive _ _ Hno) Hm) as [Hs Hr].
    unfold exit_code. rewrite Hs, Hr. split; reflexivity.
Qed.

(** X11.  Under [--verify], [main] of Dialect B on a file that has a
    record without justification ends with status 1, and nothing of the
    report is written: the gate stops the run before the report. *)
Theorem pylint_verify_blocks_report (fs : FS) (args : Pylint.Args)
  (lines : list str) (out : list Pylint.Ignore) (r : Pylint.Ignore) :
  exists_ fs (Pylint.path args) = true ->
  is_file fs (Pylint.path args) = true ->
  readlines fs (Pylint.path args) = Ok lines ->
  Pylint.find_ignores_in (Pylint.path args) lines = Ok out ->
  In r out -> Pylint.reason r = [] ->
  Pylint.verify args = true ->
  exit_code (Pylint.main fs args) = Some 1
  /\ report (Pylint.main fs args) = [].
Proof.
  intros H1 H2 H3 H4 Hr He Hv.
  destruct (mkdir_fails fs (Pylint.output_dir args)) eqn:Hm.
  { destruct (proj1 (pylint_main_cases fs args) Hm) as [Hs Hrep].
    unfold exit_code. rewrite Hs, Hrep. split; reflexivity. }
  destruct (pylint_main_file fs args lines out H1 H2 H3 H4 Hm)
    as [Hs Hrep].
  destruct (pylint_gate_fails out r Hr He) as [Hg Hgr].
  destruct out as [|r0 rest]; [contradiction|].
  destruct (after_scan_cons fs args r0 rest 1) as [Hs' Hrep'].
  rewrite Hv in Hs', Hrep'.
  destruct (iobind_raise (Pylint.catch_bad_ignores (r0 :: rest))
              (fun _ => Pylint.export fs (Pylint.output_dir args)
                          (r0 :: rest)) _ Hg) as [Hb Hbr].
  unfold exit_code. rewrite Hs, Hs', Hb, Hrep, Hrep', Hbr, Hgr.
  split; reflexivity.
Qed.

Lemma no_dir_no_mkdir (fs : FS) :
  mkdir_fails fs None = false /\ after_export_dir fs None = fs.
Proof. split; reflexivity. Qed.

(** X12.  [main] of Dialect B on a file with records, without an output
    directory, prints the four lines of every record and ends with
    status 0 when [--verify] is not given, and also when it is given and
    every record renders a reason. *)
Theorem pylint_main_prints_report (fs : FS) (args : Pylint.Args)
  (lines : list str) (out : list Pylint.Ignore) :
  exists_ fs (Pylint.path args) = true ->
  is_file fs (Pylint.path args) = true ->
  readlines fs (Pylint.path args) = Ok lines ->
  Pylint.find_ignores_in (Pylint.path args) lines = Ok out ->
  out <> [] ->
  Pylint.output_dir args = None ->
  Pylint.verify args = false
  \/ (forall r, In r out ->
                Pylint.Reason (Pylint.values r) <> Pylint.NO_REASON) ->
  exit_code (Pylint.main fs args) = Some 0
  /\ report (Pylint.main fs args) = flat_map pylint_console out.
Proof.
  intros H1 H2 H3 H4 Hne Hd Hv.
  assert (Hm : mkdir_fails fs (Pylint.output_dir args) = false)
    by now rewrite Hd.
  destruct (pylint_main_file fs args lines out H1 H2 H3 H4 Hm)
    as [Hs Hrep].
  destruct out as [|r0 rest]; [contradiction|].
  destruct (after_scan_cons fs args r0 rest 1) as [Hs' Hrep'].
  rewrite Hd, export_console in Hs', Hrep'.
  assert (Hg : (if Pylint.verify args
                then Pylint.catch_bad_ignores (r0 :: rest)
                else ret tt) = ([], Ok tt)).
  { destruct (Pylint.verify args) eqn:Ev; [|reflexivity].
    destruct Hv as [Hv|Hv]; [discriminate|].
    now apply pylint_gate_passes. }
  rewrite Hg in Hs', Hrep'.
  unfold exit_code. rewrite Hs, Hs', Hrep, Hrep'. split; [reflexivity|].
  unfold report. cbn [iobind fst app]. apply report_console.
Qed.

(** X13.  When the file [main] of Dialect B is to scan cannot be read,
    the exception ends the run and nothing of the report is written;
    when an export directory is to be made and [mkdir] raises, it is
    that exception that ends the run, before the file is opened. *)
Theorem pylint_unreadable_file_aborts (fs : FS) (args : Pylint.Args)
  (e : exn) :
  exists_ fs (Pylint.path args) = true ->
  is_file fs (Pylint.path args) = true ->
  readlines fs (Pylint.path args) = Raise e ->
  snd (Pylint.main fs args)
  = Raise (if mkdir_fails fs (Pylint.output_dir args) then OSError else e)
  /\ report (Pylint.main fs args) = [].
Proof.
  intros H1 H2 H3.
  destruct (mkdir_fails fs (Pylint.output_dir args)) eqn:Hm.
  - exact (proj1 (pylint_main_cases fs args) Hm).
  - destruct (proj2 (pylint_main_cases fs args) Hm) as (-> & -> & _).
    destruct (after_export_dir_kept fs (Pylint.output_dir args) _ H1)
      as (K1 & K2 & K3).
    rewrite H2 in K2. rewrite H3 in K3.
    now apply pylint_rest_unreadable.
Qed.

(** X14.  When the path to scan does not exist once the export
    directory step is done, that is when it was not there before and is
    not a directory that step makes, [main] of either dialect ends with
    status 1 and writes nothing of the report. *)
Theorem main_missing_path (fs : FS) (argsA : Eslint.Args)
  (argsB : Pylint.Args) :
  (exists_ (after_export_dir fs (Eslint.output_dir argsA))
           (Eslint.path argsA) = false ->
   exit_code (Eslint.main fs argsA) = Some 1
   /\ report (Eslint.main fs argsA) = [])
  /\ (exists_ (after_export_dir fs (Pylint.output_dir argsB))
              (Pylint.path argsB) = false ->
      exit_code (Pylint.main fs argsB) = Some 1
      /\ report (Pylint.main fs argsB) = []).
Proof.
  split; intros H.
  - destruct (mkdir_fails fs (Eslint.output_dir argsA)) eqn:Hm.
    + destruct (proj1 (eslint_main_cases fs argsA) Hm) as [Hs Hr].
      unfold exit_code. rewrite Hs, Hr. split; reflexivity.
    + destruct (proj2 (eslint_main_cases fs argsA) Hm) as (Hs & Hr & _).
      destruct (proj1 (rest_missing_path _ argsA argsB) H) as [Hs' Hr'].
      unfold exit_code. rewrite Hs, Hr, Hs', Hr'. split; reflexivity.
  - destruct (mkdir_fails fs (Pylint.output_dir argsB)) eqn:Hm.
    + destruct (proj1 (pylint_main_cases fs argsB) Hm) as [Hs Hr].
      unfold exit_code. rewrite Hs, Hr. split; reflexivity.
    + destruct (proj2 (pylint_main_cases fs argsB) Hm) as (Hs & Hr & _).
      destruct (proj2 (rest_missing_path _ argsA argsB) H) as [Hs' Hr'].
      unfold exit_code. rewrite Hs, Hr, Hs', Hr'. split; reflexivity.
Qed.



(** [main] of Dialect B on a directory whose files can be read. *)
Lemma pylint_rest_dir (fs : FS) (args : Pylint.Args)
  (recs : list Pylint.Ignore) (n : Z) :
  exists_ fs (Pylint.path args) = true ->
  is_file fs (Pylint.path args) = false ->
  Pylint.scan_paths fs
    match Pylint.ignore_dirs args with
    | Some s => map strip (split "," s)
    | None => []
    end
    (glob fs (Pylint.path args) "**/*.py") ([], 0)
  = ([], Ok (recs, n)) ->
  snd (pylint_rest fs args) = snd (pylint_after_scan fs args recs n)
  /\ report (pylint_rest fs args)
     = report (pylint_after_scan fs args recs n).
Proof.
  intros H1 H2 H3. unfold pylint_rest. rewrite H1, H2, H3.
  destruct (after_prefix (ret tt) (([], Ok (recs, n)) : io _)
              (fun acc => pylint_after_scan fs args (fst acc) (snd acc))
              (recs, n) eq_refl eq_refl eq_refl eq_refl) as (Hs & Hr & _).
  split; [exact Hs | exact Hr].
Qed.

(** X24.  [main] of Dialect B on a directory whose files can be read,
    without [--verify] and without an output directory, ends with
    status 0 and prints the records of the files it scans, file after
    file in the order of the traversal, four lines for each record; the
    files below an excluded directory are left out. *)
Theorem pylint_main_directory_report (fs : FS) (args : Pylint.Args)
  (content : str -> list str) :
  let dirs := match Pylint.ignore_dirs args with
              | Some s => map strip (split "," s)
              | None => []
              end in
  let files := scanned fs dirs (glob fs (Pylint.path args) "**/*.py") in
  exists_ fs (Pylint.path args) = true ->
  is_file fs (Pylint.path args) = false ->
  (forall p, In p files -> readlines fs p = Ok (content p)) ->
  Pylint.output_dir args = None ->
  Pylint.verify args = false ->
  exists outs,
    Forall2 (fun p o => Pylint.find_ignores_in p (content p) = Ok o)
            files outs
    /\ exit_code (Pylint.main fs args) = Some 0
    /\ report (Pylint.main fs args) = flat_map pylint_console (concat outs).
Proof.
  intros dirs files H1 H2 Hr Hd Hv.
  destruct (pylint_scan_paths_ok fs dirs content
              (glob fs (Pylint.path args) "**/*.py") ([], 0) Hr)
    as (outs & Hall & Hs).
  exists outs. split; [exact Hall|].
  cbn [fst snd app] in Hs. rewrite Z.add_0_l in Hs.
  assert (Hm : mkdir_fails fs (Pylint.output_dir args) = false)
    by now rewrite Hd.
  destruct (proj2 (pylint_main_cases fs args) Hm) as (Hms & Hmr & _).
  rewrite Hd in Hms, Hmr.
  change (after_export_dir fs None) with fs in Hms, Hmr.
  destruct (pylint_rest_dir fs args _ _ H1 H2 Hs) as [Hm' Hrep].
  unfold exit_code. rewrite Hms, Hmr, Hm', Hrep.
  destruct (concat outs) as [|r0 rest]; [split; reflexivity|].
  destruct (after_scan_cons fs args r0 rest (Z.of_nat (length outs)))
    as [Hs' Hrep'].
  rewrite Hv, Hd, export_console in Hs', Hrep'.
  rewrite Hs', Hrep'. split; [reflexivity|].
  unfold report. cbn [iobind ret fst app]. apply report_console.
Qed.

(** The records of both scanners of Dialect A have a type. *)
Lemma eslint_records_typed (fp : str) (lines : list str)
  (r : Eslint.Ignore) :
  In r (eslint_records fp lines) -> Eslint.type_ r <> None.
Proof.
  intros Hr. apply in_pick in Hr. destruct Hr as ([n l] & Hin & Hrec).
  apply in_enumerate in Hin.
  assert (Hs : eslint_shape fp lines r)
    by (eapply record_at_shape; eauto; lia).
  destruct Hs as (_ & _ & _ & _ & [[-> _]|[[-> | ->] _]]); discriminate.
Qed.

Lemma ignore_list_typed (fs : FS) (p : str) (iif : list Eslint.Ignore) :
  Eslint.scan_eslint_ignore_file fs p = ([], Ok iif) ->
  forall r, In r iif -> Eslint.type_ r <> None.
Proof.
  intros Hs r Hr. destruct (exists_ fs p) eqn:He.
  - destruct (readlines fs p) as [raw|e] eqn:Hraw.
    + destruct (ignore_list_scan_ok fs p raw He Hraw) as (out & Ho & _ & Hsh).
      rewrite Ho in Hs. injection Hs as <-.
      destruct (Hsh r Hr) as (_ & -> & _). discriminate.
    + unfold Eslint.scan_eslint_ignore_file in Hs. rewrite He, Hraw in Hs.
      discriminate.
  - unfold Eslint.scan_eslint_ignore_file in Hs. rewrite He in Hs.
    injection Hs as <-. destruct Hr.
Qed.

(** The ignore list after the export directory step: it is scanned as
    before, unless the step has made a directory at its path, which
    cannot be read. *)
Lemma ignore_scan_after (fs : FS) (d : option str) (ip : str)
  (iif : list Eslint.Ignore) :
  Eslint.scan_eslint_ignore_file fs ip = ([], Ok iif) ->
  Eslint.scan_eslint_ignore_file (after_export_dir fs d) ip = ([], Ok iif)
  \/ Eslint.scan_eslint_ignore_file (after_export_dir fs d) ip
     = ([], Raise OSError).
Proof.
  intros H. unfold after_export_dir. destruct d as [d|]; [|now left].
  destruct (exists_ fs d); [now left|].
  destruct (mkdir fs d) as [made|]; [|now left].
  unfold Eslint.scan_eslint_ignore_file in *.
  cbn [exists_ readlines with_dirs].
  destruct (exists_ fs ip); cbn [negb orb andb] in *.
  - rewrite andb_false_r. now left.
  - destruct (made ip); cbn [negb andb]; [now right|now left].
Qed.

(** The rest of [main] of Dialect A once the ignore list is scanned and
    the records are collected. *)
Lemma eslint_rest_collect (fs : FS) (args : Eslint.Args)
  (iif recs : list Eslint.Ignore) (n : Z) :
  exists_ fs (Eslint.path args) = true ->
  Eslint.scan_eslint_ignore_file fs (Eslint.eslint_ignore_path args)
  = ([], Ok iif) ->
  snd (eslint_collect fs args iif) = Ok (recs, n) ->
  report (eslint_collect fs args iif) = [] ->
  let rest := eslint_after_scan fs args iif recs n in
  snd (eslint_rest fs args) = snd rest
  /\ report (eslint_rest fs args) = report rest
  /\ forall e, In e (fst rest) -> In e (fst (eslint_rest fs args)).
Proof.
  intros H1 H4 HAs HAr rest. unfold eslint_rest.
  destruct (after_prefix
              (if negb (exists_ fs (Eslint.path args))
               then emit (Log ERROR
                            (L "ERROR: Specified path '%s' does not exist")
                            [resolve fs (Eslint.path args)]) ;;; exit 1
               else ret tt)
              (Eslint.scan_eslint_ignore_file fs
                 (Eslint.eslint_ignore_path args))
              (fun i => acc <~ eslint_collect fs args i ;;
                        eslint_after_scan fs args i (fst acc) (snd acc))
              iif) as (Hs & Hr & Hi).
  - rewrite H1. reflexivity.
  - rewrite H1. reflexivity.
  - now rewrite H4.
  - now rewrite H4.
  - rewrite Hs, Hr.
    destruct (iobind_ok (eslint_collect fs args iif)
                (fun acc => eslint_after_scan fs args iif (fst acc) (snd acc))
                _ HAs) as [-> ->].
    rewrite HAr. split; [reflexivity|]. split; [reflexivity|].
    intros e He. apply Hi.
    now apply (in_iobind (eslint_collect fs args iif) _ _ e HAs).
Qed.

Lemma eslint_rest_ignore_list_raises (fs : FS) (args : Eslint.Args)
  (e : exn) :
  exists_ fs (Eslint.path args) = true ->
  Eslint.scan_eslint_ignore_file fs (Eslint.eslint_ignore_path args)
  = ([], Raise e) ->
  snd (eslint_rest fs args) = Raise e /\ report (eslint_rest fs args) = [].
Proof.
  intros H1 H4. unfold eslint_rest. apply after_prefix_raise.
  - rewrite H1. reflexivity.
  - rewrite H1. reflexivity.
  - now rewrite H4.
  - now rewrite H4.
Qed.

Lemma eslint_collect_file (fs : FS) (args : Eslint.Args)
  (lines : list str) (iif : list Eslint.Ignore) :
  is_file fs (Eslint.path args) = true ->
  readlines fs (Eslint.path args) = Ok lines ->
  snd (eslint_collect fs args iif)
  = Ok (iif ++ eslint_records (Eslint.path args) lines, 1)
  /\ report (eslint_collect fs args iif) = [].
Proof.
  intros H2 H3. unfold eslint_collect. rewrite H2.
  destruct (eslint_find_ignores_ok fs _ _ H3) as [Hf Hfr].
  destruct (iobind_ok (Eslint.find_ignores fs (Eslint.path args))
              (fun found => ret (iif ++ found, 1)) _ Hf) as [-> ->].
  now rewrite Hfr.
Qed.

Lemma eslint_after_scan_cons (fs : FS) (args : Eslint.Args)
  (iif : list Eslint.Ignore) (r : Eslint.Ignore)
  (rest : list Eslint.Ignore) (c : Z) :
  let tail :=
    (if Eslint.verify args then Eslint.catch_bad_ignores (r :: rest)
     else ret tt) ;;;
    Eslint.export fs (Eslint.output_dir args) (r :: rest) in
  snd (eslint_after_scan fs args iif (r :: rest) c) = snd tail
  /\ report (eslint_after_scan fs args iif (r :: rest) c) = report tail
  /\ In (Log WARNING
           (L "WARNING: %d instance%s of ignores were detected across %d file%s, please assess if they are still relevant.")
           [str_of_Z (Z.of_nat (length (r :: rest))
                      - Z.of_nat (length iif));
            Eslint.plural (Z.of_nat (length (r :: rest)));
            str_of_Z c; Eslint.plural c])
        (fst (eslint_after_scan fs args iif (r :: rest) c)).
Proof.
  intros tail. unfold eslint_after_scan. fold tail.
  destruct tail as [ev res]. split; [reflexivity|]. split; [reflexivity|].
  now left.
Qed.

(** What the end of [main] of Dialect A does with records that have a
    type: under [--verify] with an offending record, and when no gate
    stops it before a console report. *)
Lemma eslint_after_scan_gated (fs : FS) (args : Eslint.Args)
  (iif l : list Eslint.Ignore) (c : Z) (r : Eslint.Ignore) :
  (forall x, In x l -> Eslint.type_ x <> None) ->
  In r l -> Eslint.reason r = None \/ Eslint.reason r = Some [] ->
  Eslint.verify args = true ->
  snd (eslint_after_scan fs args iif l c) = Raise (SystemExit 1)
  /\ report (eslint_after_scan fs args iif l c) = [].
Proof.
  intros Ht Hr He Hv.
  destruct l as [|r0 rest]; [contradiction|].
  destruct (eslint_after_scan_cons fs args iif r0 rest c)
    as (Hs' & Hrep' & _).
  rewrite Hv in Hs', Hrep'.
  destruct (eslint_gate_run (r0 :: rest) Ht) as [[Hnil _]|[_ Hg]].
  - exfalso. pose proof (proj1 (filter_nil_iff _ _) Hnil r Hr) as Hf.
    unfold eslint_bad in Hf. destruct He as [He|He]; rewrite He in Hf;
      discriminate.
  - rewrite Hg in Hs', Hrep'. rewrite Hs', Hrep'.
    split; [reflexivity|]. unfold report. cbn [iobind fst filter is_report].
    apply gate_line_silent.
Qed.

Lemma eslint_after_scan_console (fs : FS) (args : Eslint.Args)
  (iif l : list Eslint.Ignore) (c : Z) :
  (forall x, In x l -> Eslint.type_ x <> None) ->
  Eslint.output_dir args = None ->
  Eslint.verify args = false
  \/ (forall x, In x l -> eslint_bad x = false) ->
  exit_code (eslint_after_scan fs args iif l c) = Some 0
  /\ report (eslint_after_scan fs args iif l c)
     = flat_map eslint_console l.
Proof.
  intros Ht Hd Hv. unfold exit_code.
  destruct l as [|r0 rest]; [split; reflexivity|].
  destruct (eslint_after_scan_cons fs args iif r0 rest c)
    as (Hs' & Hrep' & _).
  rewrite Hd, (eslint_export_console fs _ Ht) in Hs', Hrep'.
  assert (Hg : (if Eslint.verify args
                then Eslint.catch_bad_ignores (r0 :: rest)
                else ret tt) = ([], Ok tt)).
  { destruct (Eslint.verify args) eqn:Ev; [|reflexivity].
    destruct Hv as [Hv|Hv]; [discriminate|].
    destruct (eslint_gate_run (r0 :: rest) Ht) as [[_ H]|[Hbad _]];
      [exact H|].
    exfalso. apply Hbad. now apply filter_nil_iff. }
  rewrite Hg in Hs', Hrep'. rewrite Hs', Hrep'. split; [reflexivity|].
  unfold report. cbn [iobind fst app]. apply eslint_console_report.
Qed.

(** X21.  [main] of Dialect A on a file, without an output directory,
    prints the records of the ignore list first and the records of the
    file after them, six lines for each, and ends with status 0 when
    [--verify] is not given, and also when it is given and no record is
    taken for an unjustified one. *)
Theorem eslint_report_lists_ignore_list_first (fs : FS)
  (args : Eslint.Args) (lines : list str) (iif : list Eslint.Ignore) :
  exists_ fs (Eslint.path args) = true ->
  is_file fs (Eslint.path args) = true ->
  readlines fs (Eslint.path args) = Ok lines ->
  Eslint.scan_eslint_ignore_file fs (Eslint.eslint_ignore_path args)
  = ([], Ok iif) ->
  iif ++ eslint_records (Eslint.path args) lines <> [] ->
  Eslint.output_dir args = None ->
  Eslint.verify args = false
  \/ (forall r, In r (iif ++ eslint_records (Eslint.path args) lines) ->
                eslint_bad r = false) ->
  exit_code (Eslint.main fs args) = Some 0
  /\ report (Eslint.main fs args)
     = flat_map eslint_console iif
       ++ flat_map eslint_console (eslint_records (Eslint.path args) lines).
Proof.
  intros H1 H2 H3 H4 Hne Hd Hv.
  assert (Hm : mkdir_fails fs (Eslint.output_dir args) = false)
    by now rewrite Hd.
  destruct (proj2 (eslint_main_cases fs args) Hm) as (Hms & Hmr & _).
  rewrite Hd in Hms, Hmr.
  change (after_export_dir fs None) with fs in Hms, Hmr.
  destruct (eslint_collect_file fs args lines iif H2 H3) as [HAs HAr].
  destruct (eslint_rest_collect fs args iif _ _ H1 H4 HAs HAr)
    as (Hs & Hrep & _).
  assert (Ht : forall r,
             In r (iif ++ eslint_records (Eslint.path args) lines) ->
             Eslint.type_ r <> None).
  { intros r Hr. apply in_app_or in Hr. destruct Hr as [Hr|Hr].
    - eapply ignore_list_typed; eauto.
    - eapply eslint_records_typed; eauto. }
  destruct (eslint_after_scan_console fs args iif _ 1 Ht Hd Hv)
    as [Hc Hcr].
  unfold exit_code in *. rewrite Hms, Hmr, Hs, Hrep.
  split; [exact Hc|]. now rewrite Hcr, flat_map_app.
Qed.

(** X22.  Under [--verify], [main] of Dialect A on a file ends with
    status 1 and writes nothing of the report when a record of the
    ignore list or of the file has [None] or the empty list as its
    justification: the records of the ignore list pass through the gate
    as the others do. *)
Theorem eslint_verify_gates_ignore_list (fs : FS) (args : Eslint.Args)
  (lines : list str) (iif : list Eslint.Ignore) (r : Eslint.Ignore) :
  exists_ fs (Eslint.path args) = true ->
  is_file fs (Eslint.path args) = true ->
  readlines fs (Eslint.path args) = Ok lines ->
  Eslint.scan_eslint_ignore_file fs (Eslint.eslint_ignore_path args)
  = ([], Ok iif) ->
  In r (iif ++ eslint_records (Eslint.path args) lines) ->
  Eslint.reason r = None \/ Eslint.reason r = Some [] ->
  Eslint.verify args = true ->
  exit_code (Eslint.main fs args) = Some 1
  /\ report (Eslint.main fs args) = [].
Proof.
  intros H1 H2 H3 H4 Hr He Hv.
  destruct (mkdir_fails fs (Eslint.output_dir args)) eqn:Hm.
  { destruct (proj1 (eslint_main_cases fs args) Hm) as [Hs Hrep].
    unfold exit_code. rewrite Hs, Hrep. split; reflexivity. }
  destruct (proj2 (eslint_main_cases fs args) Hm) as (Hms & Hmr & _).
  destruct (after_export_dir_kept fs (Eslint.output_dir args) _ H1)
    as (K1 & K2 & K3).
  rewrite H2 in K2. rewrite H3 in K3.
  unfold exit_code. rewrite Hms, Hmr.
  destruct (ignore_scan_after fs (Eslint.output_dir args) _ _ H4)
    as [K4|K4].
  - destruct (eslint_collect_file _ args lines iif K2 K3) as [HAs HAr].
    destruct (eslint_rest_collect _ args iif _ _ K1 K4 HAs HAr)
      as (Hs & Hrep & _).
    rewrite Hs, Hrep, eslint_after_scan_fs.
    assert (Ht : forall x,
               In x (iif ++ eslint_records (Eslint.path args) lines) ->
               Eslint.type_ x <> None).
    { intros x Hx. apply in_app_or in Hx. destruct Hx as [Hx|Hx].
      - eapply ignore_list_typed; eauto.
      - eapply eslint_records_typed; eauto. }
    destruct (eslint_after_scan_gated fs args iif _ 1 r Ht Hr He Hv)
      as [-> ->].
    split; reflexivity.
  - destruct (eslint_rest_ignore_list_raises _ args _ K1 K4) as [-> ->].
    split; reflexivity.
Qed.

(** X23.  The warning [main] of Dialect A logs when it has records, on a
    file, in a run that gets past the export directory step: the number
    it shows is the number of the records of the file, without those of
    the ignore list, while the plural of the word that follows is chosen
    by the number of all records. *)
Theorem eslint_warning_counts_file_records (fs : FS) (args : Eslint.Args)
  (lines : list str) (iif : list Eslint.Ignore) :
  mkdir_fails fs (Eslint.output_dir args) = false ->
  exists_ fs (Eslint.path args) = true ->
  is_file fs (Eslint.path args) = true ->
  readlines fs (Eslint.path args) = Ok lines ->
  Eslint.scan_eslint_ignore_file
    (after_export_dir fs (Eslint.output_dir args))
    (Eslint.eslint_ignore_path args) = ([], Ok iif) ->
  iif ++ eslint_records (Eslint.path args) lines <> [] ->
  In (Log WARNING
        (L "WARNING: %d instance%s of ignores were detected across %d file%s, please assess if they are still relevant.")
        [str_of_Z (Z.of_nat
                     (length (eslint_records (Eslint.path args) lines)));
         (if (length iif
              + length (eslint_records (Eslint.path args) lines) =? 1)%nat
          then [] else L "s");
         L "1"; []])
     (fst (Eslint.main fs args)).
Proof.
  intros Hm H1 H2 H3 H4 Hne.
  destruct (proj2 (eslint_main_cases fs args) Hm) as (_ & _ & Hin).
  apply Hin. clear Hin.
  destruct (after_export_dir_kept fs (Eslint.output_dir args) _ H1)
    as (K1 & K2 & K3).
  rewrite H2 in K2. rewrite H3 in K3.
  destruct (eslint_collect_file _ args lines iif K2 K3) as [HAs HAr].
  destruct (eslint_rest_collect _ args iif _ _ K1 H4 HAs HAr)
    as (_ & _ & Hin).
  apply Hin. clear Hin.
  assert (Hl : length (iif ++ eslint_records (Eslint.path args) lines)
               = (length iif
                  + length (eslint_records (Eslint.path args) lines))%nat)
    by apply length_app.
  destruct (iif ++ eslint_records (Eslint.path args) lines)
    as [|r0 rest] eqn:E; [contradiction|].
  destruct (eslint_after_scan_cons
              (after_export_dir fs (Eslint.output_dir args)) args iif
              r0 rest 1) as (_ & _ & Hw).
  rewrite Hl in Hw.
  replace (Z.of_nat (length iif
                     + length (eslint_records (Eslint.path args) lines))
           - Z.of_nat (length iif))
    with (Z.of_nat (length (eslint_records (Eslint.path args) lines)))
    in Hw by lia.
  unfold Eslint.plural in Hw.
  replace (Z.of_nat (length iif
                     + length (eslint_records (Eslint.path args) lines))
           =? 1)
    with ((length iif
           + length (eslint_records (Eslint.path args) lines) =? 1)%nat)
    in Hw.
  - exact Hw.
  - destruct (Nat.eqb_spec
                (length iif
                 + length (eslint_records (Eslint.path args) lines)) 1)
      as [->|Hn]; [reflexivity|].
    symmetry. apply Z.eqb_neq. lia.
Qed.

(** X25.  [main] of Dialect A on a directory whose files can be read,
    without [--verify] and without an output directory, ends with
    status 0 and prints the records of the ignore list and then those of
    the files it scans, file after file in the order of the traversal,
    six lines for each record.  The files it scans are those of the
    traversal whose suffix is one of the extensions and that are not
    below an excluded directory. *)
Theorem eslint_main_directory_report (fs : FS) (args : Eslint.Args)
  (content : str -> list str) (iif : list Eslint.Ignore) :
  let dirs := match Eslint.ignore_dirs args with
              | Some s => map strip (split "," s)
              | None => []
              end in
  let extensions := map strip (split "," (Eslint.file_ext args)) in
  let files :=
    scanned fs dirs
      (filter (fun fp => existsb (str_eqb (suffix fs fp)) extensions)
              (glob fs (Eslint.path args) "**/*")) in
  exists_ fs (Eslint.path args) = true ->
  is_file fs (Eslint.path args) = false ->
  Eslint.scan_eslint_ignore_file fs (Eslint.eslint_ignore_path args)
  = ([], Ok iif) ->
  (forall p, In p files -> readlines fs p = Ok (content p)) ->
  Eslint.output_dir args = None ->
  Eslint.verify args = false ->
  exit_code (Eslint.main fs args) = Some 0
  /\ report (Eslint.main fs args)
     = flat_map eslint_console iif
       ++ flat_map eslint_console
            (flat_map (fun p => eslint_records p (content p)) files).
Proof.
  intros dirs extensions files H1 H2 H4 Hr Hd Hv.
  assert (Hm : mkdir_fails fs (Eslint.output_dir args) = false)
    by now rewrite Hd.
  destruct (proj2 (eslint_main_cases fs args) Hm) as (Hms & Hmr & _).
  rewrite Hd in Hms, Hmr.
  change (after_export_dir fs None) with fs in Hms, Hmr.
  pose proof (eslint_scan_paths_ok fs dirs content _ (iif, 0) Hr) as HA.
  cbn [fst snd] in HA. rewrite Z.add_0_l in HA. fold files in HA.
  destruct HA as [HAs HAr].
  assert (HAs' : snd (eslint_collect fs args iif)
                 = Ok (iif ++ flat_map
                                (fun p => eslint_records p (content p))
                                files,
                       Z.of_nat (length files)))
    by (unfold eslint_collect; rewrite H2; exact HAs).
  assert (HAr' : report (eslint_collect fs args iif) = [])
    by (unfold eslint_collect; rewrite H2; exact HAr).
  destruct (eslint_rest_collect fs args iif _ _ H1 H4 HAs' HAr')
    as (Hs & Hrep & _).
  assert (Ht : forall r,
             In r (iif ++ flat_map (fun p => eslint_records p (content p))
                                   files) ->
             Eslint.type_ r <> None).
  { intros r Hin. apply in_app_or in Hin. destruct Hin as [Hin|Hin].
    - eapply ignore_list_typed; eauto.
    - apply in_flat_map in Hin. destruct Hin as (p & _ & Hin).
      eapply eslint_records_typed; eauto. }
  destruct (eslint_after_scan_console fs args iif _
              (Z.of_nat (length files)) Ht Hd (or_introl Hv)) as [Hc Hcr].
  unfold exit_code in *. rewrite Hms, Hmr, Hs, Hrep.
  split; [exact Hc|]. now rewrite Hcr, flat_map_app.
Qed.

(** X26.  When an output directory is given and does not exist, [main]
    of either dialect creates it before anything else, so also in a run
    that then fails: the first two events of the run are the log line
    and the creation. *)
Theorem output_directory_created_first (fs : FS) (argsA : Eslint.Args)
  (argsB : Pylint.Args) (d : str) :
  exists_ fs d = false ->
  (Eslint.output_dir argsA = Some d ->
   exists evs,
     fst (Eslint.main fs argsA)
     = Log INFO (L "Creating export directory: %s") [resolve fs d]
         :: Mkdir d :: evs)
  /\ (Pylint.output_dir argsB = Some d ->
      exists evs,
        fst (Pylint.main fs argsB)
        = Log INFO (L "Creating export directory: %s") [resolve fs d]
            :: Mkdir d :: evs).
Proof.
  intros He. split; intros Hd.
  - unfold Eslint.main. cbv zeta. rewrite Hd, He. cbn [negb].
    rewrite (fst_iobind_ok (ret tt) _ tt eq_refl).
    destruct (mkdir fs d) as [made|].
    + match goal with
      | |- exists _, _ ++ fst (iobind ?m ?f) = _ =>
          rewrite (fst_iobind_ok m f (with_dirs fs made) eq_refl)
      end.
      eexists. reflexivity.
    + exists []. reflexivity.
  - unfold Pylint.main. cbv zeta. rewrite Hd, He. cbn [negb].
    rewrite (fst_iobind_ok (ret tt) _ tt eq_refl).
    destruct (mkdir fs d) as [made|].
    + match goal with
      | |- exists _, _ ++ fst (iobind ?m ?f) = _ =>
          rewrite (fst_iobind_ok m f (with_dirs fs made) eq_refl)
      end.
      eexists. reflexivity.
    + exists []. reflexivity.
Qed.

End MainRuns.

(* ================================================================== *)
(** ** The further properties on files *)

Section Instances.
Import Py Re Out Inv Ext.

(** X5 on a file: the comment above the directive is indented, and the
    directive has no text of its own. *)
Lemma pylint_preceding_comment_needs_column_one_witness :
  let prev := line "    # kept for the plugin loader" in
  let d := line "    import os  # pylint: disable=unused-import" in
  exists m,
    rematch Pylint.PYLINT_IGNORE_PATTERN (strip d) = Some m
    /\ Pylint.get_reason m 2 [prev; d] = Ok (same_line m).
Proof.
  intros prev d.
  destruct (rematch Pylint.PYLINT_IGNORE_PATTERN (strip d)) as [m|] eqn:E;
    [|vm_compute in E; discriminate].
  exists m. split; [reflexivity|].
  apply (pylint_preceding_comment_needs_column_one (strip d) m 2 [prev; d]
           prev E).
  - vm_compute. reflexivity.
  - intros t Ht. vm_compute in Ht. discriminate.
Defined.

(** X6 on a line: [@ts-nocheck] is taken for a directive. *)
Lemma any_ts_comment_is_a_directive_witness :
  eslint_directive (line "// @ts-nocheck") = true.
Proof.
  apply (any_ts_comment_is_a_directive (line "// @ts-nocheck") (L " ")
           (L "nocheck")); vm_compute; reflexivity.
Defined.

(** X7 on a file: the line above the directive is code that holds a URL. *)
Lemma eslint_preceding_line_with_slashes_witness :
  exists g,
    Eslint.get_reason 2
      [line "const u = 'http://example.org';";
       line "// eslint-disable-next-line no-console"] = Ok [g].
Proof.
  apply (eslint_preceding_line_with_slashes 2
           [line "const u = 'http://example.org';";
            line "// eslint-disable-next-line no-console"]
           (L "const u = 'http:") "e"%char (line "xample.org';"));
    vm_compute; reflexivity.
Defined.

(** X8 on records: one with a reason, one without. *)
Lemma pylint_gate_witness :
  let r := Pylint.mkIgnore (L "a.py") 2 2 (Some (L "unused-import")) [] in
  let j := Pylint.mkIgnore (L "a.py") 5 5 (Some (L "invalid-name"))
             [L "legacy name"] in
  Pylint.catch_bad_ignores [j] = ([], Ok tt)
  /\ Pylint.catch_bad_ignores [j; r]
     = ([Log ERROR
           (L "ERROR: The following Pylint ignores were detected without any reasons for justification. Please ensure that a reason is given either in the same comment line, or in comments immediately below the original ignore.")
           [];
         Log ERROR (L "%d. %s, lines %s") [L "1"; L "a.py"; L "2-2"]],
        Raise (SystemExit 1)).
Proof.
  intros r j. split.
  - apply (proj1 (pylint_gate [j])). intros x [<-|[]].
    vm_compute. discriminate.
  - destruct (proj2 (pylint_gate [j; r]) r) as [_ H].
    + right. left. reflexivity.
    + left. reflexivity.
    + rewrite H. vm_compute. reflexivity.
Defined.

(** X10 on a file without directives, under [--verify], with an
    export directory that is made. *)
Lemma pylint_main_nothing_found_witness :
  let fs := one_file (L "a.py") [line "import os"; line "# a comment"] in
  let args := Pylint.mkArgs (L "a.py") (Some (L "out")) None true in
  exit_code (Pylint.main fs args) = Some 0
  /\ report (Pylint.main fs args) = [].
Proof.
  intros fs args.
  destruct (pylint_main_nothing_found fs args
              [line "import os"; line "# a comment"]) as [Hc Hr].
  - vm_compute. reflexivity.
  - vm_compute. reflexivity.
  - vm_compute. reflexivity.
  - intros l [<-|[<-|[]]]; vm_compute; reflexivity.
  - split; [rewrite Hc; vm_compute; reflexivity | exact Hr].
Defined.

(** X11 on a file whose directive has no justification. *)
Lemma pylint_verify_blocks_report_witness :
  let lines := [line "x = 1";
                line "import os  # pylint: disable=unused-import"] in
  let fs := one_file (L "a.py") lines in
  let args := Pylint.mkArgs (L "a.py") None None true in
  exit_code (Pylint.main fs args) = Some 1
  /\ report (Pylint.main fs args) = [].
Proof.
  intros lines fs args.
  apply (pylint_verify_blocks_report fs args lines
           [Pylint.mkIgnore (L "a.py") 2 2 (Some (L "unused-import")) []]
           (Pylint.mkIgnore (L "a.py") 2 2 (Some (L "unused-import")) [])).
  - vm_compute. reflexivity.
  - vm_compute. reflexivity.
  - vm_compute. reflexivity.
  - vm_compute. reflexivity.
  - left. reflexivity.
  - reflexivity.
  - reflexivity.
Defined.

(** X12 on a file whose directive is justified, under [--verify]. *)
Lemma pylint_main_prints_report_witness :
  let lines := [line "# needed by the plugin loader";
                line "import os  # pylint: disable=unused-import"] in
  let fs := one_file (L "a.py") lines in
  let args := Pylint.mkArgs (L "a.py") None None true in
  let r := Pylint.mkIgnore (L "a.py") 2 2 (Some (L "unused-import"))
             [L "needed by the plugin loader"] in
  exit_code (Pylint.main fs args) = Some 0
  /\ report (Pylint.main fs args) = flat_map pylint_console [r].
Proof.
  intros lines fs args r.
  apply (pylint_main_prints_report fs args lines [r]).
  - vm_compute. reflexivity.
  - vm_compute. reflexivity.
  - vm_compute. reflexivity.
  - vm_compute. reflexivity.
  - discriminate.
  - reflexivity.
  - right. intros x [<-|[]]. vm_compute. discriminate.
Defined.

(** X13 on a file system whose files cannot be read. *)
Lemma pylint_unreadable_file_aborts_witness :
  let fs := {| exists_ := fun _ => true;
               is_file := fun _ => true;
               readlines := fun _ => Raise OSError;
               glob := fun _ _ => [];
               suffix := fun _ => [];
               is_relative_to := fun _ _ => false;
               resolve := fun p => p;
               joinpath := fun a b => a ++ L "/" ++ b;
               mkdir := fun d => Some (fun p => str_eqb p d) |} in
  let args := Pylint.mkArgs (L "a.py") None None false in
  snd (Pylint.main fs args) = Raise OSError
  /\ report (Pylint.main fs args) = [].
Proof.
  intros fs args.
  apply (pylint_unreadable_file_aborts fs args OSError); reflexivity.
Defined.

(** X14 on a file system that does not hold the path, with an export
    directory that is made and is not the path. *)
Lemma main_missing_path_witness :
  let fs := one_file (L "a.py") [] in
  let argsA := Eslint.mkArgs (L "src") (L ".eslintignore") (Some (L "out"))
                 (L ".mjs,.js,.ts,.jsx,.tsx") (Some (L "node_modules"))
                 false in
  let argsB := Pylint.mkArgs (L "src") (Some (L "out")) None false in
  (exit_code (Eslint.main fs argsA) = Some 1
   /\ report (Eslint.main fs argsA) = [])
  /\ (exit_code (Pylint.main fs argsB) = Some 1
      /\ report (Pylint.main fs argsB) = []).
Proof.
  intros fs argsA argsB. split.
  - apply (proj1 (main_missing_path fs argsA argsB)).
    vm_compute. reflexivity.
  - apply (proj2 (main_missing_path fs argsA argsB)).
    vm_compute. reflexivity.
Defined.

(** X15 on an ignore list with a comment, two paths and an empty line. *)
Lemma ignore_list_scanner_witness :
  let raw := [line "# build output"; line "dist"; line "";
              line "coverage"] in
  let fs := one_file (L ".eslintignore") raw in
  exists out,
    Eslint.scan_eslint_ignore_file fs (L ".eslintignore") = ([], Ok out)
    /\ map Eslint.filepath out = [L "dist"; L "coverage"].
Proof.
  intros raw fs.
  assert (He : exists_ fs (L ".eslintignore") = true)
    by (vm_compute; reflexivity).
  assert (Hr : readlines fs (L ".eslintignore") = Ok raw)
    by (vm_compute; reflexivity).
  destruct (ignore_list_scanner fs (L ".eslintignore") raw He Hr)
    as (out & Ho & Hf & _).
  exists out. split; [exact Ho|]. rewrite Hf. vm_compute. reflexivity.
Defined.

(** X16 on a traversal of three files, one of them below an excluded
    directory and not readable. *)
Lemma pylint_directory_scan_witness :
  let content := fun p : str =>
    if str_eqb p (L "src/a.py")
    then [line "import os  # pylint: disable=unused-import kept"]
    else [line "x = 1"] in
  let fs := {| exists_ := fun _ => true;
               is_file := fun _ => false;
               readlines := fun p => if prefix (L "venv") p
                                     then Raise OSError
                                     else Ok (content p);
               glob := fun _ _ => [];
               suffix := fun _ => [];
               is_relative_to := fun f d => prefix d f;
               resolve := fun p => p;
               joinpath := fun a b => a ++ L "/" ++ b;
               mkdir := fun d => Some (fun p => str_eqb p d) |} in
  let paths := [L "src/a.py"; L "venv/b.py"; L "src/c.py"] in
  exists outs,
    Forall2 (fun p o => Pylint.find_ignores_in p (content p) = Ok o)
            [L "src/a.py"; L "src/c.py"] outs
    /\ Pylint.scan_paths fs [L "venv"] paths ([], 0)
       = ([], Ok (concat outs, Z.of_nat (length outs))).
Proof.
  intros content fs paths.
  apply (pylint_directory_scan fs [L "venv"] paths ([], 0) content).
  intros p Hp. vm_compute in Hp.
  destruct Hp as [<-|[<-|[]]]; vm_compute; reflexivity.
Defined.

(** X17 on the same traversal, for Dialect A. *)
Lemma eslint_directory_scan_witness :
  let content := fun p : str =>
    if str_eqb p (L "src/a.ts")
    then [line "// @ts-ignore"]
    else [line "let x = 1;"] in
  let fs := {| exists_ := fun _ => true;
               is_file := fun _ => false;
               readlines := fun p => if prefix (L "node_modules") p
                                     then Raise OSError
                                     else Ok (content p);
               glob := fun _ _ => [];
               suffix := fun _ => [];
               is_relative_to := fun f d => prefix d f;
               resolve := fun p => p;
               joinpath := fun a b => a ++ L "/" ++ b;
               mkdir := fun d => Some (fun p => str_eqb p d) |} in
  let paths := [L "src/a.ts"; L "node_modules/b.ts"; L "src/c.ts"] in
  snd (Eslint.scan_paths fs [L "node_modules"] paths ([], 0))
  = Ok ([Eslint.mkIgnore (L "src/a.ts") 1 1 None (Some [L "@ts-ignore"])
           (Some Eslint.TSLINT_IGNORE_SINGLE_LINE)], 2).
Proof.
  intros content fs paths.
  destruct (eslint_directory_scan fs [L "node_modules"] paths ([], 0)
              content) as [Hs _].
  - intros p Hp. vm_compute in Hp.
    destruct Hp as [<-|[<-|[]]]; vm_compute; reflexivity.
  - rewrite Hs. vm_compute. reflexivity.
Defined.

(** X18 on a traversal whose second file cannot be read. *)
Lemma unreadable_file_aborts_directory_scan_witness :
  let content := fun _ : str => [line "x = 1"] in
  let fs := {| exists_ := fun _ => true;
               is_file := fun _ => false;
               readlines := fun p => if str_eqb p (L "b")
                                     then Raise OSError
                                     else Ok (content p);
               glob := fun _ _ => [];
               suffix := fun _ => [];
               is_relative_to := fun f d => prefix d f;
               resolve := fun p => p;
               joinpath := fun a b => a ++ L "/" ++ b;
               mkdir := fun d => Some (fun p => str_eqb p d) |} in
  snd (Eslint.scan_paths fs [] [L "a"; L "b"; L "c"] ([], 0))
  = Raise OSError
  /\ snd (Pylint.scan_paths fs [] [L "a"; L "b"; L "c"] ([], 0))
     = Raise OSError.
Proof.
  intros content fs.
  apply (unreadable_file_aborts_directory_scan fs [] [L "a"; L "b"; L "c"]
           [L "a"] [L "c"] (L "b") OSError content).
  - reflexivity.
  - intros q [<-|[]]. vm_compute. reflexivity.
  - vm_compute. reflexivity.
Defined.

(** X19 on records: one from an ignore list whose justification is
    [None], one with a reason. *)
Lemma eslint_gate_witness :
  let r := Eslint.mkIgnore (L "build") 2 2 None None
             (Some Eslint.ESLINT_IGNORE_ESLINTIGNORE) in
  let j := Eslint.mkIgnore (L "a.ts") 5 5 (Some (L "no-console"))
             (Some [L "audit log"])
             (Some Eslint.ESLINT_IGNORE_SINGLE_LINE) in
  Eslint.catch_bad_ignores [j] = ([], Ok tt)
  /\ Eslint.catch_bad_ignores [r; j]
     = ([Log ERROR
           (L "ERROR: The following ignores were detected without any reasons for justification. Please ensure that a reason is given either in the same comment line, or in comments immediately below the original ignore.")
           [];
         Log ERROR (L "%d. %s, lines %s") [L "1"; L "build"; L "2-2"]],
        Raise (SystemExit 1)).
Proof.
  intros r j. split.
  - apply (proj1 (eslint_gate [j]
                    ltac:(intros x [<-|[]]; discriminate))).
    intros x [<-|[]]. vm_compute. reflexivity.
  - destruct (proj2 (eslint_gate [r; j]
                       ltac:(intros x [<-|[<-|[]]]; discriminate)) r)
      as [_ H].
    + left. reflexivity.
    + left. reflexivity.
    + rewrite H. vm_compute. reflexivity.
Defined.

(** X20 on records: one with a type, then one without. *)
Lemma eslint_export_witness :
  let fs := one_file (L "a.ts") [] in
  let j := Eslint.mkIgnore (L "a.ts") 5 5 (Some (L "no-console"))
             (Some [L "audit log"])
             (Some Eslint.ESLINT_IGNORE_SINGLE_LINE) in
  let u := Eslint.mkIgnore (L "a.ts") 7 7 None (Some []) None in
  Eslint.export fs None [j] = (eslint_console j, Ok tt)
  /\ snd (Eslint.export fs None [j; u; j]) = Raise (SystemExit 1)
  /\ report (Eslint.export fs None [j; u; j]) = eslint_console j.
Proof.
  intros fs j u. split.
  - rewrite (proj1 (eslint_export fs) [j]).
    + vm_compute. reflexivity.
    + intros x [<-|[]]. discriminate.
  - destruct (proj2 (eslint_export fs) [j] u [j]) as [Hs Hr].
    + intros x [<-|[]]. discriminate.
    + reflexivity.
    + split; [exact Hs|].
      transitivity (flat_map eslint_console [j]); [exact Hr|].
      vm_compute. reflexivity.
Defined.

(** X21 on a file with a justified directive and an ignore list whose
    path has a comment above it. *)
Lemma eslint_report_lists_ignore_list_first_witness :
  let lines := [line "// logging required for audit";
                line "// eslint-disable-next-line no-console"] in
  let fs := {| exists_ := fun _ => true;
               is_file := fun _ => true;
               readlines := fun p => if str_eqb p (L ".eslintignore")
                                     then Ok [line "# build output";
                                              line "dist"]
                                     else Ok lines;
               glob := fun _ _ => [];
               suffix := fun _ => [];
               is_relative_to := fun f d => prefix d f;
               resolve := fun p => p;
               joinpath := fun a b => a ++ L "/" ++ b;
               mkdir := fun d => Some (fun p => str_eqb p d) |} in
  let args := Eslint.mkArgs (L "a.ts") (L ".eslintignore") None
                (L ".mjs,.js,.ts,.jsx,.tsx") (Some (L "node_modules"))
                true in
  let i := Eslint.mkIgnore (L "dist") 2 2 None (Some [L "build output"])
             (Some Eslint.ESLINT_IGNORE_ESLINTIGNORE) in
  exit_code (Eslint.main fs args) = Some 0
  /\ report (Eslint.main fs args)
     = flat_map eslint_console [i]
       ++ flat_map eslint_console (eslint_records (L "a.ts") lines).
Proof.
  intros lines fs args i.
  apply (eslint_report_lists_ignore_list_first fs args lines [i]).
  - reflexivity.
  - reflexivity.
  - vm_compute. reflexivity.
  - vm_compute. reflexivity.
  - discriminate.
  - reflexivity.
  - right. intros r Hr. vm_compute in Hr.
    destruct Hr as [<-|[<-|[]]]; vm_compute; reflexivity.
Defined.

(** X22 on a clean file and an ignore list whose path has no comment
    above it. *)
Lemma eslint_verify_gates_ignore_list_witness :
  let lines := [line "let x = 1;"] in
  let fs := {| exists_ := fun _ => true;
               is_file := fun _ => true;
               readlines := fun p => if str_eqb p (L ".eslintignore")
                                     then Ok [line "dist"]
                                     else Ok lines;
               glob := fun _ _ => [];
               suffix := fun _ => [];
               is_relative_to := fun f d => prefix d f;
               resolve := fun p => p;
               joinpath := fun a b => a ++ L "/" ++ b;
               mkdir := fun d => Some (fun p => str_eqb p d) |} in
  let args := Eslint.mkArgs (L "a.ts") (L ".eslintignore") None
                (L ".mjs,.js,.ts,.jsx,.tsx") (Some (L "node_modules"))
                true in
  exit_code (Eslint.main fs args) = Some 1
  /\ report (Eslint.main fs args) = [].
Proof.
  intros lines fs args.
  apply (eslint_verify_gates_ignore_list fs args lines
           [Eslint.mkIgnore (L "dist") 1 1 None (Some [])
              (Some Eslint.ESLINT_IGNORE_ESLINTIGNORE)]
           (Eslint.mkIgnore (L "dist") 1 1 None (Some [])
              (Some Eslint.ESLINT_IGNORE_ESLINTIGNORE))).
  - reflexivity.
  - reflexivity.
  - vm_compute. reflexivity.
  - vm_compute. reflexivity.
  - left. reflexivity.
  - right. reflexivity.
  - reflexivity.
Defined.

(** X23 on a file with one directive and an ignore list with one path:
    the warning reads [1 instances]. *)
Lemma eslint_warning_counts_file_records_witness :
  let lines := [line "let x;"; line "// @ts-ignore"] in
  let fs := {| exists_ := fun _ => true;
               is_file := fun _ => true;
               readlines := fun p => if str_eqb p (L ".eslintignore")
                                     then Ok [line "dist"]
                                     else Ok lines;
               glob := fun _ _ => [];
               suffix := fun _ => [];
               is_relative_to := fun f d => prefix d f;
               resolve := fun p => p;
               joinpath := fun a b => a ++ L "/" ++ b;
               mkdir := fun d => Some (fun p => str_eqb p d) |} in
  let args := Eslint.mkArgs (L "a.ts") (L ".eslintignore") None
                (L ".mjs,.js,.ts,.jsx,.tsx") (Some (L "node_modules"))
                false in
  In (Log WARNING
        (L "WARNING: %d instance%s of ignores were detected across %d file%s, please assess if they are still relevant.")
        [L "1"; L "s"; L "1"; []])
     (fst (Eslint.main fs args)).
Proof.
  intros lines fs args.
  apply (eslint_warning_counts_file_records fs args lines
           [Eslint.mkIgnore (L "dist") 1 1 None (Some [])
              (Some Eslint.ESLINT_IGNORE_ESLINTIGNORE)]).
  - vm_compute. reflexivity.
  - reflexivity.
  - reflexivity.
  - vm_compute. reflexivity.
  - vm_compute. reflexivity.
  - discriminate.
Defined.

(** X24 on a directory of three files, one of them below an excluded
    directory and not readable. *)
Lemma pylint_main_directory_report_witness :
  let content := fun p : str =>
    if str_eqb p (L "src/a.py")
    then [line "import os  # pylint: disable=unused-import kept"]
    else [line "x = 1"] in
  let fs := {| exists_ := fun _ => true;
               is_file := fun _ => false;
               readlines := fun p => if prefix (L "venv") p
                                     then Raise OSError
                                     else Ok (content p);
               glob := fun _ _ =>
                 [L "src/a.py"; L "venv/b.py"; L "src/c.py"];
               suffix := fun _ => [];
               is_relative_to := fun f d => prefix d f;
               resolve := fun p => p;
               joinpath := fun a b => a ++ L "/" ++ b;
               mkdir := fun d => Some (fun p => str_eqb p d) |} in
  let args := Pylint.mkArgs (L ".") None (Some (L "venv, build")) false in
  exists outs,
    Forall2 (fun p o => Pylint.find_ignores_in p (content p) = Ok o)
            [L "src/a.py"; L "src/c.py"] outs
    /\ exit_code (Pylint.main fs args) = Some 0
    /\ report (Pylint.main fs args) = flat_map pylint_console (concat outs).
Proof.
  intros content fs args.
  apply (pylint_main_directory_report fs args content).
  - reflexivity.
  - reflexivity.
  - intros p Hp. vm_compute in Hp.
    destruct Hp as [<-|[<-|[]]]; vm_compute; reflexivity.
  - reflexivity.
  - reflexivity.
Defined.

(** X25 on a directory of four files: one below an excluded directory,
    one with another suffix; there is no ignore list. *)
Lemma eslint_main_directory_report_witness :
  let content := fun p : str =>
    if str_eqb p (L "src/a.ts")
    then [line "// @ts-ignore"]
    else [line "let x = 1;"] in
  let fs := {| exists_ := fun p => negb (str_eqb p (L ".eslintignore"));
               is_file := fun _ => false;
               readlines := fun p => if prefix (L "node_modules") p
                                     then Raise OSError
                                     else Ok (content p);
               glob := fun _ _ =>
                 [L "src/a.ts"; L "node_modules/b.ts"; L "src/c.md";
                  L "src/d.ts"];
               suffix := fun p => skipn (length p - 3) p;
               is_relative_to := fun f d => prefix d f;
               resolve := fun p => p;
               joinpath := fun a b => a ++ L "/" ++ b;
               mkdir := fun d => Some (fun p => str_eqb p d) |} in
  let args := Eslint.mkArgs (L ".") (L ".eslintignore") None
                (L ".mjs,.js,.ts,.jsx,.tsx") (Some (L "node_modules"))
                false in
  exit_code (Eslint.main fs args) = Some 0
  /\ report (Eslint.main fs args)
     = flat_map eslint_console
         (flat_map (fun p => eslint_records p (content p))
                   [L "src/a.ts"; L "src/d.ts"]).
Proof.
  intros content fs args.
  destruct (eslint_main_directory_report fs args content []) as [Hc Hr].
  - reflexivity.
  - reflexivity.
  - reflexivity.
  - intros p Hp. vm_compute in Hp.
    destruct Hp as [<-|[<-|[]]]; vm_compute; reflexivity.
  - reflexivity.
  - reflexivity.
  - split; [exact Hc|]. rewrite Hr. vm_compute. reflexivity.
Defined.

(** X26 on runs whose path does not exist. *)
Lemma output_directory_created_first_witness :
  let fs := one_file (L "a.py") [] in
  let argsA := Eslint.mkArgs (L "src") (L ".eslintignore") (Some (L "out"))
                 (L ".mjs,.js,.ts,.jsx,.tsx") (Some (L "node_modules"))
                 false in
  let argsB := Pylint.mkArgs (L "src") (Some (L "out")) None false in
  (exists evs,
      fst (Eslint.main fs argsA)
      = Log INFO (L "Creating export directory: %s") [L "out"]
          :: Mkdir (L "out") :: evs)
  /\ (exists evs,
         fst (Pylint.main fs argsB)
         = Log INFO (L "Creating export directory: %s") [L "out"]
             :: Mkdir (L "out") :: evs).
Proof.
  intros fs argsA argsB.
  assert (He : exists_ fs (L "out") = false) by (vm_compute; reflexivity).
  split.
  - apply (proj1 (output_directory_created_first fs argsA argsB (L "out")
                    He)). reflexivity.
  - apply (proj2 (output_directory_created_first fs argsA argsB (L "out")
                    He)). reflexivity.
Defined.


End Instances.
